(** * d2q9-bgk: a shallow embedding of the lattice Boltzmann kernel

    The C program keeps nine distribution values per grid cell in a
    structure of arrays ([t_speed]) and advances them with [timestep]:
    [accelerate_flow] on row [ny - 2], then one fused pass that pulls the
    nine incoming values of each cell from its periodic neighbours and either
    mirrors them (obstacle) or relaxes them towards equilibrium (fluid),
    writing into the scratch grid.

    The embedding is parametric in the arithmetic (class [FloatOps]): the
    same definitions run over IEEE binary32 (the C [float], through
    [SpecFloat]) and are reasoned about over the real numbers (exact
    arithmetic).  A literal such as [9.f] is [of_int 9]; [0.5f] is written
    [of_int 1 / of_int 2], which is exact in both arithmetics.  C arrays are
    lists; a read or write outside the array is undefined behaviour in C and
    [None] here.  C [int] values are integers of [Z]: on a grid of [nx] by
    [ny] cells every integer the functions compute lies between [-nx] and
    the largest of [nx * ny], [nx] and [ny], so no wrap-around occurs on
    grids whose cell count fits an [int].

    The file has four parts: the embedding of the C functions and the
    vocabulary of the statements; the lemmas, which describe each loop nest
    on well-formed arrays; the claims, each with its example; and the
    properties of the program around the kernel (the obstacle list, the
    iteration loop of [main], the Reynolds number and the two files it
    writes), each with its example. *)

From Stdlib Require Import ZArith Reals Lra Lia String.
From Stdlib Require Import Floats.SpecFloat.
From stdpp Require Import base tactics option list list_numbers.

Local Open Scope Z_scope.

(** ** Arithmetic interface *)

Class FloatOps (F : Type) := {
  of_int : Z -> F;          (* an integer literal or an (float) cast *)
  fadd : F -> F -> F;
  fsub : F -> F -> F;
  fmul : F -> F -> F;
  fdiv : F -> F -> F;
  fneg : F -> F;
  fsqrt : F -> F;           (* sqrtf *)
  fgt : F -> F -> bool      (* x > y *)
}.

Declare Scope flt_scope.
Delimit Scope flt_scope with flt.
Notation "x + y" := (fadd x y) : flt_scope.
Notation "x - y" := (fsub x y) : flt_scope.
Notation "x * y" := (fmul x y) : flt_scope.
Notation "x / y" := (fdiv x y) : flt_scope.
Notation "- x" := (fneg x) : flt_scope.
Notation "# z" := (of_int z) (at level 1, format "# z") : flt_scope.

(** ** Arrays: C indexing with undefined behaviour as [None] *)

Definition rd {A} (l : list A) (i : Z) : option A :=
  if decide (0 <= i) then l !! Z.to_nat i else None.

Definition wr {A} (l : list A) (i : Z) (v : A) : option (list A) :=
  if decide (0 <= i < Z.of_nat (length l)) then Some (<[Z.to_nat i := v]> l)
  else None.

(** [for (int i = lo; i < lo + n; i++) body], threading the state and
    stopping at the first undefined step. *)
Fixpoint for_each {S} (body : Z -> S -> option S) (l : list Z) (s : S)
  : option S :=
  match l with
  | [] => Some s
  | i :: l' => s' ← body i s; for_each body l' s'
  end.

Definition for_range {S} (lo hi : Z) (body : Z -> S -> option S) (s : S)
  : option S :=
  for_each body (seqZ lo (hi - lo)) s.

(** ** Data model *)

Inductive dir := D0 | D1 | D2 | D3 | D4 | D5 | D6 | D7 | D8.

Global Instance dir_eq_dec : EqDecision dir.
Proof. solve_decision. Defined.

Section Model.
Context {F : Type} `{FloatOps F}.
Local Open Scope flt_scope.

(** struct to hold the parameter values *)
Record t_param := {
  nx : Z;
  ny : Z;
  maxIters : Z;
  reynolds_dim : Z;
  density : F;
  accel : F;
  omega : F
}.

(** struct to hold the 'speed' values: one array per direction *)
Record t_speed := {
  speeds0 : list F;
  speeds1 : list F;
  speeds2 : list F;
  speeds3 : list F;
  speeds4 : list F;
  speeds5 : list F;
  speeds6 : list F;
  speeds7 : list F;
  speeds8 : list F
}.

(** [cells->speeds<d>] *)
Definition speeds (d : dir) (c : t_speed) : list F :=
  match d with
  | D0 => speeds0 c | D1 => speeds1 c | D2 => speeds2 c
  | D3 => speeds3 c | D4 => speeds4 c | D5 => speeds5 c
  | D6 => speeds6 c | D7 => speeds7 c | D8 => speeds8 c
  end.

Definition set_speeds (d : dir) (l : list F) (c : t_speed) : t_speed :=
  match d with
  | D0 => {| speeds0 := l; speeds1 := speeds1 c; speeds2 := speeds2 c;
             speeds3 := speeds3 c; speeds4 := speeds4 c; speeds5 := speeds5 c;
             speeds6 := speeds6 c; speeds7 := speeds7 c; speeds8 := speeds8 c |}
  | D1 => {| speeds0 := speeds0 c; speeds1 := l; speeds2 := speeds2 c;
             speeds3 := speeds3 c; speeds4 := speeds4 c; speeds5 := speeds5 c;
             speeds6 := speeds6 c; speeds7 := speeds7 c; speeds8 := speeds8 c |}
  | D2 => {| speeds0 := speeds0 c; speeds1 := speeds1 c; speeds2 := l;
             speeds3 := speeds3 c; speeds4 := speeds4 c; speeds5 := speeds5 c;
             speeds6 := speeds6 c; speeds7 := speeds7 c; speeds8 := speeds8 c |}
  | D3 => {| speeds0 := speeds0 c; speeds1 := speeds1 c; speeds2 := speeds2 c;
             speeds3 := l; speeds4 := speeds4 c; speeds5 := speeds5 c;
             speeds6 := speeds6 c; speeds7 := speeds7 c; speeds8 := speeds8 c |}
  | D4 => {| speeds0 := speeds0 c; speeds1 := speeds1 c; speeds2 := speeds2 c;
             speeds3 := speeds3 c; speeds4 := l; speeds5 := speeds5 c;
             speeds6 := speeds6 c; speeds7 := speeds7 c; speeds8 := speeds8 c |}
  | D5 => {| speeds0 := speeds0 c; speeds1 := speeds1 c; speeds2 := speeds2 c;
             speeds3 := speeds3 c; speeds4 := speeds4 c; speeds5 := l;
             speeds6 := speeds6 c; speeds7 := speeds7 c; speeds8 := speeds8 c |}
  | D6 => {| speeds0 := speeds0 c; speeds1 := speeds1 c; speeds2 := speeds2 c;
             speeds3 := speeds3 c; speeds4 := speeds4 c; speeds5 := speeds5 c;
             speeds6 := l; speeds7 := speeds7 c; speeds8 := speeds8 c |}
  | D7 => {| speeds0 := speeds0 c; speeds1 := speeds1 c; speeds2 := speeds2 c;
             speeds3 := speeds3 c; speeds4 := speeds4 c; speeds5 := speeds5 c;
             speeds6 := speeds6 c; speeds7 := l; speeds8 := speeds8 c |}
  | D8 => {| speeds0 := speeds0 c; speeds1 := speeds1 c; speeds2 := speeds2 c;
             speeds3 := speeds3 c; speeds4 := speeds4 c; speeds5 := speeds5 c;
             speeds6 := speeds6 c; speeds7 := speeds7 c; speeds8 := l |}
  end.

(** [cells->speeds<d>[i]] as an rvalue, and the assignment
    [cells->speeds<d>[i] = v]. *)
Definition load (d : dir) (c : t_speed) (i : Z) : option F :=
  rd (speeds d c) i.

Definition store (d : dir) (c : t_speed) (i : Z) (v : F) : option t_speed :=
  l ← wr (speeds d c) i v; Some (set_speeds d l c).

(** The nine locals [s0 .. s8] of [timestep]. *)
Record stencil := {
  s0 : F; s1 : F; s2 : F; s3 : F; s4 : F; s5 : F; s6 : F; s7 : F; s8 : F
}.

Definition sget (d : dir) (s : stencil) : F :=
  match d with
  | D0 => s0 s | D1 => s1 s | D2 => s2 s | D3 => s3 s | D4 => s4 s
  | D5 => s5 s | D6 => s6 s | D7 => s7 s | D8 => s8 s
  end.

(** ** [timestep]: neighbour indices (lines 220-227) *)

Definition y_south (p : t_param) (jj : Z) : Z :=
  if decide (jj = 0) then jj + ny p - 1 else jj - 1.
Definition y_north (p : t_param) (jj : Z) : Z := Z.rem (jj + 1) (ny p).
Definition x_east (p : t_param) (ii : Z) : Z := Z.rem (ii + 1) (nx p).
Definition x_west (p : t_param) (ii : Z) : Z :=
  if decide (ii = 0) then ii + nx p - 1 else ii - 1.

(** ** [timestep]: propagate, the nine reads of lines 232-240 *)
Definition propagate (p : t_param) (cells : t_speed) (jj y_s y_n ii : Z)
  : option stencil :=
  let x_e := x_east p ii in
  let x_w := x_west p ii in
  c0 ← load D0 cells (ii + jj * nx p);   (* central cell, no movement *)
  c1 ← load D1 cells (x_w + jj * nx p);  (* east *)
  c2 ← load D2 cells (ii + y_s * nx p);  (* north *)
  c3 ← load D3 cells (x_e + jj * nx p);  (* west *)
  c4 ← load D4 cells (ii + y_n * nx p);  (* south *)
  c5 ← load D5 cells (x_w + y_s * nx p); (* north-east *)
  c6 ← load D6 cells (x_e + y_s * nx p); (* north-west *)
  c7 ← load D7 cells (x_e + y_n * nx p); (* south-west *)
  c8 ← load D8 cells (x_w + y_n * nx p); (* south-east *)
  Some {| s0 := c0; s1 := c1; s2 := c2; s3 := c3; s4 := c4;
          s5 := c5; s6 := c6; s7 := c7; s8 := c8 |}.

(** ** [timestep]: rebound, the eight writes of lines 247-254 *)
Definition rebound (tmp_cells : t_speed) (i : Z) (s : stencil)
  : option t_speed :=
  t ← store D1 tmp_cells i (s3 s);
  t ← store D2 t i (s4 s);
  t ← store D3 t i (s1 s);
  t ← store D4 t i (s2 s);
  t ← store D5 t i (s7 s);
  t ← store D6 t i (s8 s);
  t ← store D7 t i (s5 s);
  store D8 t i (s6 s).

(** ** [timestep]: collision, lines 260-293.  Returns the nine relaxed
    values and the norm of the cell velocity. *)
Definition collision (p : t_param) (s : stencil) : stencil * F :=
  let c_sq_inv := #3 in
  let half := #1 / #2 in               (* 0.5f *)
  let w0 := #4 / #9 in
  let w1 := #1 / #9 in
  let w2 := #1 / #36 in
  let '{| s0 := s0; s1 := s1; s2 := s2; s3 := s3; s4 := s4;
          s5 := s5; s6 := s6; s7 := s7; s8 := s8 |} := s in
  let local_density := s0 + s1 + s2 + s3 + s4 + s5 + s6 + s7 + s8 in
  let u_x := (s1 + s5 + s8 - (s3 + s6 + s7)) / local_density in
  let u_y := (s2 + s5 + s6 - (s4 + s7 + s8)) / local_density in
  let u_sq := u_x * u_x + u_y * u_y in
  let d_equ0 := w0 * local_density * (#1 - u_sq * (half * c_sq_inv)) in
  let d_equ1 := w1 * local_density * (#1 + (u_x * c_sq_inv) + (u_x * u_x) * (half * c_sq_inv * c_sq_inv) - u_sq * (half * c_sq_inv)) in
  let d_equ2 := w1 * local_density * (#1 + (u_y * c_sq_inv) + (u_y * u_y) * (half * c_sq_inv * c_sq_inv) - u_sq * (half * c_sq_inv)) in
  let d_equ3 := w1 * local_density * (#1 + (- u_x * c_sq_inv) + (u_x * u_x) * (half * c_sq_inv * c_sq_inv) - u_sq * (half * c_sq_inv)) in
  let d_equ4 := w1 * local_density * (#1 + (- u_y * c_sq_inv) + (u_y * u_y) * (half * c_sq_inv * c_sq_inv) - u_sq * (half * c_sq_inv)) in
  let d_equ5 := w2 * local_density * (#1 + ((u_x + u_y) * c_sq_inv) + ((u_x + u_y) * (u_x + u_y)) * (half * c_sq_inv * c_sq_inv) - u_sq * (half * c_sq_inv)) in
  let d_equ6 := w2 * local_density * (#1 + ((- u_x + u_y) * c_sq_inv) + ((- u_x + u_y) * (- u_x + u_y)) * (half * c_sq_inv * c_sq_inv) - u_sq * (half * c_sq_inv)) in
  let d_equ7 := w2 * local_density * (#1 + ((- u_x - u_y) * c_sq_inv) + ((- u_x - u_y) * (- u_x - u_y)) * (half * c_sq_inv * c_sq_inv) - u_sq * (half * c_sq_inv)) in
  let d_equ8 := w2 * local_density * (#1 + ((u_x - u_y) * c_sq_inv) + ((u_x - u_y) * (u_x - u_y)) * (half * c_sq_inv * c_sq_inv) - u_sq * (half * c_sq_inv)) in
  ({| s0 := s0 + omega p * (d_equ0 - s0);
      s1 := s1 + omega p * (d_equ1 - s1);
      s2 := s2 + omega p * (d_equ2 - s2);
      s3 := s3 + omega p * (d_equ3 - s3);
      s4 := s4 + omega p * (d_equ4 - s4);
      s5 := s5 + omega p * (d_equ5 - s5);
      s6 := s6 + omega p * (d_equ6 - s6);
      s7 := s7 + omega p * (d_equ7 - s7);
      s8 := s8 + omega p * (d_equ8 - s8) |},
   fsqrt ((u_x * u_x) + (u_y * u_y))).

(** The nine writes of lines 282-290. *)
Definition store_all (tmp_cells : t_speed) (i : Z) (s : stencil)
  : option t_speed :=
  t ← store D0 tmp_cells i (s0 s);
  t ← store D1 t i (s1 s);
  t ← store D2 t i (s2 s);
  t ← store D3 t i (s3 s);
  t ← store D4 t i (s4 s);
  t ← store D5 t i (s5 s);
  t ← store D6 t i (s6 s);
  t ← store D7 t i (s7 s);
  store D8 t i (s8 s).

(** The loop state: the scratch grid, [tot_u] and [tot_cells]. *)
Definition pass_state : Type := t_speed * F * Z.

(** ** [timestep]: the body of the inner loop (lines 224-296) *)
Definition timestep_cell (p : t_param) (cells : t_speed) (obstacles : list Z)
    (jj y_s y_n ii : Z) (st : pass_state) : option pass_state :=
  let '(tmp_cells, tot_u, tot_cells) := st in
  s ← propagate p cells jj y_s y_n ii;
  (* if the cell contains an obstacle *)
  ob ← rd obstacles (jj * nx p + ii);
  tmp_cells ← (if decide (ob ≠ 0) then rebound tmp_cells (ii + jj * nx p) s
               else Some tmp_cells);
  (* don't consider occupied cells *)
  ob ← rd obstacles (ii + jj * nx p);
  if decide (ob = 0) then
    let '(s', u) := collision p s in
    tmp_cells ← store_all tmp_cells (ii + jj * nx p) s';
    Some (tmp_cells, tot_u + u, (tot_cells + 1)%Z)
  else Some (tmp_cells, tot_u, tot_cells).

(** The body of the outer loop (lines 219-297). *)
Definition timestep_row (p : t_param) (cells : t_speed) (obstacles : list Z)
    (jj : Z) (st : pass_state) : option pass_state :=
  let y_s := y_south p jj in
  let y_n := y_north p jj in
  for_range 0 (nx p) (timestep_cell p cells obstacles jj y_s y_n) st.

(** The loop nest of [timestep] and its return value (lines 212-213 and
    217-299): the pass the specification calls streamCollide.  Returns the
    average velocity and the scratch grid. *)
Definition stream_collide (p : t_param) (cells tmp_cells : t_speed)
    (obstacles : list Z) : option (F * t_speed) :=
  '(tmp_cells, tot_u, tot_cells) ←
      for_range 0 (ny p) (timestep_row p cells obstacles) (tmp_cells, #0, 0%Z);
  Some (tot_u / #tot_cells, tmp_cells).

(** ** [accelerate_flow] (lines 302-329) *)
Definition accelerate_cell (p : t_param) (w1 w2 : F) (jj : Z)
    (obstacles : list Z) (ii : Z) (cells : t_speed) : option t_speed :=
  let i := (ii + jj * nx p)%Z in
  (* if the cell is not occupied and we don't send a negative density *)
  ob ← rd obstacles i;
  if decide (ob ≠ 0) then Some cells else
  c3 ← load D3 cells i;
  if negb (fgt (c3 - w1) #0) then Some cells else
  c6 ← load D6 cells i;
  if negb (fgt (c6 - w2) #0) then Some cells else
  c7 ← load D7 cells i;
  if negb (fgt (c7 - w2) #0) then Some cells else
  (* increase 'east-side' densities *)
  c1 ← load D1 cells i; cells ← store D1 cells i (c1 + w1);
  c5 ← load D5 cells i; cells ← store D5 cells i (c5 + w2);
  c8 ← load D8 cells i; cells ← store D8 cells i (c8 + w2);
  (* decrease 'west-side' densities *)
  c3 ← load D3 cells i; cells ← store D3 cells i (c3 - w1);
  c6 ← load D6 cells i; cells ← store D6 cells i (c6 - w2);
  c7 ← load D7 cells i; store D7 cells i (c7 - w2).

Definition accelerate_flow (p : t_param) (cells : t_speed)
    (obstacles : list Z) : option t_speed :=
  (* compute weighting factors *)
  let w1 := density p * accel p / #9 in
  let w2 := density p * accel p / #36 in
  (* modify the 2nd row of the grid *)
  let jj := (ny p - 2)%Z in
  for_range 0 (nx p) (accelerate_cell p w1 w2 jj obstacles) cells.

(** ** [timestep] (lines 204-300): returns the average velocity, the
    grid [cells] as [accelerate_flow] left it, and the scratch grid. *)
Definition timestep (p : t_param) (cells tmp_cells : t_speed)
    (obstacles : list Z) : option (F * t_speed * t_speed) :=
  cells ← accelerate_flow p cells obstacles;
  '(av, tmp_cells) ← stream_collide p cells tmp_cells obstacles;
  Some (av, cells, tmp_cells).

(** ** [av_velocity] (lines 331-372) *)
Definition av_velocity_cell (p : t_param) (cells : t_speed)
    (obstacles : list Z) (jj ii : Z) (st : F * Z) : option (F * Z) :=
  let '(tot_u, tot_cells) := st in
  let i := (ii + jj * nx p)%Z in
  ob ← rd obstacles i;
  (* ignore occupied cells *)
  if decide (ob = 0) then
    let local_density := #0 in
    c0 ← load D0 cells i; let local_density := local_density + c0 in
    c1 ← load D1 cells i; let local_density := local_density + c1 in
    c2 ← load D2 cells i; let local_density := local_density + c2 in
    c3 ← load D3 cells i; let local_density := local_density + c3 in
    c4 ← load D4 cells i; let local_density := local_density + c4 in
    c5 ← load D5 cells i; let local_density := local_density + c5 in
    c6 ← load D6 cells i; let local_density := local_density + c6 in
    c7 ← load D7 cells i; let local_density := local_density + c7 in
    c8 ← load D8 cells i; let local_density := local_density + c8 in
    let u_x := (c1 + c5 + c8 - (c3 + c6 + c7)) / local_density in
    let u_y := (c2 + c5 + c6 - (c4 + c7 + c8)) / local_density in
    Some (tot_u + fsqrt ((u_x * u_x) + (u_y * u_y)), (tot_cells + 1)%Z)
  else Some (tot_u, tot_cells).

Definition av_velocity (p : t_param) (cells : t_speed) (obstacles : list Z)
  : option F :=
  '(tot_u, tot_cells) ←
      for_range 0 (ny p) (fun jj =>
        for_range 0 (nx p) (av_velocity_cell p cells obstacles jj)) (#0, 0%Z);
  Some (tot_u / #tot_cells).

(** ** [total_density] (lines 582-603) *)
Definition total_density_cell (p : t_param) (cells : t_speed) (jj ii : Z)
    (total : F) : option F :=
  let i := (ii + jj * nx p)%Z in
  c0 ← load D0 cells i; let total := total + c0 in
  c1 ← load D1 cells i; let total := total + c1 in
  c2 ← load D2 cells i; let total := total + c2 in
  c3 ← load D3 cells i; let total := total + c3 in
  c4 ← load D4 cells i; let total := total + c4 in
  c5 ← load D5 cells i; let total := total + c5 in
  c6 ← load D6 cells i; let total := total + c6 in
  c7 ← load D7 cells i; let total := total + c7 in
  c8 ← load D8 cells i; let total := total + c8 in
  Some total.

Definition total_density (p : t_param) (cells : t_speed) : option F :=
  for_range 0 (ny p) (fun jj =>
    for_range 0 (nx p) (total_density_cell p cells jj)) #0.

(** ** [initialise]: the density and obstacle fill (lines 490-511),
    run on the freshly allocated arrays. *)
Definition initialise_cell (p : t_param) (w0 w1 w2 : F) (jj ii : Z)
    (st : t_speed * list Z) : option (t_speed * list Z) :=
  let '(cells, obstacles) := st in
  let i := (ii + jj * nx p)%Z in
  (* centre *)
  cells ← store D0 cells i w0;
  cells ← store D1 cells i w1;
  cells ← store D2 cells i w1;
  cells ← store D3 cells i w1;
  cells ← store D4 cells i w1;
  cells ← store D5 cells i w2;
  cells ← store D6 cells i w2;
  cells ← store D7 cells i w2;
  cells ← store D8 cells i w2;
  obstacles ← wr obstacles i 0%Z;
  Some (cells, obstacles).

Definition initialise (p : t_param) (cells : t_speed) (obstacles : list Z)
  : option (t_speed * list Z) :=
  let w0 := density p * #4 / #9 in
  let w1 := density p / #9 in
  let w2 := density p / #36 in
  for_range 0 (ny p) (fun jj =>
    for_range 0 (nx p) (initialise_cell p w0 w1 w2 jj)) (cells, obstacles).

End Model.

Arguments t_param : clear implicits.
Arguments t_speed : clear implicits.
Arguments stencil : clear implicits.
Arguments pass_state F : clear implicits.
Arguments collision : simpl never.

(** ** The rest of the program: the obstacle list, the iteration loop, the
    Reynolds number and the final state *)

(** How a run of the program ends: with a value, in [die] with its message,
    or in an access outside an array.  The calls of [die] for a file that
    cannot be opened or a failed [malloc] are outside the model. *)
Inductive outcome (A : Type) : Type :=
  | Done (a : A)
  | Died (message : string)
  | Undefined.
Arguments Done {A} a.
Arguments Died {A} message.
Arguments Undefined {A}.

(** One call of [fscanf (fp, "%d %d %d\n", &xx, &yy, &blocked)] on the
    obstacle file: the value it returns and what the three variables hold
    after it.  The file is the list of these calls up to the end of file. *)
Record scan := { retval : Z; scan_xx : Z; scan_yy : Z; scan_blocked : Z }.

Definition EOF : Z := -1.

(** One line of [final_state.dat] (the seven values of the [fprintf] of
    line 658) and one of [av_vels.dat] (line 673), before formatting. *)
Record state_line (F : Type) := {
  line_ii : Z; line_jj : Z;
  line_u_x : F; line_u_y : F; line_u : F; line_pressure : F;
  line_obstacle : Z
}.
Arguments line_ii {F} _.
Arguments line_jj {F} _.
Arguments line_u_x {F} _.
Arguments line_u_y {F} _.
Arguments line_u {F} _.
Arguments line_pressure {F} _.
Arguments line_obstacle {F} _.

Section Driver.
Context {F : Type} `{FloatOps F}.
Local Open Scope flt_scope.

(** [initialise]: the loop that reads the blocked cells (lines 522-540),
    on the array the fill loop left. *)
Fixpoint load_obstacles (p : t_param F) (file : list scan) (obstacles : list Z)
  : outcome (list Z) :=
  match file with
  | [] => Done obstacles
  | l :: file' =>
      if decide (retval l = EOF) then Done obstacles else
      (* some checks *)
      if decide (retval l ≠ 3%Z) then
        Died "expected 3 values per line in obstacle file"
      else if decide (scan_xx l < 0 \/ scan_xx l > nx p - 1)%Z then
        Died "obstacle x-coord out of range"
      else if decide (scan_yy l < 0 \/ scan_yy l > ny p - 1)%Z then
        Died "obstacle y-coord out of range"
      else if decide (scan_blocked l ≠ 1%Z) then
        Died "obstacle blocked value should be 1"
      else
        (* assign to array *)
        match wr obstacles (scan_xx l + scan_yy l * nx p) (scan_blocked l) with
        | Some obstacles' => load_obstacles p file' obstacles'
        | None => Undefined
        end
  end.

(** [main]: one turn of the loop of lines 163-177: the timestep, its
    average velocity stored in [av_vels[tt]], and the exchange of the two
    grids. *)
Definition main_iteration (p : t_param F) (obstacles : list Z) (tt : Z)
    (st : t_speed F * t_speed F * list F)
  : option (t_speed F * t_speed F * list F) :=
  let '(cells, tmp_cells, av_vels) := st in
  '(av, cells, tmp_cells) ← timestep p cells tmp_cells obstacles;
  av_vels ← wr av_vels tt av;
  Some (tmp_cells, cells, av_vels).

Definition main_loop (p : t_param F) (cells tmp_cells : t_speed F)
    (obstacles : list Z) (av_vels : list F)
  : option (t_speed F * t_speed F * list F) :=
  for_range 0 (maxIters p) (main_iteration p obstacles) (cells, tmp_cells, av_vels).

(** [calc_reynolds] (lines 575-580) *)
Definition calc_reynolds (p : t_param F) (cells : t_speed F) (obstacles : list Z)
  : option F :=
  let viscosity := #1 / #6 * (#2 / omega p - #1) in
  av ← av_velocity p cells obstacles;
  Some (av * #(reynolds_dim p) / viscosity).

(** [write_values] (lines 605-679): the lines of the two files. *)
Definition write_values_cell (p : t_param F) (cells : t_speed F)
    (obstacles : list Z) (jj ii : Z) (out : list (state_line F))
  : option (list (state_line F)) :=
  let c_sq := #1 / #3 in
  let i := (ii + jj * nx p)%Z in
  ob ← rd obstacles i;
  '(u_x, u_y, u, pressure) ←
    (if decide (ob ≠ 0%Z) then
       (* an occupied cell *)
       Some (#0, #0, #0, density p * c_sq)
     else
       (* no obstacle *)
       let local_density := #0 in
       c0 ← load D0 cells i; let local_density := local_density + c0 in
       c1 ← load D1 cells i; let local_density := local_density + c1 in
       c2 ← load D2 cells i; let local_density := local_density + c2 in
       c3 ← load D3 cells i; let local_density := local_density + c3 in
       c4 ← load D4 cells i; let local_density := local_density + c4 in
       c5 ← load D5 cells i; let local_density := local_density + c5 in
       c6 ← load D6 cells i; let local_density := local_density + c6 in
       c7 ← load D7 cells i; let local_density := local_density + c7 in
       c8 ← load D8 cells i; let local_density := local_density + c8 in
       let u_x := (c1 + c5 + c8 - (c3 + c6 + c7)) / local_density in
       let u_y := (c2 + c5 + c6 - (c4 + c7 + c8)) / local_density in
       let u := fsqrt ((u_x * u_x) + (u_y * u_y)) in
       Some (u_x, u_y, u, local_density * c_sq));
  (* write to file *)
  flag ← rd obstacles (ii + nx p * jj);
  Some (out ++ [{| line_ii := ii; line_jj := jj; line_u_x := u_x;
                   line_u_y := u_y; line_u := u; line_pressure := pressure;
                   line_obstacle := flag |}]).

Definition write_av_vel (av_vels : list F) (ii : Z) (out : list (Z * F))
  : option (list (Z * F)) :=
  av ← rd av_vels ii; Some (out ++ [(ii, av)]).

Definition write_values (p : t_param F) (cells : t_speed F)
    (obstacles : list Z) (av_vels : list F)
  : option (list (state_line F) * list (Z * F)) :=
  final_state ←
    for_range 0 (ny p) (fun jj =>
      for_range 0 (nx p) (write_values_cell p cells obstacles jj)) [];
  av_vels_lines ← for_range 0 (maxIters p) (write_av_vel av_vels) [];
  Some (final_state, av_vels_lines).

(** [main] (lines 129-202) from the point where the parameters have been
    read and the four arrays allocated: the fill loop and the obstacle list
    of [initialise], the iterations, the Reynolds number it prints and the
    two files it writes.  The arguments [cells], [tmp_cells], [obstacles]
    and [av_vels] are the arrays as [malloc] returned them. *)
Definition main (p : t_param F) (file : list scan) (cells tmp_cells : t_speed F)
    (obstacles : list Z) (av_vels : list F)
  : outcome (F * list (state_line F) * list (Z * F)) :=
  match initialise p cells obstacles with
  | None => Undefined
  | Some (cells, obstacles) =>
  match load_obstacles p file obstacles with
  | Died message => Died message
  | Undefined => Undefined
  | Done obstacles =>
  match main_loop p cells tmp_cells obstacles av_vels with
  | None => Undefined
  | Some (cells, tmp_cells, av_vels) =>
  match calc_reynolds p cells obstacles with
  | None => Undefined
  | Some reynolds =>
  match write_values p cells obstacles av_vels with
  | None => Undefined
  | Some (final_state, av_vels_lines) =>
      Done (reynolds, final_state, av_vels_lines)
  end end end end end.

End Driver.

(** ** Two arithmetics *)

(** IEEE 754 binary32, the C [float]: 24 bits of precision, exponents up to
    128, round to nearest even.  [x > y] is false when either side is NaN. *)
Module B32.
Definition prec : Z := 24.
Definition emax : Z := 128.
Definition t : Type := spec_float.
Definition of_Z (z : Z) : t := binary_normalize prec emax z 0 false.
Definition is_nan (x : t) : bool :=
  match x with S754_nan => true | _ => false end.

#[global] Instance ops : FloatOps t := {|
  of_int := of_Z;
  fadd := SFadd prec emax;
  fsub := SFsub prec emax;
  fmul := SFmul prec emax;
  fdiv := SFdiv prec emax;
  fneg := SFopp;
  fsqrt := SFsqrt prec emax;
  fgt := fun x y => SFltb y x
|}.
End B32.

(** Exact arithmetic over the reals.  [Rdiv] is total ([x / 0] is [0] by
    convention), whereas the program's division by zero is not a number: no
    theorem below is stated over [R] unless every divisor the program meets
    is assumed or shown to be nonzero. *)
Module Exact.
#[global] Instance ops : FloatOps R := {|
  of_int := IZR;
  fadd := Rplus;
  fsub := Rminus;
  fmul := Rmult;
  fdiv := Rdiv;
  fneg := Ropp;
  fsqrt := sqrt;
  fgt := fun x y => if Rgt_dec x y then true else false
|}.
End Exact.

(** * The vocabulary of the statements *)

(** The cells of an [nx] by [ny] grid in the order of the loop nests: [jj]
    outer, [ii] inner. *)
Definition row_cells (nx jj : Z) : list (Z * Z) := (fun ii => (jj, ii)) <$> seqZ 0 nx.
Definition grid_cells (nx ny : Z) : list (Z * Z) := seqZ 0 ny ≫= row_cells nx.

(** ** The grid: indices, well-formed arrays, stencils *)

Section GridVocabulary.
Context {F : Type} `{FloatOps F}.
Implicit Types (p : t_param F) (c cells tmp : t_speed F) (d : dir).
Implicit Types (obstacles : list Z) (s : stencil F) (i j ii jj : Z).

(** Row-major index of cell [(ii, jj)]. *)
Definition idx p ii jj : Z := ii + jj * nx p.

Definition in_grid p ii jj : Prop := 0 <= ii < nx p /\ 0 <= jj < ny p.

(** Every array of the grid holds [nx * ny] values, as allocated by
    [initialise]. *)
Definition wf_speed p c : Prop :=
  forall d, Z.of_nat (length (speeds d c)) = nx p * ny p.

Definition wf_obstacles p obstacles : Prop :=
  Z.of_nat (length obstacles) = nx p * ny p.

(** The value an in-range read returns. *)
Definition peek d c i : F := default (of_int 0) (load d c i).

(** The cell's flag is [0]: a fluid cell. *)
Definition fluid obstacles i : Prop := rd obstacles i = Some 0.

Global Instance fluid_dec obstacles i : Decision (fluid obstacles i).
Proof. unfold fluid. apply _. Defined.

(** The cell's flag is nonzero: an obstacle. *)
Definition obstacle obstacles i : Prop :=
  exists ob, rd obstacles i = Some ob /\ ob <> 0%Z.

(** *** Pure counterparts of [store] *)

Definition put d c i (v : F) : t_speed F :=
  set_speeds d (<[Z.to_nat i := v]> (speeds d c)) c.

(** *** The stencil of a cell *)

(** What [propagate] reads for cell [(ii, jj)] of a well-formed grid. *)
Definition pull p cells ii jj : stencil F :=
  {| s0 := peek D0 cells (idx p ii jj);
     s1 := peek D1 cells (idx p (x_west p ii) jj);
     s2 := peek D2 cells (idx p ii (y_south p jj));
     s3 := peek D3 cells (idx p (x_east p ii) jj);
     s4 := peek D4 cells (idx p ii (y_north p jj));
     s5 := peek D5 cells (idx p (x_west p ii) (y_south p jj));
     s6 := peek D6 cells (idx p (x_east p ii) (y_south p jj));
     s7 := peek D7 cells (idx p (x_east p ii) (y_north p jj));
     s8 := peek D8 cells (idx p (x_west p ii) (y_north p jj)) |}.

(** What the rebound branch assigns to direction [d]: nothing for the rest
    direction. *)
Definition mirror s d : option F :=
  match d with
  | D0 => None
  | D1 => Some (s3 s) | D2 => Some (s4 s) | D3 => Some (s1 s) | D4 => Some (s2 s)
  | D5 => Some (s7 s) | D6 => Some (s8 s) | D7 => Some (s5 s) | D8 => Some (s6 s)
  end.

(** What the pass assigns to direction [d] of cell [(ii, jj)]. *)
Definition cell_out p cells obstacles ii jj d : option F :=
  if decide (fluid obstacles (idx p ii jj))
  then Some (sget d (collision p (pull p cells ii jj)).1)
  else mirror (pull p cells ii jj) d.

(** The nine values of the cell at index [i]. *)
Definition cell_at c i : stencil F :=
  {| s0 := peek D0 c i; s1 := peek D1 c i; s2 := peek D2 c i;
     s3 := peek D3 c i; s4 := peek D4 c i; s5 := peek D5 c i;
     s6 := peek D6 c i; s7 := peek D7 c i; s8 := peek D8 c i |}.

End GridVocabulary.

Arguments put : simpl never.
Arguments peek : simpl never.
Arguments pull : simpl never.
Arguments idx : simpl never.
Arguments cell_at : simpl never.

(** ** The effect of the loops, cell by cell *)

Section PassVocabulary.
Context {F : Type} `{FloatOps F}.
Implicit Types (p : t_param F) (c cells tmp : t_speed F) (d : dir).
Implicit Types (obstacles : list Z) (s : stencil F) (i j ii jj : Z).
Local Open Scope flt_scope.

(** The effect of one cell on [tot_u] and [tot_cells]. *)
Definition acc_step p cells obstacles (uc : F * Z) (c : Z * Z) : F * Z :=
  if decide (fluid obstacles (idx p c.2 c.1))
  then (uc.1 + (collision p (pull p cells c.2 c.1)).2, (uc.2 + 1)%Z)
  else uc.

Definition pass_acc p cells obstacles : F * Z :=
  foldl (acc_step p cells obstacles) (#0, 0%Z) (grid_cells (nx p) (ny p)).

(** The test of line 315 on the cell at index [i]. *)
Definition accel_guard (w1 w2 : F) cells obstacles i : bool :=
  bool_decide (fluid obstacles i)
  && fgt (peek D3 cells i - w1) #0
  && fgt (peek D6 cells i - w2) #0
  && fgt (peek D7 cells i - w2) #0.

(** The assignments of lines 318-324, per direction. *)
Definition accel_delta (w1 w2 : F) d (v : F) : F :=
  match d with
  | D1 => v + w1 | D5 => v + w2 | D8 => v + w2
  | D3 => v - w1 | D6 => v - w2 | D7 => v - w2
  | D0 | D2 | D4 => v
  end.

Definition accel_w1 p : F := density p * accel p / #9.
Definition accel_w2 p : F := density p * accel p / #36.

(** [total] after the nine additions of lines 590-598. *)
Definition add_cell (total : F) s : F :=
  total + s0 s + s1 s + s2 s + s3 s + s4 s + s5 s + s6 s + s7 s + s8 s.

(** The norm of the velocity of a cell, as [av_velocity] computes it. *)
Definition snapshot_speed s : F :=
  let local_density := add_cell #0 s in
  let u_x := (s1 s + s5 s + s8 s - (s3 s + s6 s + s7 s)) / local_density in
  let u_y := (s2 s + s5 s + s6 s - (s4 s + s7 s + s8 s)) / local_density in
  fsqrt ((u_x * u_x) + (u_y * u_y)).

Definition av_step p c obstacles (uc : F * Z) (x : Z * Z) : F * Z :=
  if decide (fluid obstacles (idx p x.2 x.1))
  then (uc.1 + snapshot_speed (cell_at c (idx p x.2 x.1)), (uc.2 + 1)%Z)
  else uc.

(** The values [initialise] stores, per direction. *)
Definition init_value p d : F :=
  match d with
  | D0 => density p * #4 / #9
  | D1 | D2 | D3 | D4 => density p / #9
  | D5 | D6 | D7 | D8 => density p / #36
  end.

End PassVocabulary.

(** ** Exact arithmetic: sums, densities and the formulas of the
    specification *)

Definition Rsum (l : list R) : R := foldr Rplus 0%R l.

Section ExactVocabulary.
Local Open Scope R_scope.
Implicit Types (p : t_param R) (c cells tmp : t_speed R) (s : stencil R) (d : dir).
Implicit Types (obstacles : list Z) (ii jj : Z).

(** Local density and momentum of nine values. *)
Definition rho s : R := s0 s + s1 s + s2 s + s3 s + s4 s + s5 s + s6 s + s7 s + s8 s.
Definition mom_x s : R := s1 s + s5 s + s8 s - (s3 s + s6 s + s7 s).
Definition mom_y s : R := s2 s + s5 s + s6 s - (s4 s + s7 s + s8 s).

(** The formulas of the specification, in its words: lattice velocities
    [e_i], weights [w_i], the source cell of each pulled value, and the
    equilibrium distribution (its coefficients 4.5 and 1.5 written [9 / 2]
    and [3 / 2]). *)
Definition e_x d : Z :=
  match d with
  | D0 | D2 | D4 => 0 | D1 | D5 | D8 => 1 | D3 | D6 | D7 => -1
  end.
Definition e_y d : Z :=
  match d with
  | D0 | D1 | D3 => 0 | D2 | D5 | D6 => 1 | D4 | D7 | D8 => -1
  end.
Definition weight d : R :=
  match d with
  | D0 => 4 / 9
  | D1 | D2 | D3 | D4 => 1 / 9
  | D5 | D6 | D7 | D8 => 1 / 36
  end.
Definition spec_pulled p cells (ii jj : Z) d : R :=
  peek d cells (idx p ((ii - e_x d) mod nx p) ((jj - e_y d) mod ny p)).
Definition spec_density p cells (ii jj : Z) : R :=
  let f := spec_pulled p cells ii jj in
  f D0 + f D1 + f D2 + f D3 + f D4 + f D5 + f D6 + f D7 + f D8.

(** The equilibrium of zero velocity at the reference density. *)
Definition eq_stencil p : stencil R :=
  {| s0 := init_value p D0; s1 := init_value p D1; s2 := init_value p D2;
     s3 := init_value p D3; s4 := init_value p D4; s5 := init_value p D5;
     s6 := init_value p D6; s7 := init_value p D7; s8 := init_value p D8 |}.

End ExactVocabulary.

(** ** Example grids over binary32 *)

Module Ex.
Import B32.

Definition f (z : Z) : B32.t := of_Z z.

(** A grid whose nine arrays all hold [l]. *)
Definition uniform (l : list B32.t) : t_speed B32.t :=
  {| speeds0 := l; speeds1 := l; speeds2 := l; speeds3 := l; speeds4 := l;
     speeds5 := l; speeds6 := l; speeds7 := l; speeds8 := l |}.

Definition params (w h : Z) (rho acc om : B32.t) : t_param B32.t :=
  {| nx := w; ny := h; maxIters := 1; reynolds_dim := 1;
     density := rho; accel := acc; omega := om |}.

(** 3 x 3, every direction of cell [k] holding the value [k]. *)
Definition p33 : t_param B32.t := params 3 3 (f 1) (f 0) (f 1).
Definition c33 : t_speed B32.t := uniform (f <$> seqZ 0 9).

(** 2 x 2, every cell an obstacle. *)
Definition p22 : t_param B32.t := params 2 2 (f 1) (f 0) (f 1).
Definition c22 : t_speed B32.t := uniform (f <$> seqZ 1 4).
Definition z22 : t_speed B32.t := uniform (replicate 4 (f 0)).
Definition walls22 : list Z := [1; 1; 1; 1].

(** 2 x 2, no obstacle, no acceleration.  Every cell has local density 1 and
    no negative value: cell [(0, 0)] holds an east-moving 1, the others a
    resting 1.  Nothing streams into cell [(0, 0)], whose pulled local
    density is therefore zero. *)
Definition free22 : list Z := [0; 0; 0; 0].
Definition void22 : t_speed B32.t :=
  {| speeds0 := [f 0; f 1; f 1; f 1];
     speeds1 := [f 1; f 0; f 0; f 0];
     speeds2 := replicate 4 (f 0); speeds3 := replicate 4 (f 0);
     speeds4 := replicate 4 (f 0); speeds5 := replicate 4 (f 0);
     speeds6 := replicate 4 (f 0); speeds7 := replicate 4 (f 0);
     speeds8 := replicate 4 (f 0) |}.

(** The same grid with two negative values: cells [(1, 0)] and [(0, 1)]
    still have local density 1, but cell [(0, 0)] now pulls 1 and -1 along
    each axis: a zero local density with a nonzero momentum. *)
Definition shear22 : t_speed B32.t :=
  {| speeds0 := [f 0; f 1; f 1; f 1];
     speeds1 := [f 0; f 1; f 0; f 0];
     speeds2 := [f 0; f 0; f 1; f 0];
     speeds3 := [f 0; f (-1); f 0; f 0];
     speeds4 := [f 0; f 0; f (-1); f 0];
     speeds5 := replicate 4 (f 0); speeds6 := replicate 4 (f 0);
     speeds7 := replicate 4 (f 0); speeds8 := replicate 4 (f 0) |}.

(** 1 x 1, the single cell an obstacle. *)
Definition p11 : t_param B32.t := params 1 1 (f 1) (f 0) (f 1).
Definition c11 : t_speed B32.t := uniform [f 1].
Definition z11 : t_speed B32.t := uniform [f 0].
End Ex.

(** ** Example grids over the reals *)

Module ExR.
Local Open Scope R_scope.

Definition uniform (l : list R) : t_speed R :=
  {| speeds0 := l; speeds1 := l; speeds2 := l; speeds3 := l; speeds4 := l;
     speeds5 := l; speeds6 := l; speeds7 := l; speeds8 := l |}.

(** One column, two rows, no obstacle, every value 1, no acceleration. *)
Definition p12 : t_param R :=
  {| nx := 1; ny := 2; maxIters := 1; reynolds_dim := 1;
     density := 1; accel := 0; omega := 1 |}.
Definition ones12 : t_speed R := uniform [1; 1].
Definition free12 : list Z := [0%Z; 0%Z].
End ExR.

(** ** The program as a whole *)

Section DriverVocabulary.
Context {F : Type} `{FloatOps F}.
Implicit Types (p : t_param F) (c cells tmp : t_speed F) (d : dir).
Implicit Types (obstacles : list Z) (s : stencil F) (i j ii jj : Z).
Local Open Scope flt_scope.

(** Two grids that hold the same values everywhere but, possibly, in the
    rest direction of the obstacle cells. *)
Definition same_flow p obstacles c c' : Prop :=
  forall d ii jj, in_grid p ii jj ->
    d <> D0 \/ fluid obstacles (idx p ii jj) ->
    load d c (idx p ii jj) = load d c' (idx p ii jj).

(** The lines of the obstacle file that the loop reads: those before the
    first call of [fscanf] that returns [EOF]. *)
Fixpoint read_lines (file : list scan) : list scan :=
  match file with
  | [] => []
  | l :: file' => if decide (retval l = EOF) then [] else l :: read_lines file'
  end.

(** A line that passes the four checks. *)
Definition good_line p (l : scan) : Prop :=
  retval l = 3%Z /\ in_grid p (scan_xx l) (scan_yy l) /\ scan_blocked l = 1%Z.

Global Instance good_line_dec p l : Decision (good_line p l).
Proof. unfold good_line, in_grid. apply _. Defined.

(** Cell [(ii, jj)] is named by a line. *)
Definition names_cell ii jj (l : scan) : Prop := scan_xx l = ii /\ scan_yy l = jj.

Global Instance names_cell_dec ii jj l : Decision (names_cell ii jj l).
Proof. unfold names_cell. apply _. Defined.

(** The line [write_values] writes for the cell [x = (jj, ii)] of a
    well-formed grid. *)
Definition line_of p cells obstacles (x : Z * Z) : state_line F :=
  let i := idx p x.2 x.1 in
  let flag := default 0%Z (rd obstacles i) in
  let s := cell_at cells i in
  let local_density := add_cell #0 s in
  let u_x := (s1 s + s5 s + s8 s - (s3 s + s6 s + s7 s)) / local_density in
  let u_y := (s2 s + s5 s + s6 s - (s4 s + s7 s + s8 s)) / local_density in
  if decide (flag ≠ 0%Z)
  then {| line_ii := x.2; line_jj := x.1; line_u_x := #0; line_u_y := #0;
          line_u := #0; line_pressure := density p * (#1 / #3);
          line_obstacle := flag |}
  else {| line_ii := x.2; line_jj := x.1; line_u_x := u_x; line_u_y := u_y;
          line_u := fsqrt ((u_x * u_x) + (u_y * u_y));
          line_pressure := local_density * (#1 / #3);
          line_obstacle := flag |}.

(** Summing the speed column of [final_state.dat] over the lines of the
    fluid cells, and counting them. *)
Definition mean_step (uc : F * Z) (l : state_line F) : F * Z :=
  if decide (line_obstacle l = 0%Z) then (uc.1 + line_u l, (uc.2 + 1)%Z) else uc.

End DriverVocabulary.

(** A binary32 value that is a number: neither an infinity nor a NaN. *)
Definition is_finite32 (x : B32.t) : bool :=
  match x with
  | S754_zero _ | S754_finite _ _ _ => true
  | S754_infinity _ | S754_nan => false
  end.

(** The local density of nine pulled values, as the collision computes it
    (line 260). *)
Definition pulled_density {F : Type} `{FloatOps F} (s : stencil F) : F :=
  (s0 s + s1 s + s2 s + s3 s + s4 s + s5 s + s6 s + s7 s + s8 s)%flt.

(** ** Example runs *)

Module ExRun.

(** One column, two rows, both cells obstacles. *)
Definition walls12 : list Z := [1; 1].

(** An obstacle file of one line, naming cell [(1, 0)]. *)
Definition file22 : list scan :=
  [{| retval := 3; scan_xx := 1; scan_yy := 0; scan_blocked := 1 |}].

(** The parameters of the 2 x 2 examples with [omega = 2]. *)
Definition p22w : t_param B32.t := Ex.params 2 2 (Ex.f 1) (Ex.f 0) (Ex.f 2).

(** Two allocations of [av_vels] for one iteration. *)
Definition avs1 : list B32.t := [Ex.f 0].
Definition avs1' : list B32.t := [Ex.f 7].

End ExRun.

(** ** Example grids over binary32 on which rounding shows *)

Module ExRound.
Import B32.

(** [2^-10], a binary32 number. *)
Definition tiny : B32.t := SFdiv prec emax (Ex.f 1) (Ex.f 1024).

(** 2 x 2, no obstacle.  Every cell holds [1 + 2^-10] moving east and [-1]
    moving west, both binary32 numbers: every cell has, and pulls, the
    local density [2^-10], with a momentum two thousand times as large. *)
Definition near22 : t_speed B32.t :=
  {| speeds0 := replicate 4 (Ex.f 0);
     speeds1 := replicate 4 (SFadd prec emax (Ex.f 1) tiny);
     speeds2 := replicate 4 (Ex.f 0);
     speeds3 := replicate 4 (Ex.f (-1));
     speeds4 := replicate 4 (Ex.f 0); speeds5 := replicate 4 (Ex.f 0);
     speeds6 := replicate 4 (Ex.f 0); speeds7 := replicate 4 (Ex.f 0);
     speeds8 := replicate 4 (Ex.f 0) |}.

(** The parameters of the 2 x 2 examples with [density = 3]. *)
Definition p22d3 : t_param B32.t := Ex.params 2 2 (Ex.f 3) (Ex.f 0) (Ex.f 1).

End ExRound.

(** * Lemmas *)

(** ** Arrays and loops: basic facts *)

(** Reduce the binds of the option monad and nothing else. *)
Ltac osimpl := cbn [mbind option_bind fst snd].

Section Arrays.
Context {A : Type}.
Implicit Types (l : list A) (i j : Z) (v : A).

Lemma rd_is_Some l i : 0 <= i < Z.of_nat (length l) -> is_Some (rd l i).
Proof.
  intros Hi. unfold rd. rewrite decide_True by lia.
  apply lookup_lt_is_Some. lia.
Qed.

Lemma wr_in_range l i v :
  0 <= i < Z.of_nat (length l) -> wr l i v = Some (<[Z.to_nat i := v]> l).
Proof. intros Hi. unfold wr. by rewrite decide_True. Qed.

Lemma rd_insert l i j v :
  0 <= i < Z.of_nat (length l) ->
  rd (<[Z.to_nat i := v]> l) j = if decide (j = i) then Some v else rd l j.
Proof.
  intros Hi. unfold rd. case_decide as Hj.
  - case_decide as Hji.
    + subst j. apply list_lookup_insert_eq. lia.
    + apply list_lookup_insert_ne. lia.
  - by rewrite decide_False by lia.
Qed.

Lemma rd_ext l l' :
  length l = length l' ->
  (forall i, 0 <= i < Z.of_nat (length l) -> rd l i = rd l' i) -> l = l'.
Proof.
  intros Hlen Hrd. apply list_eq. intros n.
  destruct (decide (n < length l)%nat) as [Hn|Hn].
  - specialize (Hrd (Z.of_nat n)). unfold rd in Hrd.
    rewrite !decide_True, Nat2Z.id in Hrd by lia. apply Hrd. lia.
  - rewrite !lookup_ge_None_2; [done | lia | lia].
Qed.
End Arrays.

Section Loops.
Context {S : Type}.

(** Hoare-style rule: an invariant indexed by the indices already done. *)
Lemma for_each_ind (body : Z -> S -> option S) (I : list Z -> S -> Prop) l s :
  I [] s ->
  (forall pre i post s,
      l = pre ++ i :: post -> I pre s ->
      exists s', body i s = Some s' /\ I (pre ++ [i]) s') ->
  exists s', for_each body l s = Some s' /\ I l s'.
Proof.
  intros H0 Hstep.
  assert (Hgen : forall l2 l1 s, l = l1 ++ l2 -> I l1 s ->
            exists s', for_each body l2 s = Some s' /\ I l s').
  { induction l2 as [|i l2 IH]; intros l1 s1 Hl HI; simpl.
    - exists s1. rewrite app_nil_r in Hl. by subst.
    - destruct (Hstep l1 i l2 s1 Hl HI) as (s' & Hb & HI').
      rewrite Hb; simpl. apply (IH (l1 ++ [i])); [|done].
      by rewrite <- app_assoc. }
  by apply (Hgen l []).
Qed.
End Loops.

Lemma elem_of_row_cells nx jj c :
  c ∈ row_cells nx jj <-> c.1 = jj /\ 0 <= c.2 < nx.
Proof.
  unfold row_cells. rewrite list_elem_of_fmap. setoid_rewrite elem_of_seqZ.
  destruct c as [a b]; simpl. split.
  - intros (ii & [= -> ->] & ?). lia.
  - intros [-> ?]. exists b. split; [done | lia].
Qed.

Lemma elem_of_grid_cells nx ny c :
  c ∈ grid_cells nx ny <-> 0 <= c.1 < ny /\ 0 <= c.2 < nx.
Proof.
  unfold grid_cells. rewrite list_elem_of_bind.
  setoid_rewrite elem_of_row_cells. setoid_rewrite elem_of_seqZ.
  split.
  - intros (jj & [-> ?] & ?). lia.
  - intros [? ?]. exists c.1. split; [done | lia].
Qed.

Lemma grid_cells_snoc_row nx rows jj :
  (rows ++ [jj]) ≫= row_cells nx = (rows ≫= row_cells nx) ++ row_cells nx jj.
Proof. rewrite bind_app. simpl. by rewrite app_nil_r. Qed.

Section GridLoop.
Context {S : Type}.

(** The rule for a loop nest over the whole grid: the invariant is indexed
    by the cells already visited, and the cell being visited is in the grid
    and has not been visited before. *)
Lemma grid_loop_ind (body : Z -> Z -> S -> option S)
    (I : list (Z * Z) -> S -> Prop) (nx ny : Z) (s : S) :
  I [] s ->
  (forall visited jj ii s,
      0 <= jj < ny -> 0 <= ii < nx -> (jj, ii) ∉ visited ->
      I visited s ->
      exists s', body jj ii s = Some s' /\ I (visited ++ [(jj, ii)]) s') ->
  exists s',
    for_range 0 ny (fun jj => for_range 0 nx (body jj)) s = Some s'
    /\ I (grid_cells nx ny) s'.
Proof.
  intros H0 Hstep. unfold for_range, grid_cells. rewrite !Z.sub_0_r.
  apply (for_each_ind _ (fun rows s => I (rows ≫= row_cells nx) s)); [done|].
  intros rows jj post s1 Hrows HI.
  assert (Hjj : 0 <= jj < ny).
  { apply (elem_of_seqZ 0). rewrite Hrows, elem_of_app, elem_of_cons. auto. }
  assert (Hfresh : jj ∉ rows).
  { pose proof (NoDup_seqZ 0 ny) as Hnd. rewrite Hrows in Hnd.
    apply NoDup_app in Hnd as (_ & Hnd & _).
    intros Hin. apply (Hnd jj Hin). apply list_elem_of_here. }
  rewrite grid_cells_snoc_row.
  apply (for_each_ind _
           (fun cols s => I ((rows ≫= row_cells nx) ++ ((fun ii => (jj, ii)) <$> cols)) s)).
  { simpl. by rewrite app_nil_r. }
  intros cols ii post' s2 Hcols HI2.
  assert (Hii : 0 <= ii < nx).
  { apply (elem_of_seqZ 0). rewrite Hcols, elem_of_app, elem_of_cons. auto. }
  assert (Hfresh' : ii ∉ cols).
  { pose proof (NoDup_seqZ 0 nx) as Hnd. rewrite Hcols in Hnd.
    apply NoDup_app in Hnd as (_ & Hnd & _).
    intros Hin. apply (Hnd ii Hin). apply list_elem_of_here. }
  rewrite fmap_app, app_assoc. simpl.
  apply Hstep; [done | done | | done].
  rewrite elem_of_app, list_elem_of_bind, list_elem_of_fmap.
  intros [(jj' & Hc & Hin) | (ii' & [= ->] & Hin)]; [|done].
  apply elem_of_row_cells in Hc as [Hc _]. simpl in Hc. by subst.
Qed.
End GridLoop.

(** ** The grid *)

Section Grid.
Context {F : Type} `{FloatOps F}.
Implicit Types (p : t_param F) (c cells tmp : t_speed F) (d : dir).
Implicit Types (obstacles : list Z) (s : stencil F) (i j ii jj : Z).

Lemma idx_range p ii jj : in_grid p ii jj -> 0 <= idx p ii jj < nx p * ny p.
Proof. unfold in_grid, idx. nia. Qed.

Lemma idx_inj p ii jj ii' jj' :
  in_grid p ii jj -> in_grid p ii' jj' ->
  idx p ii jj = idx p ii' jj' -> ii = ii' /\ jj = jj'.
Proof. unfold in_grid, idx. intros ? ? ?. assert (jj = jj') by nia. subst. lia. Qed.

Lemma x_west_range p ii : 0 <= ii < nx p -> 0 <= x_west p ii < nx p.
Proof. unfold x_west. case_decide; lia. Qed.

Lemma x_east_range p ii : 0 <= ii < nx p -> 0 <= x_east p ii < nx p.
Proof.
  intros Hi. unfold x_east. rewrite Z.rem_mod_nonneg by lia.
  apply Z.mod_pos_bound. lia.
Qed.

Lemma y_south_range p jj : 0 <= jj < ny p -> 0 <= y_south p jj < ny p.
Proof. unfold y_south. case_decide; lia. Qed.

Lemma y_north_range p jj : 0 <= jj < ny p -> 0 <= y_north p jj < ny p.
Proof.
  intros Hi. unfold y_north. rewrite Z.rem_mod_nonneg by lia.
  apply Z.mod_pos_bound. lia.
Qed.

Lemma load_peek p c d i :
  wf_speed p c -> 0 <= i < nx p * ny p -> load d c i = Some (peek d c i).
Proof.
  intros Hwf Hi. unfold peek.
  destruct (rd_is_Some (speeds d c) i) as [v Hv]; [rewrite Hwf; lia|].
  unfold load. by rewrite Hv.
Qed.

Lemma rd_obstacles p obstacles i :
  wf_obstacles p obstacles -> 0 <= i < nx p * ny p ->
  exists ob, rd obstacles i = Some ob.
Proof. intros Hwf Hi. apply rd_is_Some. rewrite Hwf. lia. Qed.

Lemma speeds_set_speeds d d' (l : list F) c :
  speeds d' (set_speeds d l c) = if decide (d' = d) then l else speeds d' c.
Proof. by destruct d, d'. Qed.

Lemma store_put p c d i v :
  wf_speed p c -> 0 <= i < nx p * ny p -> store d c i v = Some (put d c i v).
Proof.
  intros Hwf Hi. unfold store, put.
  rewrite wr_in_range by (rewrite Hwf; lia). done.
Qed.

Lemma put_wf p c d i v : wf_speed p c -> wf_speed p (put d c i v).
Proof.
  intros Hwf d'. unfold put. rewrite speeds_set_speeds.
  case_decide; [subst; rewrite length_insert|]; apply Hwf.
Qed.

Lemma load_put p c d d' i j v :
  wf_speed p c -> 0 <= i < nx p * ny p ->
  load d' (put d c i v) j
  = if decide (d' = d /\ j = i) then Some v else load d' c j.
Proof.
  intros Hwf Hi. unfold load, put. rewrite speeds_set_speeds.
  destruct (decide (d' = d)) as [->|Hd].
  - rewrite rd_insert by (rewrite Hwf; lia).
    destruct (decide (j = i)); [by rewrite decide_True | by rewrite decide_False by tauto].
  - by rewrite decide_False by tauto.
Qed.

Lemma speed_ext p c c' :
  wf_speed p c -> wf_speed p c' ->
  (forall d i, 0 <= i < nx p * ny p -> load d c i = load d c' i) -> c = c'.
Proof.
  intros Hwf Hwf' Hl.
  assert (Hd : forall d, speeds d c = speeds d c').
  { intros d. apply rd_ext.
    - apply Nat2Z.inj. by rewrite Hwf, Hwf'.
    - intros i Hi. apply Hl. by rewrite <- (Hwf d). }
  destruct c, c'. simpl in *.
  pose proof (Hd D0); pose proof (Hd D1); pose proof (Hd D2);
    pose proof (Hd D3); pose proof (Hd D4); pose proof (Hd D5);
    pose proof (Hd D6); pose proof (Hd D7); pose proof (Hd D8).
  simpl in *. by subst.
Qed.

Lemma propagate_pull p cells ii jj :
  wf_speed p cells -> in_grid p ii jj ->
  propagate p cells jj (y_south p jj) (y_north p jj) ii
  = Some (pull p cells ii jj).
Proof.
  intros Hwf [Hii Hjj].
  pose proof (x_west_range p ii Hii). pose proof (x_east_range p ii Hii).
  pose proof (y_south_range p jj Hjj). pose proof (y_north_range p jj Hjj).
  unfold propagate, pull. cbv zeta.
  repeat (rewrite (load_peek p) by (done || (apply idx_range; split; done)); simpl).
  done.
Qed.
End Grid.

(** ** One pass of stream, rebound and collide *)

Section Pass.
Context {F : Type} `{FloatOps F}.
Implicit Types (p : t_param F) (c cells tmp : t_speed F) (d : dir).
Implicit Types (obstacles : list Z) (s : stencil F) (i j ii jj : Z).
Local Open Scope flt_scope.

(** Settle the tests [d = d' /\ i = i] left by a chain of [load_put]. *)
Ltac decide_dirs :=
  repeat match goal with
    | |- context [decide (?d = ?d' /\ ?i = ?i)] =>
        first [ rewrite (decide_True (P := d = d' /\ i = i)) by (split; reflexivity)
              | rewrite (decide_False (P := d = d' /\ i = i)) by (intros [? _]; discriminate) ]
    end; try reflexivity.

Lemma rebound_spec p tmp i s :
  wf_speed p tmp -> (0 <= i < nx p * ny p)%Z ->
  exists t, rebound tmp i s = Some t /\ wf_speed p t /\
    forall d j, load d t j
      = if decide (j = i) then from_option Some (load d tmp j) (mirror s d)
        else load d tmp j.
Proof.
  intros Hwf Hi. unfold rebound.
  repeat (rewrite (store_put p) by (repeat apply put_wf; assumption); simpl).
  eexists. split; [done|]. split; [by repeat apply put_wf|].
  intros d j.
  repeat (rewrite (load_put p) by (repeat apply put_wf; assumption)).
  destruct (decide (j = i)) as [->|Hj].
  - destruct d; cbn [mirror sget from_option]; decide_dirs.
  - repeat (rewrite decide_False by tauto). done.
Qed.

Lemma store_all_spec p tmp i s :
  wf_speed p tmp -> (0 <= i < nx p * ny p)%Z ->
  exists t, store_all tmp i s = Some t /\ wf_speed p t /\
    forall d j, load d t j
      = if decide (j = i) then Some (sget d s) else load d tmp j.
Proof.
  intros Hwf Hi. unfold store_all.
  repeat (rewrite (store_put p) by (repeat apply put_wf; assumption); simpl).
  eexists. split; [done|]. split; [by repeat apply put_wf|].
  intros d j.
  repeat (rewrite (load_put p) by (repeat apply put_wf; assumption)).
  destruct (decide (j = i)) as [->|Hj].
  - destruct d; cbn [mirror sget from_option]; decide_dirs.
  - repeat (rewrite decide_False by tauto). done.
Qed.

Lemma timestep_cell_spec p cells obstacles tmp u n ii jj :
  wf_speed p cells -> wf_speed p tmp -> wf_obstacles p obstacles ->
  in_grid p ii jj ->
  exists tmp',
    timestep_cell p cells obstacles jj (y_south p jj) (y_north p jj) ii (tmp, u, n)
    = Some (tmp', (acc_step p cells obstacles (u, n) (jj, ii)).1,
                  (acc_step p cells obstacles (u, n) (jj, ii)).2)
    /\ wf_speed p tmp'
    /\ forall d j, load d tmp' j
         = if decide (j = idx p ii jj)
           then from_option Some (load d tmp j) (cell_out p cells obstacles ii jj d)
           else load d tmp j.
Proof.
  intros Hc Ht Ho Hin. pose proof (idx_range p ii jj Hin) as Hi.
  destruct (rd_obstacles p obstacles _ Ho Hi) as [ob Hob].
  unfold timestep_cell. rewrite propagate_pull by done. osimpl.
  replace (jj * nx p + ii)%Z with (idx p ii jj) by (unfold idx; lia).
  change (ii + jj * nx p)%Z with (idx p ii jj).
  rewrite Hob. osimpl.
  unfold acc_step, cell_out. cbn [fst snd].
  destruct (decide (fluid obstacles (idx p ii jj))) as [Hf|Hf].
  - assert (ob = 0) as -> by (unfold fluid in Hf; congruence).
    rewrite decide_False by (intros ?; done). osimpl.
    rewrite decide_True by done.
    destruct (collision p (pull p cells ii jj)) as [s' sp].
    destruct (store_all_spec p tmp (idx p ii jj) s' Ht Hi) as (t & -> & Hwt & Hl).
    osimpl. exists t. split; [done|]. split; [done|].
    intros d j. rewrite Hl. done.
  - assert (ob <> 0) as Hne by (intros ->; by apply Hf).
    rewrite decide_True by done.
    destruct (rebound_spec p tmp (idx p ii jj) (pull p cells ii jj) Ht Hi)
      as (t & -> & Hwt & Hl).
    osimpl. rewrite decide_False by done.
    exists t. split; [done|]. split; [done|].
    intros d j. rewrite Hl. done.
Qed.

(** The whole pass on well-formed grids: it returns, and every cell of the
    scratch grid holds what [cell_out] assigns it, or its old value where
    nothing is assigned. *)
Lemma stream_collide_spec p cells tmp obstacles :
  wf_speed p cells -> wf_speed p tmp -> wf_obstacles p obstacles ->
  exists tmp',
    stream_collide p cells tmp obstacles
    = Some ((pass_acc p cells obstacles).1 / of_int (pass_acc p cells obstacles).2, tmp')
    /\ wf_speed p tmp'
    /\ forall d ii jj, in_grid p ii jj ->
         load d tmp' (idx p ii jj)
         = from_option Some (load d tmp (idx p ii jj))
             (cell_out p cells obstacles ii jj d).
Proof.
  intros Hc Ht Ho.
  pose (I := fun (visited : list (Z * Z)) (st : pass_state F) =>
    wf_speed p st.1.1
    /\ (forall d ii jj, in_grid p ii jj ->
          load d st.1.1 (idx p ii jj)
          = if decide ((jj, ii) ∈ visited)
            then from_option Some (load d tmp (idx p ii jj))
                   (cell_out p cells obstacles ii jj d)
            else load d tmp (idx p ii jj))
    /\ (st.1.2, st.2) = foldl (acc_step p cells obstacles) (#0, 0%Z) visited).
  destruct (grid_loop_ind
              (fun jj ii => timestep_cell p cells obstacles jj
                              (y_south p jj) (y_north p jj) ii)
              I (nx p) (ny p) (tmp, #0, 0%Z)) as (st & Hrun & HI).
  - split; [done|]. split; [|done]. intros d ii jj _.
    rewrite decide_False; [done | apply not_elem_of_nil].
  - intros visited jj ii [[t u] n] Hjj Hii Hfresh (Hwt & Hl & Hacc). simpl in *.
    destruct (timestep_cell_spec p cells obstacles t u n ii jj Hc Hwt Ho)
      as (t' & Hstep & Hwt' & Hl'); [done|].
    eexists. split; [exact Hstep|]. split; [done|]. simpl. split.
    + intros d ii' jj' Hin'. rewrite Hl', Hl by done.
      destruct (decide (idx p ii' jj' = idx p ii jj)) as [He|He].
      * apply idx_inj in He as [-> ->]; [|done|done].
        rewrite decide_False by done.
        rewrite decide_True by (apply elem_of_app; right; apply list_elem_of_here).
        done.
      * destruct (decide ((jj', ii') ∈ visited)) as [Hv|Hv].
        -- rewrite decide_True by (apply elem_of_app; by left). done.
        -- rewrite decide_False; [done|].
           rewrite elem_of_app, list_elem_of_singleton.
           intros [?|[= -> ->]]; done.
    + rewrite foldl_snoc, <- Hacc. by destruct (acc_step _ _ _ _ _).
  - destruct st as [[t u] n]. destruct HI as (Hwt & Hl & Hacc). simpl in *.
    exists t. unfold stream_collide.
    assert (Hrun' : for_range 0 (ny p) (timestep_row p cells obstacles)
                      (tmp, #0, 0%Z) = Some (t, u, n)) by exact Hrun.
    rewrite Hrun'. osimpl. unfold pass_acc. rewrite <- Hacc. osimpl.
    split; [done|]. split; [done|].
    intros d ii jj Hin. rewrite Hl by done.
    rewrite decide_True; [done|]. apply elem_of_grid_cells. simpl.
    destruct Hin. lia.
Qed.
End Pass.

(** ** [accelerate_flow] on well-formed grids *)

Section Accelerate.
Context {F : Type} `{FloatOps F}.
Implicit Types (p : t_param F) (c cells tmp : t_speed F) (d : dir).
Implicit Types (obstacles : list Z) (s : stencil F) (i j ii jj : Z).
Local Open Scope flt_scope.

Ltac decide_dirs :=
  repeat match goal with
    | |- context [decide (?d = ?d' /\ ?i = ?i)] =>
        first [ rewrite (decide_True (P := d = d' /\ i = i)) by (split; reflexivity)
              | rewrite (decide_False (P := d = d' /\ i = i)) by (intros [? _]; discriminate) ]
    end.

Lemma accelerate_cell_spec p (w1 w2 : F) cells obstacles ii jj :
  wf_speed p cells -> wf_obstacles p obstacles -> in_grid p ii jj ->
  exists c',
    accelerate_cell p w1 w2 jj obstacles ii cells = Some c'
    /\ wf_speed p c'
    /\ forall d j, load d c' j
         = if decide (j = idx p ii jj)
           then (if accel_guard w1 w2 cells obstacles j
                 then Some (accel_delta w1 w2 d (peek d cells j))
                 else load d cells j)
           else load d cells j.
Proof.
  intros Hc Ho Hin. pose proof (idx_range p ii jj Hin) as Hi.
  destruct (rd_obstacles p obstacles _ Ho Hi) as [ob Hob].
  unfold accelerate_cell. cbv zeta.
  change (ii + jj * nx p)%Z with (idx p ii jj). set (i := idx p ii jj) in *.
  rewrite Hob. osimpl.
  assert (Hskip : accel_guard w1 w2 cells obstacles i = false ->
    exists c', Some cells = Some c' /\ wf_speed p c' /\
      forall d j, load d c' j
        = if decide (j = i)
          then (if accel_guard w1 w2 cells obstacles j
                then Some (accel_delta w1 w2 d (peek d cells j))
                else load d cells j)
          else load d cells j).
  { intros Hg. exists cells. split; [done|]. split; [done|].
    intros d j. case_decide; [subst j; by rewrite Hg | done]. }
  unfold accel_guard in Hskip.
  destruct (decide (ob <> 0)) as [Hne|He].
  { apply Hskip. rewrite bool_decide_eq_false_2; [done|].
    unfold fluid. rewrite Hob. congruence. }
  assert (ob = 0) as -> by lia. clear He.
  rewrite bool_decide_eq_true_2 in Hskip by done. simpl in Hskip.
  rewrite (load_peek p cells D3 i) by assumption. osimpl.
  destruct (fgt (peek D3 cells i - w1) #0) eqn:H3; cbn [negb andb] in *; [|by apply Hskip].
  rewrite (load_peek p cells D6 i) by assumption. osimpl.
  destruct (fgt (peek D6 cells i - w2) #0) eqn:H6; cbn [negb andb] in *; [|by apply Hskip].
  rewrite (load_peek p cells D7 i) by assumption. osimpl.
  destruct (fgt (peek D7 cells i - w2) #0) eqn:H7; cbn [negb andb] in *; [|by apply Hskip].
  clear Hskip.
  repeat (first
    [ rewrite (store_put p) by (repeat apply put_wf; assumption)
    | rewrite !(load_put p) by (repeat apply put_wf; assumption);
      decide_dirs; rewrite (load_peek p) by assumption
    | rewrite (load_peek p) by assumption ];
    osimpl).
  eexists. split; [reflexivity|]. split; [by repeat apply put_wf|].
  intros d j.
  rewrite !(load_put p) by (repeat apply put_wf; assumption).
  destruct (decide (j = i)) as [->|Hj].
  - unfold accel_guard. rewrite bool_decide_eq_true_2 by done.
    rewrite H3, H6, H7. cbn [andb].
    destruct d; cbn [accel_delta]; decide_dirs;
      first [reflexivity | by apply (load_peek p)].
  - repeat (rewrite decide_False by tauto). done.
Qed.

(** [accelerate_flow] returns on grids of at least two rows, touches only
    row [ny - 2], and there only the cells that pass the test. *)
Lemma accelerate_flow_spec p cells obstacles :
  wf_speed p cells -> wf_obstacles p obstacles -> (2 <= ny p)%Z ->
  exists c',
    accelerate_flow p cells obstacles = Some c'
    /\ wf_speed p c'
    /\ forall d ii jj, in_grid p ii jj ->
         load d c' (idx p ii jj)
         = if decide (jj = (ny p - 2)%Z)
           then (if accel_guard (accel_w1 p) (accel_w2 p) cells obstacles (idx p ii jj)
                 then Some (accel_delta (accel_w1 p) (accel_w2 p) d
                              (peek d cells (idx p ii jj)))
                 else load d cells (idx p ii jj))
           else load d cells (idx p ii jj).
Proof.
  intros Hc Ho Hny. unfold accelerate_flow. cbv zeta.
  fold (accel_w1 p) (accel_w2 p). set (w1 := accel_w1 p). set (w2 := accel_w2 p).
  pose (I := fun (cols : list Z) (c' : t_speed F) =>
    wf_speed p c'
    /\ forall d ii jj, in_grid p ii jj ->
         load d c' (idx p ii jj)
         = if decide (jj = (ny p - 2)%Z /\ ii ∈ cols)
           then (if accel_guard w1 w2 cells obstacles (idx p ii jj)
                 then Some (accel_delta w1 w2 d (peek d cells (idx p ii jj)))
                 else load d cells (idx p ii jj))
           else load d cells (idx p ii jj)).
  unfold for_range. rewrite Z.sub_0_r.
  destruct (for_each_ind (accelerate_cell p w1 w2 (ny p - 2) obstacles) I
              (seqZ 0 (nx p)) cells) as (c' & Hrun & Hwf & Hl).
  - split; [done|]. intros d ii jj _. rewrite decide_False; [done|].
    intros [_ Hin]. by apply not_elem_of_nil in Hin.
  - intros pre ii post c1 Hseq (Hwf1 & Hl1).
    assert (Hii : (0 <= ii < nx p)%Z).
    { assert (Hmem : ii ∈ seqZ 0 (nx p))
        by (rewrite Hseq, elem_of_app, elem_of_cons; auto).
      apply elem_of_seqZ in Hmem. lia. }
    assert (Hfresh : ii ∉ pre).
    { pose proof (NoDup_seqZ 0 (nx p)) as Hnd. rewrite Hseq in Hnd.
      apply NoDup_app in Hnd as (_ & Hnd & _).
      intros Hin. apply (Hnd ii Hin). apply list_elem_of_here. }
    assert (Hin : in_grid p ii (ny p - 2)) by (unfold in_grid; lia).
    destruct (accelerate_cell_spec p w1 w2 c1 obstacles ii (ny p - 2) Hwf1 Ho Hin)
      as (c2 & Hstep & Hwf2 & Hl2).
    exists c2. split; [done|]. split; [done|].
    assert (Hsame : forall d, load d c1 (idx p ii (ny p - 2))
                              = load d cells (idx p ii (ny p - 2))).
    { intros d. rewrite Hl1 by done. rewrite decide_False; [done | tauto]. }
    assert (Hpeek : forall d, peek d c1 (idx p ii (ny p - 2))
                              = peek d cells (idx p ii (ny p - 2))).
    { intros d. unfold peek. by rewrite Hsame. }
    assert (Hg : accel_guard w1 w2 c1 obstacles (idx p ii (ny p - 2))
                 = accel_guard w1 w2 cells obstacles (idx p ii (ny p - 2))).
    { unfold accel_guard. by rewrite !Hpeek. }
    intros d ii' jj' Hin'. rewrite Hl2.
    destruct (decide (idx p ii' jj' = idx p ii (ny p - 2))) as [He|He].
    + rewrite He. apply idx_inj in He as [-> ->]; [|done|done].
      rewrite decide_True
        by (split; [done | apply elem_of_app; right; apply list_elem_of_here]).
      by rewrite Hg, Hpeek, Hsame.
    + rewrite Hl1 by done.
      destruct (decide (jj' = (ny p - 2)%Z /\ ii' ∈ pre)) as [[Hj Hp]|Hn].
      * rewrite decide_True; [done|]. split; [done|]. apply elem_of_app. by left.
      * rewrite decide_False; [done|].
        rewrite elem_of_app, list_elem_of_singleton.
        intros [Hj [Hp| ->]]; [tauto | by subst].
  - exists c'. split; [done|]. split; [done|].
    intros d ii jj Hin. rewrite Hl by done.
    destruct (decide (jj = (ny p - 2)%Z)) as [Hj|Hj].
    + rewrite decide_True; [done|]. split; [done|].
      apply elem_of_seqZ. destruct Hin. lia.
    + rewrite decide_False; [done | tauto].
Qed.
End Accelerate.

(** ** Obstacle and fluid cells *)

Section Obstacles.
Context {F : Type} `{FloatOps F}.
Implicit Types (p : t_param F) (c cells tmp : t_speed F) (d : dir).
Implicit Types (obstacles : list Z) (s : stencil F) (i j ii jj : Z).
Local Open Scope flt_scope.

Lemma obstacle_not_fluid obstacles i : obstacle obstacles i -> ~ fluid obstacles i.
Proof. intros (ob & Hob & Hne) Hf. unfold fluid in Hf. congruence. Qed.

Lemma cell_out_obstacle p cells obstacles ii jj d :
  ~ fluid obstacles (idx p ii jj) ->
  cell_out p cells obstacles ii jj d = mirror (pull p cells ii jj) d.
Proof. intros Hf. unfold cell_out. by rewrite decide_False. Qed.

Lemma cell_out_fluid p cells obstacles ii jj d :
  fluid obstacles (idx p ii jj) ->
  cell_out p cells obstacles ii jj d
  = Some (sget d (collision p (pull p cells ii jj)).1).
Proof. intros Hf. unfold cell_out. by rewrite decide_True. Qed.

Lemma foldl_acc_step_no_fluid p cells obstacles (l : list (Z * Z)) (uc : F * Z) :
  (forall x, x ∈ l -> ~ fluid obstacles (idx p x.2 x.1)) ->
  foldl (acc_step p cells obstacles) uc l = uc.
Proof.
  revert uc. induction l as [|x l IH]; intros uc Hl; simpl; [done|].
  rewrite IH by (intros x' Hx'; apply Hl; by right).
  unfold acc_step. rewrite decide_False; [done|]. apply Hl. by left.
Qed.

(** With no fluid cell, [tot_u] and [tot_cells] are still [0.0f] and [0]
    when the loops end. *)
Lemma pass_acc_no_fluid p cells obstacles :
  (forall ii jj, in_grid p ii jj -> obstacle obstacles (idx p ii jj)) ->
  pass_acc p cells obstacles = (#0, 0%Z).
Proof.
  intros Hall. unfold pass_acc. apply foldl_acc_step_no_fluid.
  intros [jj ii] Hin. apply elem_of_grid_cells in Hin. simpl in *.
  apply obstacle_not_fluid, Hall. unfold in_grid. lia.
Qed.
End Obstacles.

(** ** The neighbour indices, modulo the grid size *)

Section Periodic.
Context {F : Type} `{FloatOps F}.
Implicit Types (p : t_param F) (c cells tmp : t_speed F) (d : dir).
Implicit Types (obstacles : list Z) (s : stencil F) (i j ii jj : Z).

Lemma x_west_mod p ii : 0 <= ii < nx p -> x_west p ii = (ii - 1) mod nx p.
Proof.
  intros Hi. unfold x_west. case_decide as H0.
  - subst ii. apply (Z.mod_unique _ _ (-1)); lia.
  - symmetry. apply Z.mod_small. lia.
Qed.

Lemma x_east_mod p ii : 0 <= ii < nx p -> x_east p ii = (ii + 1) mod nx p.
Proof. intros Hi. unfold x_east. apply Z.rem_mod_nonneg; lia. Qed.

Lemma y_south_mod p jj : 0 <= jj < ny p -> y_south p jj = (jj - 1) mod ny p.
Proof.
  intros Hi. unfold y_south. case_decide as H0.
  - subst jj. apply (Z.mod_unique _ _ (-1)); lia.
  - symmetry. apply Z.mod_small. lia.
Qed.

Lemma y_north_mod p jj : 0 <= jj < ny p -> y_north p jj = (jj + 1) mod ny p.
Proof. intros Hi. unfold y_north. apply Z.rem_mod_nonneg; lia. Qed.

End Periodic.

(** ** The diagnostics and the initial grid on well-formed arrays *)

Section Diagnostics.
Context {F : Type} `{FloatOps F}.
Implicit Types (p : t_param F) (c cells tmp : t_speed F) (d : dir).
Implicit Types (obstacles : list Z) (s : stencil F) (i j ii jj : Z).
Local Open Scope flt_scope.

Lemma total_density_spec p c :
  wf_speed p c ->
  total_density p c
  = Some (foldl (fun t x => add_cell t (cell_at c (idx p x.2 x.1))) #0
            (grid_cells (nx p) (ny p))).
Proof.
  intros Hwf.
  destruct (grid_loop_ind (total_density_cell p c)
              (fun visited t =>
                 t = foldl (fun t x => add_cell t (cell_at c (idx p x.2 x.1))) #0 visited)
              (nx p) (ny p) #0) as (t & Hrun & ->); [done| |exact Hrun].
  intros visited jj ii t Hjj Hii _ ->.
  assert (Hi : (0 <= idx p ii jj < nx p * ny p)%Z) by (by apply idx_range).
  eexists. split.
  - unfold total_density_cell. cbv zeta. change (ii + jj * nx p)%Z with (idx p ii jj).
    repeat (rewrite (load_peek p) by assumption; osimpl). reflexivity.
  - by rewrite foldl_snoc.
Qed.

Lemma av_velocity_spec p c obstacles :
  wf_speed p c -> wf_obstacles p obstacles ->
  av_velocity p c obstacles
  = Some ((foldl (av_step p c obstacles) (#0, 0%Z) (grid_cells (nx p) (ny p))).1
          / of_int (foldl (av_step p c obstacles) (#0, 0%Z)
                      (grid_cells (nx p) (ny p))).2).
Proof.
  intros Hwf Ho. unfold av_velocity.
  destruct (grid_loop_ind (av_velocity_cell p c obstacles)
              (fun visited uc => uc = foldl (av_step p c obstacles) (#0, 0%Z) visited)
              (nx p) (ny p) (#0, 0%Z)) as (uc & Hrun & Huc); [done| |].
  - intros visited jj ii [u n] Hjj Hii _ Hacc.
    assert (Hi : (0 <= idx p ii jj < nx p * ny p)%Z) by (by apply idx_range).
    destruct (rd_obstacles p obstacles _ Ho Hi) as [ob Hob].
    rewrite foldl_snoc, <- Hacc. unfold av_step, av_velocity_cell. cbv zeta.
    cbn [fst snd]. change (ii + jj * nx p)%Z with (idx p ii jj).
    rewrite Hob. osimpl.
    destruct (decide (ob = 0%Z)) as [Hz|Hne].
    + subst ob. rewrite decide_True by done.
      repeat (rewrite (load_peek p) by assumption; osimpl).
      eexists. split; reflexivity.
    + rewrite decide_False by (unfold fluid; rewrite Hob; congruence).
      eexists. split; reflexivity.
  - rewrite Hrun. osimpl. rewrite <- Huc. by destruct uc.
Qed.

Lemma initialise_spec p cells obstacles :
  wf_speed p cells -> wf_obstacles p obstacles ->
  exists c o,
    initialise p cells obstacles = Some (c, o)
    /\ wf_speed p c /\ wf_obstacles p o
    /\ forall ii jj, in_grid p ii jj ->
         fluid o (idx p ii jj)
         /\ forall d, load d c (idx p ii jj) = Some (init_value p d).
Proof.
  intros Hwf Ho. unfold initialise. cbv zeta.
  pose (I := fun (visited : list (Z * Z)) (st : t_speed F * list Z) =>
    wf_speed p st.1 /\ wf_obstacles p st.2
    /\ forall ii jj, in_grid p ii jj -> (jj, ii) ∈ visited ->
         fluid st.2 (idx p ii jj)
         /\ forall d, load d st.1 (idx p ii jj) = Some (init_value p d)).
  destruct (grid_loop_ind
              (initialise_cell p (density p * #4 / #9) (density p / #9) (density p / #36))
              I (nx p) (ny p) (cells, obstacles)) as ([c o] & Hrun & Hc & Ho' & Hl).
  - split; [done|]. split; [done|]. intros ii jj _ Hin.
    by apply not_elem_of_nil in Hin.
  - intros visited jj ii [c o] Hjj Hii _ (Hc & Ho' & Hl). simpl in *.
    assert (Hi : (0 <= idx p ii jj < nx p * ny p)%Z) by (by apply idx_range).
    unfold initialise_cell. cbv zeta. change (ii + jj * nx p)%Z with (idx p ii jj).
    repeat (rewrite (store_put p) by (repeat apply put_wf; assumption); osimpl).
    rewrite wr_in_range by (rewrite Ho'; lia). osimpl.
    eexists. split; [reflexivity|]. split; [by repeat apply put_wf|]. simpl.
    split; [unfold wf_obstacles; by rewrite length_insert|].
    intros ii' jj' Hin' Hmem.
    assert (Hi' : (0 <= idx p ii' jj' < nx p * ny p)%Z) by (by apply idx_range).
    destruct (decide (idx p ii' jj' = idx p ii jj)) as [He|He].
    + rewrite He. split.
      * unfold fluid. rewrite rd_insert by (rewrite Ho'; lia).
        by rewrite decide_True.
      * intros d. rewrite !(load_put p) by (repeat apply put_wf; assumption).
        destruct d; cbn [init_value];
          repeat match goal with
            | |- context [decide (?a = ?b /\ ?i = ?i)] =>
                first [ rewrite (decide_True (P := a = b /\ i = i)) by (split; reflexivity)
                      | rewrite (decide_False (P := a = b /\ i = i)) by (intros [? _]; discriminate) ]
            end; reflexivity.
    + apply elem_of_app in Hmem as [Hmem|Hmem].
      * destruct (Hl ii' jj' Hin' Hmem) as [Hf Hd]. split.
        -- unfold fluid. rewrite rd_insert by (rewrite Ho'; lia).
           by rewrite decide_False.
        -- intros d. rewrite !(load_put p) by (repeat apply put_wf; assumption).
           repeat (rewrite decide_False by tauto). apply Hd.
      * apply list_elem_of_singleton in Hmem as [= -> ->]. done.
  - exists c, o. split; [exact Hrun|]. split; [done|]. split; [done|].
    intros ii jj Hin. apply Hl; [done|]. apply elem_of_grid_cells. simpl.
    destruct Hin. lia.
Qed.
End Diagnostics.

(** ** Exact arithmetic: sums over the grid *)

Section Sums.
Local Open Scope R_scope.
Context {A : Type}.
Implicit Types (l : list A) (f g : A -> R).

Lemma Rsum_nil : Rsum [] = 0.
Proof. reflexivity. Qed.

Lemma Rsum_cons (x : R) (k : list R) : Rsum (x :: k) = x + Rsum k.
Proof. reflexivity. Qed.

Lemma Rsum_Permutation (l1 l2 : list R) : l1 ≡ₚ l2 -> Rsum l1 = Rsum l2.
Proof.
  induction 1 as [|x k1 k2 _ IH|x y k|k1 k2 k3 _ IH1 _ IH2].
  - done.
  - by rewrite !Rsum_cons, IH.
  - rewrite !Rsum_cons. lra.
  - by rewrite IH1.
Qed.

Lemma Rsum_fmap_ext f g l :
  (forall x, x ∈ l -> f x = g x) -> Rsum (f <$> l) = Rsum (g <$> l).
Proof.
  induction l as [|x l IH]; intros Hfg; [done|].
  rewrite !fmap_cons, !Rsum_cons. rewrite Hfg by left.
  rewrite IH; [done|]. intros y Hy. apply Hfg. by right.
Qed.

Lemma foldl_add_Rsum f l (a : R) :
  foldl (fun t x => t + f x) a l = a + Rsum (f <$> l).
Proof.
  revert a. induction l as [|x l IH]; intros a; [rewrite fmap_nil, Rsum_nil; simpl; lra|].
  rewrite fmap_cons, Rsum_cons. simpl. rewrite IH. lra.
Qed.

Lemma foldl_ext_in {B} (f g : B -> A -> B) l (b : B) :
  (forall b x, x ∈ l -> f b x = g b x) -> foldl f b l = foldl g b l.
Proof.
  revert b. induction l as [|x l IH]; intros b Hfg; simpl; [done|].
  rewrite Hfg by left. apply IH. intros b' y Hy. apply Hfg. by right.
Qed.
End Sums.

Lemma fmap_bind_list {A B C} (f : B -> C) (g : A -> list B) (l : list A) :
  f <$> (l ≫= g) = l ≫= (fun x => f <$> g x).
Proof.
  induction l as [|x l IH]; [done|].
  by rewrite !bind_cons, fmap_app, IH.
Qed.

Lemma bind_Permutation_ext {A B} (f g : A -> list B) (l : list A) :
  (forall x, f x ≡ₚ g x) -> l ≫= f ≡ₚ l ≫= g.
Proof.
  intros Hfg. induction l as [|x l IH]; [done|].
  rewrite !bind_cons. by rewrite Hfg, IH.
Qed.

(** A shift of the columns and of the rows that permutes each range
    permutes the cells of the grid. *)
Lemma grid_cells_shift (sx sy : Z -> Z) (w h : Z) :
  sx <$> seqZ 0 w ≡ₚ seqZ 0 w -> sy <$> seqZ 0 h ≡ₚ seqZ 0 h ->
  (fun x : Z * Z => (sy x.1, sx x.2)) <$> grid_cells w h ≡ₚ grid_cells w h.
Proof.
  intros Hx Hy. unfold grid_cells, row_cells.
  rewrite fmap_bind_list.
  trans ((sy <$> seqZ 0 h) ≫= (fun jj => (fun ii => (jj, ii)) <$> seqZ 0 w));
    [|by rewrite Hy].
  rewrite list_fmap_bind. apply bind_Permutation_ext. intros jj. cbn.
  rewrite <- list_fmap_compose. rewrite <- Hx at 2.
  by rewrite <- list_fmap_compose.
Qed.

Lemma Rsum_grid_shift (sx sy : Z -> Z) (w h : Z) (g : Z * Z -> R) :
  sx <$> seqZ 0 w ≡ₚ seqZ 0 w -> sy <$> seqZ 0 h ≡ₚ seqZ 0 h ->
  Rsum ((fun x => g (sy x.1, sx x.2)) <$> grid_cells w h)
  = Rsum (g <$> grid_cells w h).
Proof.
  intros Hx Hy.
  rewrite <- (Rsum_Permutation _ _
                (fmap_Permutation g _ _ (grid_cells_shift sx sy w h Hx Hy))).
  by rewrite <- list_fmap_compose.
Qed.

(** ** Exact arithmetic: the collision *)

(** Unfold the arithmetic of the class into the operations of [R]. *)
Ltac rsimpl := cbn [fadd fsub fmul fdiv fneg fsqrt fgt of_int Exact.ops].

Section ExactKernel.
Local Open Scope R_scope.
Implicit Types (p : t_param R) (c cells tmp : t_speed R) (s : stencil R) (d : dir).
Implicit Types (obstacles : list Z) (ii jj : Z).

Lemma pull_spec p cells ii jj d :
  in_grid p ii jj -> sget d (pull p cells ii jj) = spec_pulled p cells ii jj d.
Proof.
  intros [Hii Hjj]. unfold spec_pulled.
  pose proof (x_west_mod p ii Hii) as Hw. pose proof (x_east_mod p ii Hii) as He.
  pose proof (y_south_mod p jj Hjj) as Hs. pose proof (y_north_mod p jj Hjj) as Hn.
  assert (Hi0 : ((ii - 0) mod nx p = ii)%Z) by (rewrite Z.sub_0_r; apply Z.mod_small; lia).
  assert (Hj0 : ((jj - 0) mod ny p = jj)%Z) by (rewrite Z.sub_0_r; apply Z.mod_small; lia).
  replace (ii - -1)%Z with (ii + 1)%Z in * by lia.
  destruct d; unfold pull; cbn [sget s0 s1 s2 s3 s4 s5 s6 s7 s8 e_x e_y];
    replace (ii - -1)%Z with (ii + 1)%Z by lia;
    replace (jj - -1)%Z with (jj + 1)%Z by lia;
    rewrite ?Hi0, ?Hj0, <- ?Hw, <- ?He, <- ?Hs, <- ?Hn; reflexivity.
Qed.

Lemma rho_pull p cells ii jj :
  in_grid p ii jj -> rho (pull p cells ii jj) = spec_density p cells ii jj.
Proof.
  intros Hin. unfold spec_density. cbv zeta.
  rewrite <- !(pull_spec p cells ii jj) by done. reflexivity.
Qed.

Lemma collision_rho p s : rho s <> 0 -> rho (collision p s).1 = rho s.
Proof.
  destruct s as [a0 a1 a2 a3 a4 a5 a6 a7 a8]. unfold rho, collision.
  cbn [fst s0 s1 s2 s3 s4 s5 s6 s7 s8]. rsimpl. intros Hr. field. exact Hr.
Qed.

Lemma collision_mom_x p s : rho s <> 0 -> mom_x (collision p s).1 = mom_x s.
Proof.
  destruct s as [a0 a1 a2 a3 a4 a5 a6 a7 a8]. unfold rho, mom_x, collision.
  cbn [fst s0 s1 s2 s3 s4 s5 s6 s7 s8]. rsimpl. intros Hr. field. exact Hr.
Qed.

Lemma collision_mom_y p s : rho s <> 0 -> mom_y (collision p s).1 = mom_y s.
Proof.
  destruct s as [a0 a1 a2 a3 a4 a5 a6 a7 a8]. unfold rho, mom_y, collision.
  cbn [fst s0 s1 s2 s3 s4 s5 s6 s7 s8]. rsimpl. intros Hr. field. exact Hr.
Qed.

Lemma collision_speed p s :
  (collision p s).2
  = sqrt (mom_x s / rho s * (mom_x s / rho s) + mom_y s / rho s * (mom_y s / rho s)).
Proof. by destruct s. Qed.

Lemma snapshot_speed_eq s :
  snapshot_speed s
  = sqrt (mom_x s / rho s * (mom_x s / rho s) + mom_y s / rho s * (mom_y s / rho s)).
Proof.
  destruct s as [a0 a1 a2 a3 a4 a5 a6 a7 a8]. unfold snapshot_speed, add_cell, rho, mom_x, mom_y.
  cbn [s0 s1 s2 s3 s4 s5 s6 s7 s8]. rsimpl.
  replace (0 + a0 + a1 + a2 + a3 + a4 + a5 + a6 + a7 + a8)
    with (a0 + a1 + a2 + a3 + a4 + a5 + a6 + a7 + a8) by lra.
  reflexivity.
Qed.

End ExactKernel.

(** ** Exact arithmetic: the grid *)

Section ExactGrid.
Local Open Scope R_scope.
Implicit Types (p : t_param R) (c cells tmp : t_speed R) (s : stencil R) (d : dir).
Implicit Types (obstacles : list Z) (ii jj : Z).

Lemma idx_surj p (i : Z) :
  (0 <= i < nx p * ny p)%Z -> (0 < nx p)%Z ->
  exists ii jj, in_grid p ii jj /\ i = idx p ii jj.
Proof.
  intros Hi Hnx. exists (i mod nx p)%Z, (i / nx p)%Z.
  pose proof (Z.mod_pos_bound i (nx p) Hnx) as Hm.
  pose proof (Z.div_mod i (nx p)) as Hdm.
  assert (Hq : (0 <= i / nx p < ny p)%Z).
  { split; [apply Z.div_pos; lia|]. apply Z.div_lt_upper_bound; lia. }
  split; [split; [done | done]|]. unfold idx. lia.
Qed.

Lemma peek_of_load c d (i : Z) (v : R) : load d c i = Some v -> peek d c i = v.
Proof. intros Hl. unfold peek. by rewrite Hl. Qed.

Lemma cell_at_ext c s (i : Z) :
  (forall d, load d c i = Some (sget d s)) -> cell_at c i = s.
Proof.
  intros Hl. destruct s as [a0 a1 a2 a3 a4 a5 a6 a7 a8]. unfold cell_at.
  rewrite (peek_of_load c D0 i a0), (peek_of_load c D1 i a1),
    (peek_of_load c D2 i a2), (peek_of_load c D3 i a3), (peek_of_load c D4 i a4),
    (peek_of_load c D5 i a5), (peek_of_load c D6 i a6), (peek_of_load c D7 i a7),
    (peek_of_load c D8 i a8); first [done | apply (Hl D0) | apply (Hl D1)
    | apply (Hl D2) | apply (Hl D3) | apply (Hl D4) | apply (Hl D5)
    | apply (Hl D6) | apply (Hl D7) | apply (Hl D8)].
Qed.

Lemma add_cell_rho (t : R) s : add_cell t s = t + rho s.
Proof. unfold add_cell, rho. rsimpl. lra. Qed.

(** [total_density] as a sum of local densities. *)
Lemma total_density_exact p c :
  wf_speed p c ->
  total_density p c
  = Some (Rsum ((fun x => rho (cell_at c (idx p x.2 x.1)))
                  <$> grid_cells (nx p) (ny p))).
Proof.
  intros Hwf. rewrite total_density_spec by done. f_equal.
  rewrite (foldl_ext_in _ (fun t x => t + rho (cell_at c (idx p x.2 x.1))))
    by (intros; apply add_cell_rho).
  rewrite foldl_add_Rsum. rsimpl. lra.
Qed.

Lemma x_east_cases p ii :
  (0 <= ii < nx p)%Z ->
  x_east p ii = if decide (ii = nx p - 1)%Z then 0%Z else (ii + 1)%Z.
Proof.
  intros Hi. rewrite x_east_mod by done. case_decide as He.
  - subst ii. replace (nx p - 1 + 1)%Z with (nx p) by lia. apply Z.mod_same. lia.
  - apply Z.mod_small. lia.
Qed.

Lemma y_north_cases p jj :
  (0 <= jj < ny p)%Z ->
  y_north p jj = if decide (jj = ny p - 1)%Z then 0%Z else (jj + 1)%Z.
Proof.
  intros Hi. rewrite y_north_mod by done. case_decide as He.
  - subst jj. replace (ny p - 1 + 1)%Z with (ny p) by lia. apply Z.mod_same. lia.
  - apply Z.mod_small. lia.
Qed.

(** Each neighbour map permutes its range. *)
Lemma range_Permutation (sigma tau : Z -> Z) (n : Z) :
  (forall i, (0 <= i < n)%Z -> (0 <= sigma i < n)%Z) ->
  (forall i, (0 <= i < n)%Z -> (0 <= tau i < n)%Z) ->
  (forall i, (0 <= i < n)%Z -> tau (sigma i) = i) ->
  (forall i, (0 <= i < n)%Z -> sigma (tau i) = i) ->
  sigma <$> seqZ 0 n ≡ₚ seqZ 0 n.
Proof.
  intros Hs Ht Hts Hst. apply NoDup_Permutation.
  - apply NoDup_fmap_2_strong; [|apply NoDup_seqZ].
    intros x y Hx Hy Heq. apply elem_of_seqZ in Hx, Hy.
    rewrite <- (Hts x), <- (Hts y) by lia. by rewrite Heq.
  - apply NoDup_seqZ.
  - intros x. rewrite list_elem_of_fmap. setoid_rewrite elem_of_seqZ. split.
    + intros (y & -> & Hy). specialize (Hs y). lia.
    + intros Hx. exists (tau x). split; [symmetry; apply Hst; lia|].
      specialize (Ht x). lia.
Qed.

Lemma x_west_Permutation p : x_west p <$> seqZ 0 (nx p) ≡ₚ seqZ 0 (nx p).
Proof.
  apply (range_Permutation _ (x_east p)).
  - apply x_west_range.
  - apply x_east_range.
  - intros i Hi. rewrite x_east_cases by (by apply x_west_range).
    unfold x_west. repeat case_decide; lia.
  - intros i Hi. rewrite x_east_cases by done.
    unfold x_west. repeat case_decide; lia.
Qed.

Lemma x_east_Permutation p : x_east p <$> seqZ 0 (nx p) ≡ₚ seqZ 0 (nx p).
Proof.
  apply (range_Permutation _ (x_west p)).
  - apply x_east_range.
  - apply x_west_range.
  - intros i Hi. rewrite x_east_cases by done.
    unfold x_west. repeat case_decide; lia.
  - intros i Hi. rewrite x_east_cases by (by apply x_west_range).
    unfold x_west. repeat case_decide; lia.
Qed.

Lemma y_south_Permutation p : y_south p <$> seqZ 0 (ny p) ≡ₚ seqZ 0 (ny p).
Proof.
  apply (range_Permutation _ (y_north p)).
  - apply y_south_range.
  - apply y_north_range.
  - intros i Hi. rewrite y_north_cases by (by apply y_south_range).
    unfold y_south. repeat case_decide; lia.
  - intros i Hi. rewrite y_north_cases by done.
    unfold y_south. repeat case_decide; lia.
Qed.

Lemma y_north_Permutation p : y_north p <$> seqZ 0 (ny p) ≡ₚ seqZ 0 (ny p).
Proof.
  apply (range_Permutation _ (y_south p)).
  - apply y_north_range.
  - apply y_south_range.
  - intros i Hi. rewrite y_north_cases by done.
    unfold y_south. repeat case_decide; lia.
  - intros i Hi. rewrite y_north_cases by (by apply y_south_range).
    unfold y_south. repeat case_decide; lia.
Qed.

Lemma id_Permutation (n : Z) : (fun i : Z => i) <$> seqZ 0 n ≡ₚ seqZ 0 n.
Proof. by rewrite list_fmap_id. Qed.

Lemma Rsum_fmap_plus9 {A} (f0 f1 f2 f3 f4 f5 f6 f7 f8 : A -> R) (l : list A) :
  Rsum ((fun x => f0 x + f1 x + f2 x + f3 x + f4 x + f5 x + f6 x + f7 x + f8 x) <$> l)
  = Rsum (f0 <$> l) + Rsum (f1 <$> l) + Rsum (f2 <$> l) + Rsum (f3 <$> l)
    + Rsum (f4 <$> l) + Rsum (f5 <$> l) + Rsum (f6 <$> l) + Rsum (f7 <$> l)
    + Rsum (f8 <$> l).
Proof.
  induction l as [|x l IH]; [rewrite !fmap_nil, !Rsum_nil; lra|].
  rewrite !fmap_cons, !Rsum_cons, IH. lra.
Qed.

(** Streaming moves every value to another cell and loses none: the pulled
    local densities add up to the local densities. *)
Lemma Rsum_rho_pull p cells :
  Rsum ((fun x => rho (pull p cells x.2 x.1)) <$> grid_cells (nx p) (ny p))
  = Rsum ((fun x => rho (cell_at cells (idx p x.2 x.1))) <$> grid_cells (nx p) (ny p)).
Proof.
  pose (g := fun d (x : Z * Z) => peek d cells (idx p x.2 x.1)).
  pose proof (x_west_Permutation p) as Hw. pose proof (x_east_Permutation p) as He.
  pose proof (y_south_Permutation p) as Hs. pose proof (y_north_Permutation p) as Hn.
  pose proof (id_Permutation (nx p)) as Hix. pose proof (id_Permutation (ny p)) as Hiy.
  trans (Rsum (g D0 <$> grid_cells (nx p) (ny p))
         + Rsum (g D1 <$> grid_cells (nx p) (ny p))
         + Rsum (g D2 <$> grid_cells (nx p) (ny p))
         + Rsum (g D3 <$> grid_cells (nx p) (ny p))
         + Rsum (g D4 <$> grid_cells (nx p) (ny p))
         + Rsum (g D5 <$> grid_cells (nx p) (ny p))
         + Rsum (g D6 <$> grid_cells (nx p) (ny p))
         + Rsum (g D7 <$> grid_cells (nx p) (ny p))
         + Rsum (g D8 <$> grid_cells (nx p) (ny p))).
  - rewrite <- (Rsum_grid_shift (fun i => i) (fun i => i) _ _ (g D0) Hix Hiy).
    rewrite <- (Rsum_grid_shift (x_west p) (fun i => i) _ _ (g D1) Hw Hiy).
    rewrite <- (Rsum_grid_shift (fun i => i) (y_south p) _ _ (g D2) Hix Hs).
    rewrite <- (Rsum_grid_shift (x_east p) (fun i => i) _ _ (g D3) He Hiy).
    rewrite <- (Rsum_grid_shift (fun i => i) (y_north p) _ _ (g D4) Hix Hn).
    rewrite <- (Rsum_grid_shift (x_west p) (y_south p) _ _ (g D5) Hw Hs).
    rewrite <- (Rsum_grid_shift (x_east p) (y_south p) _ _ (g D6) He Hs).
    rewrite <- (Rsum_grid_shift (x_east p) (y_north p) _ _ (g D7) He Hn).
    rewrite <- (Rsum_grid_shift (x_west p) (y_north p) _ _ (g D8) Hw Hn).
    rewrite <- Rsum_fmap_plus9. reflexivity.
  - rewrite <- Rsum_fmap_plus9. reflexivity.
Qed.
End ExactGrid.

Section ExactSteps.
Local Open Scope R_scope.
Implicit Types (p : t_param R) (c cells tmp : t_speed R) (s : stencil R) (d : dir).
Implicit Types (obstacles : list Z) (ii jj : Z).

Lemma accel_delta_sum (w1 w2 : R) s :
  accel_delta w1 w2 D0 (s0 s) + accel_delta w1 w2 D1 (s1 s)
  + accel_delta w1 w2 D2 (s2 s) + accel_delta w1 w2 D3 (s3 s)
  + accel_delta w1 w2 D4 (s4 s) + accel_delta w1 w2 D5 (s5 s)
  + accel_delta w1 w2 D6 (s6 s) + accel_delta w1 w2 D7 (s7 s)
  + accel_delta w1 w2 D8 (s8 s) = rho s.
Proof. unfold rho. cbn [accel_delta]. rsimpl. lra. Qed.

(** Without acceleration [accelerate_flow] adds and subtracts zero. *)
Lemma accelerate_flow_zero_accel p cells obstacles :
  wf_speed p cells -> wf_obstacles p obstacles -> (2 <= ny p)%Z ->
  accel p = 0 -> accelerate_flow p cells obstacles = Some cells.
Proof.
  intros Hc Ho Hny Ha.
  destruct (accelerate_flow_spec p cells obstacles Hc Ho Hny) as (c' & Hrun & Hc' & Hl).
  rewrite Hrun. f_equal. apply (speed_ext p); [done | done|].
  intros d i Hi.
  assert (Hnx : (0 < nx p)%Z) by nia.
  destruct (idx_surj p i Hi Hnx) as (ii & jj & Hin & ->).
  rewrite Hl by done.
  destruct (decide (jj = (ny p - 2)%Z)) as [Hj|Hj]; [|done].
  destruct (accel_guard _ _ _ _ _); [|done].
  rewrite (load_peek p cells d) by done. f_equal.
  unfold accel_w1, accel_w2. rewrite Ha. destruct d; cbn [accel_delta]; rsimpl; lra.
Qed.

(** The collision changes neither the local density nor the momentum, so
    the velocity read off the relaxed values is the one the pass computed. *)
Lemma snapshot_speed_collision p s :
  rho s <> 0 -> snapshot_speed (collision p s).1 = (collision p s).2.
Proof.
  intros Hr.
  by rewrite snapshot_speed_eq, collision_speed, collision_rho, collision_mom_x,
    collision_mom_y.
Qed.

Lemma collision_equilibrium p :
  density p > 0 -> collision p (eq_stencil p) = (eq_stencil p, 0).
Proof.
  intros Hd. unfold collision, eq_stencil. cbn [init_value]. rsimpl.
  f_equal.
  - f_equal; field; lra.
  - rewrite <- sqrt_0. f_equal. field. lra.
Qed.

Lemma init_value_weight p d : init_value p d = density p * weight d.
Proof. destruct d; cbn [init_value weight]; rsimpl; field. Qed.

Lemma foldl_acc_step_still p cells obstacles (l : list (Z * Z)) (u : R) (n : Z) :
  (forall x, x ∈ l -> (collision p (pull p cells x.2 x.1)).2 = 0) ->
  (foldl (acc_step p cells obstacles) (u, n) l).1 = u.
Proof.
  revert u n. induction l as [|x l IH]; intros u n Hl; [done|].
  cbn [foldl]. unfold acc_step at 2. cbn [fst snd].
  destruct (decide (fluid obstacles (idx p x.2 x.1))).
  - rewrite IH by (intros y Hy; apply Hl; by right).
    rewrite Hl by left. rsimpl. lra.
  - apply IH. intros y Hy. apply Hl. by right.
Qed.

(** [tot_cells] never decreases, and counts every fluid cell. *)
Lemma acc_count_mono p cells obstacles (l : list (Z * Z)) (u : R) (n : Z) :
  (n <= (foldl (acc_step p cells obstacles) (u, n) l).2)%Z.
Proof.
  revert u n. induction l as [|x l IH]; intros u n; [simpl; lia|].
  cbn [foldl]. unfold acc_step at 2. cbn [fst snd].
  destruct (decide (fluid obstacles (idx p x.2 x.1))); [|apply IH].
  etrans; [|apply IH]. lia.
Qed.

Lemma acc_count_pos p cells obstacles (l : list (Z * Z)) (u : R) (n : Z) (x : Z * Z) :
  x ∈ l -> fluid obstacles (idx p x.2 x.1) ->
  (n < (foldl (acc_step p cells obstacles) (u, n) l).2)%Z.
Proof.
  revert u n. induction l as [|y l IH]; intros u n Hx Hf; [by apply not_elem_of_nil in Hx|].
  cbn [foldl]. unfold acc_step at 2. cbn [fst snd].
  apply elem_of_cons in Hx as [<- | Hx].
  - rewrite decide_True by done.
    pose proof (acc_count_mono p cells obstacles l
                  (u + (collision p (pull p cells x.2 x.1)).2)%flt (n + 1)%Z). lia.
  - destruct (decide (fluid obstacles (idx p y.2 y.1))); [|by apply IH].
    pose proof (IH (u + (collision p (pull p cells y.2 y.1)).2)%flt (n + 1)%Z Hx Hf). lia.
Qed.

End ExactSteps.

(** ** Facts about the example over the reals *)

Module ExRFacts.
Import ExR.
Local Open Scope R_scope.

Lemma wf_ones12 : wf_speed p12 ones12.
Proof. intros []; reflexivity. Qed.

Lemma wf_free12 : wf_obstacles p12 free12.
Proof. reflexivity. Qed.

Lemma in_grid_p12 ii jj : in_grid p12 ii jj -> ii = 0%Z /\ (jj = 0%Z \/ jj = 1%Z).
Proof. unfold in_grid. simpl. lia. Qed.

Lemma fluid_free12 ii jj : in_grid p12 ii jj -> fluid free12 (idx p12 ii jj).
Proof. intros Hin. apply in_grid_p12 in Hin as [-> [-> | ->]]; reflexivity. Qed.

Lemma peek_ones12 d (i : Z) : (i = 0 \/ i = 1)%Z -> peek d ones12 i = 1.
Proof. intros [-> | ->]; by destruct d. Qed.

Lemma spec_density_ones12 ii jj :
  in_grid p12 ii jj -> spec_density p12 ones12 ii jj = 9.
Proof.
  intros Hin. apply in_grid_p12 in Hin as [-> [-> | ->]];
    unfold spec_density, spec_pulled; cbv zeta;
    rewrite !peek_ones12 by (vm_compute; auto); lra.
Qed.
End ExRFacts.

(** ** A step of the iteration *)

Section Steps.
Context {F : Type} `{FloatOps F}.
Implicit Types (p : t_param F) (c cells tmp : t_speed F) (d : dir).
Implicit Types (obstacles : list Z) (s : stencil F) (i j ii jj : Z).
Local Open Scope flt_scope.

Lemma timestep_spec p cells tmp obstacles :
  wf_speed p cells -> wf_speed p tmp -> wf_obstacles p obstacles ->
  (2 <= ny p)%Z ->
  exists c' tmp',
    accelerate_flow p cells obstacles = Some c'
    /\ stream_collide p c' tmp obstacles
       = Some ((pass_acc p c' obstacles).1 / of_int (pass_acc p c' obstacles).2, tmp')
    /\ timestep p cells tmp obstacles
       = Some ((pass_acc p c' obstacles).1 / of_int (pass_acc p c' obstacles).2, c', tmp')
    /\ wf_speed p c' /\ wf_speed p tmp'.
Proof.
  intros Hc Ht Ho Hny.
  destruct (accelerate_flow_spec p cells obstacles Hc Ho Hny) as (c' & Hacc & Hc' & _).
  destruct (stream_collide_spec p c' tmp obstacles Hc' Ht Ho) as (tmp' & Hrun & Ht' & _).
  exists c', tmp'. split; [done|]. split; [done|]. split; [|done].
  unfold timestep. rewrite Hacc. osimpl. rewrite Hrun. done.
Qed.

Lemma accelerate_flow_out_of_range p cells obstacles :
  (ny p < 2)%Z -> (1 <= nx p)%Z -> accelerate_flow p cells obstacles = None.
Proof.
  intros Hny Hnx. unfold accelerate_flow, for_range. cbv zeta.
  rewrite Z.sub_0_r, seqZ_cons by lia. cbn [for_each].
  assert (Hcell : forall (w1 w2 : F),
            accelerate_cell p w1 w2 (ny p - 2) obstacles 0 cells = None).
  { intros w1 w2. unfold accelerate_cell, rd. cbv zeta.
    rewrite decide_False by nia. done. }
  by rewrite Hcell.
Qed.

(** *** Grids that differ in the rest entries of obstacle cells only *)

Lemma same_flow_refl p obstacles c : same_flow p obstacles c c.
Proof. by intros d ii jj _ _. Qed.

Lemma peek_same p obstacles c c' d ii jj :
  same_flow p obstacles c c' -> in_grid p ii jj ->
  d <> D0 \/ fluid obstacles (idx p ii jj) ->
  peek d c (idx p ii jj) = peek d c' (idx p ii jj).
Proof. intros Hs Hin Hd. unfold peek. by rewrite (Hs d ii jj). Qed.

Lemma cell_at_same p obstacles c c' ii jj :
  same_flow p obstacles c c' -> in_grid p ii jj -> fluid obstacles (idx p ii jj) ->
  cell_at c (idx p ii jj) = cell_at c' (idx p ii jj).
Proof.
  intros Hs Hin Hf. unfold cell_at.
  by rewrite !(peek_same p obstacles c c') by auto.
Qed.

Lemma pull_same_dir p obstacles c c' ii jj d :
  same_flow p obstacles c c' -> in_grid p ii jj -> d <> D0 ->
  sget d (pull p c ii jj) = sget d (pull p c' ii jj).
Proof.
  intros Hs [Hii Hjj] Hd.
  pose proof (x_west_range p ii Hii). pose proof (x_east_range p ii Hii).
  pose proof (y_south_range p jj Hjj). pose proof (y_north_range p jj Hjj).
  destruct d; [done|..]; unfold pull; cbn [sget s1 s2 s3 s4 s5 s6 s7 s8];
    apply (peek_same p obstacles); (done || (by split) || (by left)).
Qed.

Lemma pull_same_fluid p obstacles c c' ii jj :
  same_flow p obstacles c c' -> in_grid p ii jj -> fluid obstacles (idx p ii jj) ->
  pull p c ii jj = pull p c' ii jj.
Proof.
  intros Hs Hin Hf.
  pose proof (pull_same_dir p obstacles c c' ii jj D1 Hs Hin) as H1.
  pose proof (pull_same_dir p obstacles c c' ii jj D2 Hs Hin) as H2.
  pose proof (pull_same_dir p obstacles c c' ii jj D3 Hs Hin) as H3.
  pose proof (pull_same_dir p obstacles c c' ii jj D4 Hs Hin) as H4.
  pose proof (pull_same_dir p obstacles c c' ii jj D5 Hs Hin) as H5.
  pose proof (pull_same_dir p obstacles c c' ii jj D6 Hs Hin) as H6.
  pose proof (pull_same_dir p obstacles c c' ii jj D7 Hs Hin) as H7.
  pose proof (pull_same_dir p obstacles c c' ii jj D8 Hs Hin) as H8.
  pose proof (peek_same p obstacles c c' D0 ii jj Hs Hin (or_intror Hf)) as H0'.
  unfold pull in *. cbn [sget s1 s2 s3 s4 s5 s6 s7 s8] in *.
  by rewrite H0', H1, H2, H3, H4, H5, H6, H7, H8.
Qed.

Lemma cell_out_same p obstacles c c' ii jj d :
  same_flow p obstacles c c' -> in_grid p ii jj ->
  d <> D0 \/ fluid obstacles (idx p ii jj) ->
  cell_out p c obstacles ii jj d = cell_out p c' obstacles ii jj d.
Proof.
  intros Hs Hin Hd. unfold cell_out. case_decide as Hf.
  - by rewrite (pull_same_fluid p obstacles c c').
  - destruct Hd as [Hd|Hd]; [|done].
    pose proof (fun d Hd => pull_same_dir p obstacles c c' ii jj d Hs Hin Hd) as Hp.
    destruct d; [done|..]; cbn [mirror]; f_equal;
      [apply (Hp D3)|apply (Hp D4)|apply (Hp D1)|apply (Hp D2)
      |apply (Hp D7)|apply (Hp D8)|apply (Hp D5)|apply (Hp D6)]; done.
Qed.

Lemma pass_acc_same p obstacles c c' :
  same_flow p obstacles c c' -> pass_acc p c obstacles = pass_acc p c' obstacles.
Proof.
  intros Hs. unfold pass_acc. apply foldl_ext_in. intros uc [jj ii] Hin.
  apply elem_of_grid_cells in Hin. cbn [fst snd] in *.
  unfold acc_step. cbn [fst snd]. case_decide as Hf; [|done].
  rewrite (pull_same_fluid p obstacles c c' ii jj Hs);
    [done | unfold in_grid; lia | done].
Qed.

(** The pass overwrites the scratch grid everywhere but in the rest entries
    of the obstacle cells, and reads no such entry of the current grid. *)
Lemma stream_collide_same p obstacles c c' tmp tmp' :
  wf_speed p c -> wf_speed p c' -> wf_speed p tmp -> wf_speed p tmp' ->
  wf_obstacles p obstacles -> same_flow p obstacles c c' ->
  exists av t t',
    stream_collide p c tmp obstacles = Some (av, t)
    /\ stream_collide p c' tmp' obstacles = Some (av, t')
    /\ wf_speed p t /\ wf_speed p t' /\ same_flow p obstacles t t'.
Proof.
  intros Hc Hc' Ht Ht' Ho Hs.
  destruct (stream_collide_spec p c tmp obstacles Hc Ht Ho) as (t & Hrun & Hwt & Hl).
  destruct (stream_collide_spec p c' tmp' obstacles Hc' Ht' Ho) as (t' & Hrun' & Hwt' & Hl').
  eexists _, t, t'. split; [exact Hrun|]. split.
  { rewrite Hrun'. by rewrite (pass_acc_same p obstacles c c'). }
  split; [done|]. split; [done|].
  intros d ii jj Hin Hd. rewrite Hl, Hl' by done.
  rewrite <- (cell_out_same p obstacles c c') by done.
  unfold cell_out. case_decide as Hf; [done|].
  destruct Hd as [Hd|Hd]; [|done]. by destruct d.
Qed.

Lemma accel_guard_same p obstacles c c' (w1 w2 : F) ii jj :
  same_flow p obstacles c c' -> in_grid p ii jj ->
  accel_guard w1 w2 c obstacles (idx p ii jj)
  = accel_guard w1 w2 c' obstacles (idx p ii jj).
Proof.
  intros Hs Hin. unfold accel_guard.
  destruct (decide (fluid obstacles (idx p ii jj))) as [Hf|Hf].
  - by rewrite !(peek_same p obstacles c c') by auto.
  - by rewrite bool_decide_eq_false_2.
Qed.

Lemma accelerate_flow_same p obstacles c c' :
  wf_speed p c -> wf_speed p c' -> wf_obstacles p obstacles -> (2 <= ny p)%Z ->
  same_flow p obstacles c c' ->
  exists a a',
    accelerate_flow p c obstacles = Some a
    /\ accelerate_flow p c' obstacles = Some a'
    /\ wf_speed p a /\ wf_speed p a' /\ same_flow p obstacles a a'.
Proof.
  intros Hc Hc' Ho Hny Hs.
  destruct (accelerate_flow_spec p c obstacles Hc Ho Hny) as (a & Hrun & Hwa & Hl).
  destruct (accelerate_flow_spec p c' obstacles Hc' Ho Hny) as (a' & Hrun' & Hwa' & Hl').
  exists a, a'. split; [done|]. split; [done|]. split; [done|]. split; [done|].
  intros d ii jj Hin Hd. rewrite Hl, Hl' by done.
  rewrite <- (accel_guard_same p obstacles c c') by done.
  rewrite <- (peek_same p obstacles c c' d ii jj) by done.
  rewrite <- (Hs d ii jj) by done. done.
Qed.

Lemma timestep_same p obstacles c c' tmp tmp' :
  wf_speed p c -> wf_speed p c' -> wf_speed p tmp -> wf_speed p tmp' ->
  wf_obstacles p obstacles -> (2 <= ny p)%Z -> same_flow p obstacles c c' ->
  exists av a a' t t',
    timestep p c tmp obstacles = Some (av, a, t)
    /\ timestep p c' tmp' obstacles = Some (av, a', t')
    /\ wf_speed p a /\ wf_speed p a' /\ wf_speed p t /\ wf_speed p t'
    /\ same_flow p obstacles a a' /\ same_flow p obstacles t t'.
Proof.
  intros Hc Hc' Ht Ht' Ho Hny Hs.
  destruct (accelerate_flow_same p obstacles c c' Hc Hc' Ho Hny Hs)
    as (a & a' & Ha & Ha' & Hwa & Hwa' & Hsa).
  destruct (stream_collide_same p obstacles a a' tmp tmp' Hwa Hwa' Ht Ht' Ho Hsa)
    as (av & t & t' & Hr & Hr' & Hwt & Hwt' & Hst).
  exists av, a, a', t, t'. unfold timestep. rewrite Ha, Ha'. osimpl.
  rewrite Hr, Hr'. osimpl. done.
Qed.

End Steps.

(** ** Two runs of a loop side by side *)

Section Loops2.
Context {S T : Type}.

Lemma for_each_ind2 (body : Z -> S -> option S) (body' : Z -> T -> option T)
    (I : list Z -> S -> T -> Prop) l s t :
  I [] s t ->
  (forall pre i post s t,
      l = pre ++ i :: post -> I pre s t ->
      exists s' t',
        body i s = Some s' /\ body' i t = Some t' /\ I (pre ++ [i]) s' t') ->
  exists s' t',
    for_each body l s = Some s' /\ for_each body' l t = Some t' /\ I l s' t'.
Proof.
  intros H0 Hstep.
  assert (Hgen : forall l2 l1 s t, l = l1 ++ l2 -> I l1 s t ->
            exists s' t', for_each body l2 s = Some s'
                          /\ for_each body' l2 t = Some t' /\ I l s' t').
  { induction l2 as [|i l2 IH]; intros l1 s1 t1 Hl HI; simpl.
    - exists s1, t1. rewrite app_nil_r in Hl. by subst.
    - destruct (Hstep l1 i l2 s1 t1 Hl HI) as (s' & t' & Hb & Hb' & HI').
      rewrite Hb, Hb'; simpl. apply (IH (l1 ++ [i])); [|done].
      by rewrite <- app_assoc. }
  by apply (Hgen l []).
Qed.
End Loops2.

Lemma elem_of_seqZ_middle (n : Z) (pre post : list Z) (i : Z) :
  seqZ 0 n = pre ++ i :: post -> 0 <= i < n /\ i ∉ pre.
Proof.
  intros Hseq. split.
  - assert (Hmem : i ∈ seqZ 0 n) by (rewrite Hseq, elem_of_app, elem_of_cons; auto).
    apply elem_of_seqZ in Hmem. lia.
  - pose proof (NoDup_seqZ 0 n) as Hnd. rewrite Hseq in Hnd.
    apply NoDup_app in Hnd as (_ & Hnd & _).
    intros Hin. apply (Hnd i Hin). apply list_elem_of_here.
Qed.

(** ** The iteration loop of [main] *)

Section MainLoop.
Context {F : Type} `{FloatOps F}.
Implicit Types (p : t_param F) (c cells tmp : t_speed F) (d : dir).
Implicit Types (obstacles : list Z) (s : stencil F) (i j ii jj : Z).
Implicit Types (avs av_vels : list F).
Local Open Scope flt_scope.

Lemma idx_onto p i :
  (0 <= i < nx p * ny p)%Z -> (0 <= nx p)%Z ->
  exists ii jj, in_grid p ii jj /\ i = idx p ii jj.
Proof.
  intros Hi Hnx0.
  assert (Hnx : (0 < nx p)%Z).
  { destruct (decide (nx p = 0%Z)) as [Hz|Hz]; [rewrite Hz in Hi|]; lia. }
  exists (i mod nx p)%Z, (i / nx p)%Z.
  pose proof (Z.mod_pos_bound i (nx p) Hnx) as Hm.
  pose proof (Z.div_mod i (nx p)) as Hdm.
  assert (Hq : (0 <= i / nx p < ny p)%Z).
  { split; [apply Z.div_pos; lia|]. apply Z.div_lt_upper_bound; lia. }
  split; [split; [done | done]|]. unfold idx. lia.
Qed.

Lemma main_loop_same p obstacles c c' tmp tmp' avs avs' :
  wf_speed p c -> wf_speed p c' -> wf_speed p tmp -> wf_speed p tmp' ->
  wf_obstacles p obstacles -> (2 <= ny p)%Z ->
  Z.of_nat (length avs) = maxIters p -> Z.of_nat (length avs') = maxIters p ->
  same_flow p obstacles c c' ->
  exists c1 t1 c1' t1' avs1,
    main_loop p c tmp obstacles avs = Some (c1, t1, avs1)
    /\ main_loop p c' tmp' obstacles avs' = Some (c1', t1', avs1)
    /\ wf_speed p c1 /\ wf_speed p c1' /\ wf_speed p t1 /\ wf_speed p t1'
    /\ same_flow p obstacles c1 c1'
    /\ Z.of_nat (length avs1) = maxIters p.
Proof.
  intros Hc Hc' Ht Ht' Ho Hny Hlen Hlen' Hs.
  pose (I := fun (pre : list Z) (st st' : t_speed F * t_speed F * list F) =>
    wf_speed p st.1.1 /\ wf_speed p st'.1.1
    /\ wf_speed p st.1.2 /\ wf_speed p st'.1.2
    /\ same_flow p obstacles st.1.1 st'.1.1
    /\ Z.of_nat (length st.2) = maxIters p
    /\ Z.of_nat (length st'.2) = maxIters p
    /\ forall i, i ∈ pre -> rd st.2 i = rd st'.2 i).
  unfold main_loop, for_range. rewrite Z.sub_0_r.
  destruct (for_each_ind2 (main_iteration p obstacles) (main_iteration p obstacles)
              I (seqZ 0 (maxIters p)) (c, tmp, avs) (c', tmp', avs'))
    as ([[c1 t1] a1] & [[c1' t1'] a1'] & Hrun & Hrun' & HI).
  - split; [done|]. split; [done|]. split; [done|]. split; [done|].
    split; [done|]. split; [done|]. split; [done|].
    intros i Hi. by apply not_elem_of_nil in Hi.
  - intros pre tt post [[x t] a] [[x' t'] a']
      Hseq (Hx & Hx' & Hwt & Hwt' & Hsx & Hla & Hla' & Hrd).
    cbn [fst snd] in *.
    apply elem_of_seqZ_middle in Hseq as [Htt _].
    destruct (timestep_same p obstacles x x' t t' Hx Hx' Hwt Hwt' Ho Hny Hsx)
      as (av & y & y' & u & u' & Hy & Hy' & Hwy & Hwy' & Hwu & Hwu' & Hsy & Hsu).
    exists (u, y, <[Z.to_nat tt := av]> a), (u', y', <[Z.to_nat tt := av]> a').
    unfold main_iteration. rewrite Hy, Hy'. osimpl.
    rewrite !wr_in_range by lia. osimpl.
    split; [done|]. split; [done|]. unfold I. cbn [fst snd].
    rewrite !length_insert.
    split; [done|]. split; [done|]. split; [done|]. split; [done|].
    split; [done|]. split; [done|]. split; [done|].
    intros i Hi. rewrite !rd_insert by lia. case_decide; [done|].
    apply Hrd. apply elem_of_app in Hi as [Hi|Hi]; [done|].
    apply list_elem_of_singleton in Hi. done.
  - destruct HI as (Hw1 & Hw1' & Hwt1 & Hwt1' & Hs1 & Hl1 & Hl1' & Hrd).
    cbn [fst snd] in *.
    assert (Ha : a1 = a1').
    { apply rd_ext; [lia|]. intros i Hi. apply Hrd. apply elem_of_seqZ. lia. }
    subst a1'. exists c1, t1, c1', t1', a1. done.
Qed.

(** An obstacle cell is outside the reach of [accelerate_flow]. *)
Lemma accel_guard_obstacle (w1 w2 : F) c obstacles i :
  obstacle obstacles i -> accel_guard w1 w2 c obstacles i = false.
Proof.
  intros Hob. unfold accel_guard.
  by rewrite bool_decide_eq_false_2 by (by apply obstacle_not_fluid).
Qed.

(** The rest entries of the obstacle cells after one step: those of the
    scratch grid are still there, and the grid keeps its own. *)
Lemma timestep_rest_entries p cells tmp obstacles :
  wf_speed p cells -> wf_speed p tmp -> wf_obstacles p obstacles ->
  (2 <= ny p)%Z ->
  exists av c' tmp',
    timestep p cells tmp obstacles = Some (av, c', tmp')
    /\ wf_speed p c' /\ wf_speed p tmp'
    /\ forall ii jj, in_grid p ii jj -> obstacle obstacles (idx p ii jj) ->
         load D0 c' (idx p ii jj) = load D0 cells (idx p ii jj)
         /\ load D0 tmp' (idx p ii jj) = load D0 tmp (idx p ii jj).
Proof.
  intros Hc Ht Ho Hny.
  destruct (accelerate_flow_spec p cells obstacles Hc Ho Hny) as (c' & Hacc & Hc' & Hl).
  destruct (stream_collide_spec p c' tmp obstacles Hc' Ht Ho) as (tmp' & Hrun & Ht' & Hl').
  eexists _, c', tmp'. split.
  { unfold timestep. rewrite Hacc. osimpl. rewrite Hrun. reflexivity. }
  split; [done|]. split; [done|].
  intros ii jj Hin Hob. split.
  - rewrite Hl by done. rewrite accel_guard_obstacle by done. by case_decide.
  - rewrite Hl' by done.
    by rewrite cell_out_obstacle by (by apply obstacle_not_fluid).
Qed.

End MainLoop.

(** ** What the program reports *)

Section Reports.
Context {F : Type} `{FloatOps F}.
Implicit Types (p : t_param F) (c cells tmp : t_speed F) (d : dir).
Implicit Types (obstacles : list Z) (s : stencil F) (i j ii jj : Z).
Implicit Types (avs av_vels : list F).
Local Open Scope flt_scope.

Lemma av_velocity_same p obstacles c c' :
  wf_speed p c -> wf_speed p c' -> wf_obstacles p obstacles ->
  same_flow p obstacles c c' ->
  av_velocity p c obstacles = av_velocity p c' obstacles.
Proof.
  intros Hc Hc' Ho Hs. rewrite !av_velocity_spec by done.
  assert (Hfold : foldl (av_step p c obstacles) (#0, 0%Z) (grid_cells (nx p) (ny p))
                  = foldl (av_step p c' obstacles) (#0, 0%Z) (grid_cells (nx p) (ny p))).
  { apply foldl_ext_in. intros uc [jj ii] Hin.
    apply elem_of_grid_cells in Hin. cbn [fst snd] in *.
    unfold av_step. cbn [fst snd]. case_decide as Hf; [|done].
    rewrite (cell_at_same p obstacles c c' ii jj Hs);
      [done | unfold in_grid; lia | done]. }
  by rewrite Hfold.
Qed.

Lemma foldl_av_step_no_fluid p c obstacles (l : list (Z * Z)) (uc : F * Z) :
  (forall x, x ∈ l -> ~ fluid obstacles (idx p x.2 x.1)) ->
  foldl (av_step p c obstacles) uc l = uc.
Proof.
  revert uc. induction l as [|x l IH]; intros uc Hl; simpl; [done|].
  rewrite IH by (intros x' Hx'; apply Hl; by right).
  unfold av_step. rewrite decide_False; [done|]. apply Hl. by left.
Qed.

Lemma calc_reynolds_spec p c obstacles :
  wf_speed p c -> wf_obstacles p obstacles ->
  exists av,
    av_velocity p c obstacles = Some av
    /\ calc_reynolds p c obstacles
       = Some (av * #(reynolds_dim p) / (#1 / #6 * (#2 / omega p - #1))).
Proof.
  intros Hc Ho. eexists. split; [by apply av_velocity_spec|].
  unfold calc_reynolds. cbv zeta. rewrite av_velocity_spec by done. reflexivity.
Qed.

Lemma calc_reynolds_same p obstacles c c' :
  wf_speed p c -> wf_speed p c' -> wf_obstacles p obstacles ->
  same_flow p obstacles c c' ->
  calc_reynolds p c obstacles = calc_reynolds p c' obstacles.
Proof.
  intros Hc Hc' Ho Hs. unfold calc_reynolds. cbv zeta.
  by rewrite (av_velocity_same p obstacles c c').
Qed.

Lemma write_values_cell_spec p c obstacles ii jj (out : list (state_line F)) :
  wf_speed p c -> wf_obstacles p obstacles -> in_grid p ii jj ->
  write_values_cell p c obstacles jj ii out
  = Some (out ++ [line_of p c obstacles (jj, ii)]).
Proof.
  intros Hc Ho Hin.
  assert (Hi : (0 <= idx p ii jj < nx p * ny p)%Z) by (by apply idx_range).
  destruct (rd_obstacles p obstacles _ Ho Hi) as [ob Hob].
  unfold write_values_cell, line_of. cbv zeta. cbn [fst snd].
  replace (ii + nx p * jj)%Z with (idx p ii jj) by (unfold idx; lia).
  change (ii + jj * nx p)%Z with (idx p ii jj).
  rewrite Hob. osimpl. cbn [from_option]; unfold Datatypes.id.
  destruct (decide (ob ≠ 0%Z)) as [Hne|Hz].
  - osimpl. reflexivity.
  - repeat (rewrite (load_peek p) by assumption; osimpl).
    unfold add_cell, cell_at. cbn [s0 s1 s2 s3 s4 s5 s6 s7 s8]. reflexivity.
Qed.

Lemma zip_seqZ_lookup (l : list F) :
  (fun i => (i, default #0 (rd l i))) <$> seqZ 0 (Z.of_nat (length l))
  = zip (seqZ 0 (Z.of_nat (length l))) l.
Proof.
  apply list_eq. intros k.
  rewrite list_lookup_fmap, lookup_zip_with.
  destruct (decide (k < length l)%nat) as [Hk|Hk].
  - rewrite lookup_seqZ_lt by lia. cbn [fmap option_fmap option_map mbind option_bind].
    destruct (lookup_lt_is_Some_2 l k Hk) as [v Hv]. rewrite Hv.
    cbn [mbind option_bind fmap option_fmap option_map]. unfold rd.
    rewrite decide_True by lia. rewrite Z.add_0_l, Nat2Z.id, Hv. done.
  - rewrite lookup_seqZ_ge by lia. done.
Qed.

Lemma write_values_spec p c obstacles avs :
  wf_speed p c -> wf_obstacles p obstacles ->
  Z.of_nat (length avs) = maxIters p ->
  write_values p c obstacles avs
  = Some (line_of p c obstacles <$> grid_cells (nx p) (ny p),
          zip (seqZ 0 (maxIters p)) avs).
Proof.
  intros Hc Ho Hlen. unfold write_values.
  destruct (grid_loop_ind (write_values_cell p c obstacles)
              (fun visited out => out = line_of p c obstacles <$> visited)
              (nx p) (ny p) []) as (fs & Hrun & ->); [done| |].
  { intros visited jj ii out Hjj Hii _ ->. eexists. split.
    - apply write_values_cell_spec; [done | done | by split].
    - by rewrite fmap_app. }
  rewrite Hrun. osimpl.
  unfold for_range. rewrite Z.sub_0_r.
  destruct (for_each_ind (write_av_vel avs)
              (fun pre out => out = (fun i => (i, default #0 (rd avs i))) <$> pre)
              (seqZ 0 (maxIters p)) []) as (avl & Hrun' & ->); [done| |].
  { intros pre i post out Hseq ->.
    apply elem_of_seqZ_middle in Hseq as [Hi _].
    destruct (rd_is_Some avs i) as [v Hv]; [lia|].
    eexists. split.
    - unfold write_av_vel. rewrite Hv. osimpl. reflexivity.
    - rewrite fmap_app. cbn [fmap list_fmap]. by rewrite Hv. }
  rewrite Hrun'. osimpl. rewrite <- Hlen. by rewrite zip_seqZ_lookup.
Qed.

Lemma line_of_same p obstacles c c' ii jj :
  same_flow p obstacles c c' -> wf_obstacles p obstacles -> in_grid p ii jj ->
  line_of p c obstacles (jj, ii) = line_of p c' obstacles (jj, ii).
Proof.
  intros Hs Ho Hin.
  assert (Hi : (0 <= idx p ii jj < nx p * ny p)%Z) by (by apply idx_range).
  destruct (rd_obstacles p obstacles _ Ho Hi) as [ob Hob].
  unfold line_of. cbv zeta. cbn [fst snd]. rewrite Hob. cbn [from_option]; unfold Datatypes.id.
  case_decide as Hne; [done|].
  assert (Hf : fluid obstacles (idx p ii jj)).
  { unfold fluid. rewrite Hob. f_equal. by destruct (decide (ob = 0%Z)). }
  by rewrite (cell_at_same p obstacles c c' ii jj Hs Hin Hf).
Qed.

Lemma write_values_same p obstacles c c' avs :
  wf_speed p c -> wf_speed p c' -> wf_obstacles p obstacles ->
  Z.of_nat (length avs) = maxIters p ->
  same_flow p obstacles c c' ->
  write_values p c obstacles avs = write_values p c' obstacles avs.
Proof.
  intros Hc Hc' Ho Hlen Hs. rewrite !write_values_spec by done.
  do 2 f_equal. apply list_fmap_ext. intros k [jj ii] Hk.
  apply list_elem_of_lookup_2 in Hk. apply elem_of_grid_cells in Hk.
  cbn [fst snd] in Hk. apply line_of_same; [done | done | unfold in_grid; lia].
Qed.

(** ** The fill loop and the obstacle list *)

Lemma initialise_same p a a' o o' :
  wf_speed p a -> wf_speed p a' -> wf_obstacles p o -> wf_obstacles p o' ->
  (0 <= nx p)%Z ->
  exists cells obstacles,
    initialise p a o = Some (cells, obstacles)
    /\ initialise p a' o' = Some (cells, obstacles)
    /\ wf_speed p cells /\ wf_obstacles p obstacles
    /\ forall ii jj, in_grid p ii jj ->
         fluid obstacles (idx p ii jj)
         /\ forall d, load d cells (idx p ii jj) = Some (init_value p d).
Proof.
  intros Ha Ha' Ho Ho' Hnx.
  destruct (initialise_spec p a o Ha Ho) as (c & b & Hrun & Hc & Hb & Hl).
  destruct (initialise_spec p a' o' Ha' Ho') as (c' & b' & Hrun' & Hc' & Hb' & Hl').
  assert (Hcc : c' = c).
  { apply (speed_ext p); [done | done|]. intros d i Hi.
    destruct (idx_onto p i Hi Hnx) as (ii & jj & Hin & ->).
    destruct (Hl ii jj Hin) as [_ ->]. by destruct (Hl' ii jj Hin) as [_ ->]. }
  assert (Hbb : b' = b).
  { apply rd_ext.
    - apply Nat2Z.inj. by rewrite Hb, Hb'.
    - intros i Hi. rewrite Hb' in Hi.
      destruct (idx_onto p i Hi Hnx) as (ii & jj & Hin & ->).
      destruct (Hl ii jj Hin) as [Hf _]. destruct (Hl' ii jj Hin) as [Hf' _].
      unfold fluid in *. by rewrite Hf, Hf'. }
  subst. by exists c, b.
Qed.

Lemma load_obstacles_spec p (file : list scan) :
  forall obstacles, wf_obstacles p obstacles ->
    (Forall (good_line p) (read_lines file)
     /\ exists o',
          load_obstacles p file obstacles = Done o' /\ wf_obstacles p o'
          /\ forall ii jj, in_grid p ii jj ->
               rd o' (idx p ii jj)
               = if decide (Exists (names_cell ii jj) (read_lines file))
                 then Some 1%Z else rd obstacles (idx p ii jj))
    \/ (~ Forall (good_line p) (read_lines file)
        /\ exists message, load_obstacles p file obstacles = Died message).
Proof.
  induction file as [|l file IH]; intros obstacles Ho; cbn [load_obstacles read_lines].
  - left. split; [constructor|]. exists obstacles. split; [done|]. split; [done|].
    intros ii jj _. rewrite decide_False; [done|]. by inversion 1.
  - destruct (decide (retval l = EOF)) as [He|He].
    { left. split; [constructor|]. exists obstacles. split; [done|]. split; [done|].
      intros ii jj _. rewrite decide_False; [done|]. by inversion 1. }
    destruct (decide (retval l ≠ 3%Z)) as [H3|H3].
    { right. split; [|by eexists]. intros Hall.
      apply Forall_cons in Hall as [(Hr & _ & _) _]. done. }
    destruct (decide (scan_xx l < 0 \/ scan_xx l > nx p - 1)%Z) as [Hx|Hx].
    { right. split; [|by eexists]. intros Hall.
      apply Forall_cons in Hall as [(_ & [Hxx _] & _) _]. lia. }
    destruct (decide (scan_yy l < 0 \/ scan_yy l > ny p - 1)%Z) as [Hy|Hy].
    { right. split; [|by eexists]. intros Hall.
      apply Forall_cons in Hall as [(_ & [_ Hyy] & _) _]. lia. }
    destruct (decide (scan_blocked l ≠ 1%Z)) as [Hb|Hb].
    { right. split; [|by eexists]. intros Hall.
      apply Forall_cons in Hall as [(_ & _ & Hbb) _]. done. }
    assert (Hin : in_grid p (scan_xx l) (scan_yy l)) by (unfold in_grid; lia).
    assert (Hgood : good_line p l).
    { split; [|split; [done|]]; [by destruct (decide (retval l = 3%Z))
                                | by destruct (decide (scan_blocked l = 1%Z))]. }
    pose proof (idx_range p _ _ Hin) as Hi. unfold idx in Hi.
    rewrite wr_in_range by (rewrite Ho; lia).
    destruct (IH (<[Z.to_nat (scan_xx l + scan_yy l * nx p) := scan_blocked l]> obstacles))
      as [(Hall & o' & Hrun & Ho' & Hrd) | (Hbad & m & Hrun)].
    + unfold wf_obstacles. by rewrite length_insert.
    + left. split; [by constructor|]. exists o'. split; [done|]. split; [done|].
      intros ii jj Hin'. rewrite Hrd by done.
      rewrite rd_insert by (rewrite Ho; lia).
      destruct (decide (Exists (names_cell ii jj) (read_lines file))) as [Hex|Hex].
      * rewrite decide_True; [done|]. by apply Exists_cons_tl.
      * destruct (decide (idx p ii jj = scan_xx l + scan_yy l * nx p)%Z) as [Heq|Hne].
        -- apply (idx_inj p) in Heq as [-> ->]; [|done|done].
           rewrite decide_True by (by apply Exists_cons_hd).
           f_equal. by destruct Hgood as (_ & _ & ?).
        -- rewrite decide_False; [done|].
           intros Hex'. apply Exists_cons in Hex' as [[<- <-]|Hex']; done.
    + right. split; [|by exists m]. intros Hall.
      apply Forall_cons in Hall as [_ Hall]. done.
Qed.

(** ** The whole run *)

Lemma main_same p (file : list scan) c c' tmp tmp' o o' avs avs' :
  wf_speed p c -> wf_speed p c' -> wf_speed p tmp -> wf_speed p tmp' ->
  wf_obstacles p o -> wf_obstacles p o' ->
  Z.of_nat (length avs) = maxIters p -> Z.of_nat (length avs') = maxIters p ->
  (2 <= ny p)%Z ->
  main p file c tmp o avs = main p file c' tmp' o' avs'
  /\ ((Forall (good_line p) (read_lines file)
       /\ exists out, main p file c tmp o avs = Done out)
      \/ (~ Forall (good_line p) (read_lines file)
          /\ exists message, main p file c tmp o avs = Died message)).
Proof.
  intros Hc Hc' Ht Ht' Ho Ho' Hl Hl' Hny.
  assert (Hnx : (0 <= nx p)%Z).
  { unfold wf_obstacles in Ho. nia. }
  destruct (initialise_same p c c' o o' Hc Hc' Ho Ho' Hnx)
    as (c0 & o0 & Hinit & Hinit' & Hc0 & Ho0 & _).
  unfold main. rewrite Hinit, Hinit'.
  destruct (load_obstacles_spec p file o0 Ho0)
    as [(Hall & o1 & Hload & Ho1 & _) | (Hbad & m & Hload)]; rewrite Hload.
  2: { split; [done|]. right. split; [done|]. by exists m. }
  destruct (main_loop_same p o1 c0 c0 tmp tmp' avs avs' Hc0 Hc0 Ht Ht' Ho1 Hny Hl Hl'
              (same_flow_refl p o1 c0))
    as (c1 & t1 & c1' & t1' & avs1 & Hrun & Hrun' & Hc1 & Hc1' & _ & _ & Hs1 & Hl1).
  rewrite Hrun, Hrun'.
  rewrite <- (calc_reynolds_same p o1 c1 c1') by done.
  rewrite <- (write_values_same p o1 c1 c1') by done.
  split; [done|]. left. split; [done|].
  destruct (calc_reynolds_spec p c1 o1 Hc1 Ho1) as (av & _ & ->).
  rewrite write_values_spec by done. by eexists.
Qed.

End Reports.

Section Lines.
Context {F : Type} `{FloatOps F}.
Implicit Types (p : t_param F) (c cells tmp : t_speed F) (d : dir).
Implicit Types (obstacles : list Z) (s : stencil F) (i j ii jj : Z).
Local Open Scope flt_scope.

Lemma line_of_obstacle p cells obstacles ii jj (ob : Z) :
  rd obstacles (idx p ii jj) = Some ob -> ob <> 0%Z ->
  line_of p cells obstacles (jj, ii)
  = {| line_ii := ii; line_jj := jj; line_u_x := #0; line_u_y := #0;
       line_u := #0; line_pressure := density p * (#1 / #3);
       line_obstacle := ob |}.
Proof.
  intros Hob Hne. unfold line_of. cbv zeta. cbn [fst snd]. rewrite Hob.
  cbn [from_option]; unfold Datatypes.id. by rewrite decide_True by done.
Qed.

Lemma line_of_fluid p cells obstacles ii jj :
  fluid obstacles (idx p ii jj) ->
  line_of p cells obstacles (jj, ii)
  = let s := cell_at cells (idx p ii jj) in
    let local_density := add_cell #0 s in
    let u_x := (s1 s + s5 s + s8 s - (s3 s + s6 s + s7 s)) / local_density in
    let u_y := (s2 s + s5 s + s6 s - (s4 s + s7 s + s8 s)) / local_density in
    {| line_ii := ii; line_jj := jj; line_u_x := u_x; line_u_y := u_y;
       line_u := snapshot_speed s;
       line_pressure := local_density * (#1 / #3);
       line_obstacle := 0 |}.
Proof.
  intros Hf. unfold fluid in Hf. unfold line_of. cbv zeta. cbn [fst snd].
  rewrite Hf. cbn [from_option]; unfold Datatypes.id.
  by rewrite decide_False by (intros Hne; by apply Hne).
Qed.

End Lines.

(** ** Exact arithmetic: momentum and mass *)

Lemma length_grid_cells (w h : Z) :
  0 <= w -> 0 <= h -> Z.of_nat (length (grid_cells w h)) = w * h.
Proof.
  intros Hw Hh. unfold grid_cells.
  assert (Hlen : forall l : list Z,
            length (l ≫= row_cells w) = (length l * Z.to_nat w)%nat).
  { induction l as [|jj l IH]; [done|]. cbn [mbind list_bind]. 
    rewrite length_app, IH. unfold row_cells.
    rewrite length_fmap, length_seqZ. simpl. lia. }
  rewrite Hlen, length_seqZ. lia.
Qed.

Section ExactMomentum.
Local Open Scope R_scope.
Implicit Types (p : t_param R) (c cells tmp : t_speed R) (s : stencil R) (d : dir).
Implicit Types (obstacles : list Z) (ii jj : Z).

Lemma Rsum_fmap_const {A} (f : A -> R) (v : R) (l : list A) :
  (forall x, x ∈ l -> f x = v) ->
  Rsum (f <$> l) = IZR (Z.of_nat (length l)) * v.
Proof.
  induction l as [|x l IH]; intros Hf.
  - cbn [fmap list_fmap length]. rewrite Rsum_nil, Nat2Z.inj_0. lra.
  - cbn [fmap list_fmap length]. rewrite Rsum_cons, IH, Hf.
    + rewrite Nat2Z.inj_succ, succ_IZR. lra.
    + by left.
    + intros y Hy. apply Hf. by right.
Qed.

Lemma rho_eq_stencil p : rho (eq_stencil p) = density p.
Proof. unfold rho, eq_stencil. cbn [s0 s1 s2 s3 s4 s5 s6 s7 s8 init_value]. rsimpl. field. Qed.

Lemma accel_delta_mom_x (w1 w2 : R) s :
  accel_delta w1 w2 D1 (s1 s) + accel_delta w1 w2 D5 (s5 s)
  + accel_delta w1 w2 D8 (s8 s)
  - (accel_delta w1 w2 D3 (s3 s) + accel_delta w1 w2 D6 (s6 s)
     + accel_delta w1 w2 D7 (s7 s))
  = mom_x s + (2 * w1 + 4 * w2).
Proof. unfold mom_x. cbn [accel_delta]. rsimpl. lra. Qed.

Lemma accel_delta_mom_y (w1 w2 : R) s :
  accel_delta w1 w2 D2 (s2 s) + accel_delta w1 w2 D5 (s5 s)
  + accel_delta w1 w2 D6 (s6 s)
  - (accel_delta w1 w2 D4 (s4 s) + accel_delta w1 w2 D7 (s7 s)
     + accel_delta w1 w2 D8 (s8 s))
  = mom_y s.
Proof. unfold mom_y. cbn [accel_delta]. rsimpl. lra. Qed.

Lemma accel_weights p : 2 * accel_w1 p + 4 * accel_w2 p = density p * accel p / 3.
Proof. unfold accel_w1, accel_w2. rsimpl. field. Qed.

Lemma foldl_acc_step_nonneg p cells obstacles (l : list (Z * Z)) (u : R) (n : Z) :
  0 <= u -> 0 <= (foldl (acc_step p cells obstacles) (u, n) l).1.
Proof.
  revert u n. induction l as [|x l IH]; intros u n Hu; [done|].
  cbn [foldl]. unfold acc_step at 2. cbn [fst snd]. case_decide.
  - apply IH. rewrite collision_speed. rsimpl.
    pose proof (sqrt_pos (mom_x (pull p cells x.2 x.1) / rho (pull p cells x.2 x.1)
                          * (mom_x (pull p cells x.2 x.1) / rho (pull p cells x.2 x.1))
                          + mom_y (pull p cells x.2 x.1) / rho (pull p cells x.2 x.1)
                            * (mom_y (pull p cells x.2 x.1) / rho (pull p cells x.2 x.1)))).
    lra.
  - by apply IH.
Qed.

End ExactMomentum.

(** ** Facts about the examples *)

Module ExFacts.
Import Ex.

Lemma wf_c22 : wf_speed p22 c22.
Proof. intros []; reflexivity. Qed.

Lemma wf_z22 : wf_speed p22 z22.
Proof. intros []; reflexivity. Qed.

Lemma wf_void22 : wf_speed p22 void22.
Proof. intros []; reflexivity. Qed.

Lemma wf_walls22 : wf_obstacles p22 walls22.
Proof. reflexivity. Qed.

Lemma wf_free22 : wf_obstacles p22 free22.
Proof. reflexivity. Qed.

Lemma ny_p22 : 2 <= ny p22.
Proof. simpl. lia. Qed.

Lemma nx_p22 : 0 <= nx p22.
Proof. simpl. lia. Qed.

End ExFacts.

(** * The claims *)

Section Relaxation.
Local Open Scope R_scope.
Implicit Types (p : t_param R) (c cells tmp : t_speed R) (s : stencil R) (d : dir).
Implicit Types (obstacles : list Z) (ii jj : Z).


End Relaxation.


Section Rebound.
Context {F : Type} `{FloatOps F}.
Implicit Types (p : t_param F) (c cells tmp : t_speed F) (d : dir).
Implicit Types (obstacles : list Z) (s : stencil F) (i j ii jj : Z).
Local Open Scope flt_scope.

(** C2: for every obstacle cell, one streamCollide pass leaves in the scratch
    grid, at that cell, the mirrored pulled values: direction 1 holds the
    pulled direction-3 value, 3 holds 1, 2 holds 4, 4 holds 2, 5 holds 7,
    7 holds 5, 6 holds 8 and 8 holds 6. *)
Theorem rebound_mirrors_pulled p cells tmp obstacles ii jj :
  wf_speed p cells -> wf_speed p tmp -> wf_obstacles p obstacles ->
  in_grid p ii jj -> obstacle obstacles (idx p ii jj) ->
  exists av tmp' s,
    stream_collide p cells tmp obstacles = Some (av, tmp')
    /\ propagate p cells jj (y_south p jj) (y_north p jj) ii = Some s
    /\ load D1 tmp' (idx p ii jj) = Some (s3 s)
    /\ load D3 tmp' (idx p ii jj) = Some (s1 s)
    /\ load D2 tmp' (idx p ii jj) = Some (s4 s)
    /\ load D4 tmp' (idx p ii jj) = Some (s2 s)
    /\ load D5 tmp' (idx p ii jj) = Some (s7 s)
    /\ load D7 tmp' (idx p ii jj) = Some (s5 s)
    /\ load D6 tmp' (idx p ii jj) = Some (s8 s)
    /\ load D8 tmp' (idx p ii jj) = Some (s6 s).
Proof.
  intros Hc Ht Ho Hin Hob. apply obstacle_not_fluid in Hob.
  destruct (stream_collide_spec p cells tmp obstacles Hc Ht Ho)
    as (tmp' & Hrun & _ & Hl).
  eexists _, tmp', (pull p cells ii jj).
  split; [exact Hrun|]. split; [by apply propagate_pull|].
  repeat split; rewrite Hl by done; by rewrite cell_out_obstacle.
Qed.

End Rebound.

(** C2 on the walled 2 x 2 example, at its first cell. *)
Lemma rebound_mirrors_pulled_witness :
  wf_speed Ex.p22 Ex.c22 /\ wf_speed Ex.p22 Ex.z22
  /\ wf_obstacles Ex.p22 Ex.walls22 /\ in_grid Ex.p22 0 0
  /\ obstacle Ex.walls22 (idx Ex.p22 0 0)
  /\ exists av tmp' s,
       stream_collide Ex.p22 Ex.c22 Ex.z22 Ex.walls22 = Some (av, tmp')
       /\ propagate Ex.p22 Ex.c22 0 (y_south Ex.p22 0) (y_north Ex.p22 0) 0 = Some s
       /\ load D1 tmp' (idx Ex.p22 0 0) = Some (s3 s)
       /\ load D3 tmp' (idx Ex.p22 0 0) = Some (s1 s).
Proof.
  assert (Hc : wf_speed Ex.p22 Ex.c22) by (intros []; reflexivity).
  assert (Ht : wf_speed Ex.p22 Ex.z22) by (intros []; reflexivity).
  assert (Ho : wf_obstacles Ex.p22 Ex.walls22) by reflexivity.
  assert (Hin : in_grid Ex.p22 0 0) by (unfold in_grid; simpl; lia).
  assert (Hob : obstacle Ex.walls22 (idx Ex.p22 0 0))
    by (exists 1; split; [reflexivity | lia]).
  split; [exact Hc|]. split; [exact Ht|]. split; [exact Ho|].
  split; [exact Hin|]. split; [exact Hob|].
  destruct (rebound_mirrors_pulled Ex.p22 Ex.c22 Ex.z22 Ex.walls22 0 0
              Hc Ht Ho Hin Hob)
    as (av & tmp' & s & Hrun & Hs & H1 & H3 & _).
  exists av, tmp', s. auto.
Defined.

Section AccelerateRow.
Context {F : Type} `{FloatOps F}.
Implicit Types (p : t_param F) (c cells tmp : t_speed F) (d : dir).
Implicit Types (obstacles : list Z) (s : stencil F) (i j ii jj : Z).
Local Open Scope flt_scope.

(** C3: [accelerate_flow] changes only row [ny - 2].  A cell of that row that
    is not an obstacle and has [f3 - w1 > 0], [f6 - w2 > 0] and [f7 - w2 > 0],
    with [w1 = density * accel / 9] and [w2 = density * accel / 36], gets
    [w1] added to direction 1, [w2] added to directions 5 and 8, [w1]
    subtracted from direction 3 and [w2] subtracted from directions 6 and 7;
    every other cell (a failed test, an obstacle, another row) keeps all nine
    values. *)
Theorem accelerate_flow_second_row_only p cells obstacles :
  wf_speed p cells -> wf_obstacles p obstacles -> (2 <= ny p)%Z ->
  let w1 := density p * accel p / #9 in
  let w2 := density p * accel p / #36 in
  exists cells',
    accelerate_flow p cells obstacles = Some cells'
    /\ forall ii jj, in_grid p ii jj ->
       let i := idx p ii jj in
       let applies :=
         bool_decide (jj = (ny p - 2)%Z) && bool_decide (fluid obstacles i)
         && fgt (peek D3 cells i - w1) #0
         && fgt (peek D6 cells i - w2) #0
         && fgt (peek D7 cells i - w2) #0 in
       (applies = true ->
          load D1 cells' i = Some (peek D1 cells i + w1)
          /\ load D5 cells' i = Some (peek D5 cells i + w2)
          /\ load D8 cells' i = Some (peek D8 cells i + w2)
          /\ load D3 cells' i = Some (peek D3 cells i - w1)
          /\ load D6 cells' i = Some (peek D6 cells i - w2)
          /\ load D7 cells' i = Some (peek D7 cells i - w2)
          /\ load D0 cells' i = load D0 cells i
          /\ load D2 cells' i = load D2 cells i
          /\ load D4 cells' i = load D4 cells i)
       /\ (applies = false -> forall d, load d cells' i = load d cells i).
Proof.
  intros Hc Ho Hny w1 w2.
  destruct (accelerate_flow_spec p cells obstacles Hc Ho Hny) as (c' & Hrun & _ & Hl).
  exists c'. split; [exact Hrun|]. intros ii jj Hin i applies.
  pose proof (idx_range p ii jj Hin) as Hi.
  assert (Happ : applies
            = bool_decide (jj = (ny p - 2)%Z)
              && accel_guard (accel_w1 p) (accel_w2 p) cells obstacles i).
  { subst applies. unfold accel_guard. fold w1 w2 (accel_w1 p) (accel_w2 p).
    by rewrite !andb_assoc. }
  assert (Hpk : forall d, load d cells i = Some (peek d cells i))
    by (intros d; by apply (load_peek p)).
  split.
  - intros Ht. rewrite Happ in Ht. apply andb_true_iff in Ht as [Hj Hg].
    apply bool_decide_eq_true in Hj.
    repeat split; subst i; rewrite Hl by done;
      rewrite decide_True by done; rewrite Hg; first [reflexivity | by rewrite Hpk].
  - intros Hf d. rewrite Happ in Hf. subst i. rewrite Hl by done.
    destruct (decide (jj = (ny p - 2)%Z)) as [Hj|Hj]; [|done].
    rewrite bool_decide_eq_true_2 in Hf by done. simpl in Hf. by rewrite Hf.
Qed.

End AccelerateRow.

(** C3 on a 2 x 2 grid without obstacles. *)
Lemma accelerate_flow_second_row_only_witness :
  wf_speed Ex.p22 Ex.c22 /\ wf_obstacles Ex.p22 [0; 0; 0; 0] /\ 2 <= ny Ex.p22
  /\ exists cells', accelerate_flow Ex.p22 Ex.c22 [0; 0; 0; 0] = Some cells'
       /\ load D2 cells' 3 = load D2 Ex.c22 3.
Proof.
  assert (Hwf : wf_speed Ex.p22 Ex.c22) by (intros []; reflexivity).
  assert (Ho : wf_obstacles Ex.p22 [0; 0; 0; 0]) by reflexivity.
  assert (Hny : 2 <= ny Ex.p22) by (simpl; lia).
  split; [exact Hwf|]. split; [exact Ho|]. split; [exact Hny|].
  destruct (accelerate_flow_second_row_only Ex.p22 Ex.c22 [0; 0; 0; 0] Hwf Ho Hny)
    as (c' & Hrun & Hcells).
  exists c'. split; [exact Hrun|].
  assert (Hin : in_grid Ex.p22 1 1) by (unfold in_grid; simpl; lia).
  destruct (Hcells 1 1 Hin) as [_ Hkeep]. by apply Hkeep.
Defined.

Section PeriodicNeighbours.
Context {F : Type} `{FloatOps F}.
Implicit Types (p : t_param F) (c cells tmp : t_speed F) (d : dir).
Implicit Types (obstacles : list Z) (s : stencil F) (i j ii jj : Z).

(** C4, amended: neighbour addressing is periodic in both axes.  The pulled
    east value (direction 1) is read at [(x-1, y)], north at [(x, y-1)], west
    at [(x+1, y)], south at [(x, y+1)], the diagonals likewise, every
    coordinate taken modulo the grid size; so a coordinate of 0 has its
    previous neighbour at [size-1] and a coordinate of [size-1] its next
    neighbour at 0.  In particular the east pull of cell [(0, y)] is the
    direction-1 value at [(nx-1, y)] and the north pull of cell [(x, 0)] the
    direction-2 value at [(x, ny-1)]; the west pull of cell [(nx-1, y)] is
    the direction-3 value at [(0, y)] and the south pull of cell [(x, ny-1)]
    the direction-4 value at [(x, 0)]. *)
Theorem propagate_is_periodic p cells ii jj :
  wf_speed p cells -> in_grid p ii jj ->
  exists s,
    propagate p cells jj (y_south p jj) (y_north p jj) ii = Some s
    /\ load D0 cells (idx p ii jj) = Some (s0 s)
    /\ load D1 cells (idx p ((ii - 1) mod nx p) jj) = Some (s1 s)
    /\ load D2 cells (idx p ii ((jj - 1) mod ny p)) = Some (s2 s)
    /\ load D3 cells (idx p ((ii + 1) mod nx p) jj) = Some (s3 s)
    /\ load D4 cells (idx p ii ((jj + 1) mod ny p)) = Some (s4 s)
    /\ load D5 cells (idx p ((ii - 1) mod nx p) ((jj - 1) mod ny p)) = Some (s5 s)
    /\ load D6 cells (idx p ((ii + 1) mod nx p) ((jj - 1) mod ny p)) = Some (s6 s)
    /\ load D7 cells (idx p ((ii + 1) mod nx p) ((jj + 1) mod ny p)) = Some (s7 s)
    /\ load D8 cells (idx p ((ii - 1) mod nx p) ((jj + 1) mod ny p)) = Some (s8 s)
    /\ (ii = 0 -> load D1 cells (idx p (nx p - 1) jj) = Some (s1 s))
    /\ (jj = 0 -> load D2 cells (idx p ii (ny p - 1)) = Some (s2 s))
    /\ (ii = nx p - 1 -> load D3 cells (idx p 0 jj) = Some (s3 s))
    /\ (jj = ny p - 1 -> load D4 cells (idx p ii 0) = Some (s4 s)).
Proof.
  intros Hwf [Hii Hjj].
  pose proof (x_west_range p ii Hii) as Hw. pose proof (x_east_range p ii Hii) as He.
  pose proof (y_south_range p jj Hjj) as Hs. pose proof (y_north_range p jj Hjj) as Hn.
  exists (pull p cells ii jj). split; [by apply propagate_pull|].
  assert (Hld : forall d a b, 0 <= a < nx p -> 0 <= b < ny p ->
            load d cells (idx p a b) = Some (peek d cells (idx p a b))).
  { intros d a b Ha Hb. apply (load_peek p); [done | by apply idx_range]. }
  rewrite <- (x_west_mod p ii), <- (x_east_mod p ii) by done.
  rewrite <- (y_south_mod p jj), <- (y_north_mod p jj) by done.
  unfold pull; cbn [s0 s1 s2 s3 s4 s5 s6 s7 s8].
  repeat (split; [by apply Hld|]).
  split; [|split; [|split]].
  - intros ->. rewrite Hld by lia.
    replace (x_west p 0) with (nx p - 1); [done|].
    unfold x_west. rewrite decide_True by done. lia.
  - intros ->. rewrite Hld by lia.
    replace (y_south p 0) with (ny p - 1); [done|].
    unfold y_south. rewrite decide_True by done. lia.
  - intros ->. rewrite Hld by lia.
    replace (x_east p (nx p - 1)) with 0; [done|].
    rewrite x_east_mod by lia.
    replace (nx p - 1 + 1) with (nx p) by lia. by rewrite Z.mod_same by lia.
  - intros ->. rewrite Hld by lia.
    replace (y_north p (ny p - 1)) with 0; [done|].
    rewrite y_north_mod by lia.
    replace (ny p - 1 + 1) with (ny p) by lia. by rewrite Z.mod_same by lia.
Qed.

End PeriodicNeighbours.

(** The amended C4 on the 3 x 3 example grid, at its corner cell. *)
Lemma propagate_is_periodic_witness :
  wf_speed Ex.p33 Ex.c33 /\ in_grid Ex.p33 0 0
  /\ exists s,
       propagate Ex.p33 Ex.c33 0 (y_south Ex.p33 0) (y_north Ex.p33 0) 0 = Some s
       /\ load D1 Ex.c33 (idx Ex.p33 (nx Ex.p33 - 1) 0) = Some (s1 s)
       /\ load D2 Ex.c33 (idx Ex.p33 0 (ny Ex.p33 - 1)) = Some (s2 s).
Proof.
  assert (Hwf : wf_speed Ex.p33 Ex.c33) by (intros []; reflexivity).
  assert (Hin : in_grid Ex.p33 0 0) by (unfold in_grid; simpl; lia).
  split; [exact Hwf|]. split; [exact Hin|].
  destruct (propagate_is_periodic Ex.p33 Ex.c33 0 0 Hwf Hin)
    as (s & Hs & _ & _ & _ & _ & _ & _ & _ & _ & _ & H1 & H2 & _).
  exists s. split; [exact Hs|]. split; [by apply H1 | by apply H2].
Defined.

(** C4 as stated fails: on the 3 x 3 grid whose cell [k] holds the value [k],
    the west pull (direction 3) of cell [(0, 0)] is read at [(1, 0)] and its
    south pull (direction 4) at [(0, 1)]; the values at [(nx-1, 0)] and at
    [(0, ny-1)] are other ones. *)
Lemma west_pull_of_first_column_counterexample :
  exists s,
    propagate Ex.p33 Ex.c33 0 (y_south Ex.p33 0) (y_north Ex.p33 0) 0 = Some s
    /\ s3 s = Ex.f 1
    /\ load D3 Ex.c33 (idx Ex.p33 (nx Ex.p33 - 1) 0) = Some (Ex.f 2)
    /\ load D3 Ex.c33 (idx Ex.p33 (nx Ex.p33 - 1) 0) <> Some (s3 s)
    /\ s4 s = Ex.f 3
    /\ load D4 Ex.c33 (idx Ex.p33 0 (ny Ex.p33 - 1)) = Some (Ex.f 6)
    /\ load D4 Ex.c33 (idx Ex.p33 0 (ny Ex.p33 - 1)) <> Some (s4 s).
Proof.
  eexists. split; [vm_compute; reflexivity|].
  repeat split; try (vm_compute; reflexivity); vm_compute; discriminate.
Qed.

Section Conservation.
Local Open Scope R_scope.
Implicit Types (p : t_param R) (c cells tmp : t_speed R) (s : stencil R) (d : dir).
Implicit Types (obstacles : list Z) (ii jj : Z).

(** C5, amended: in exact arithmetic, without obstacles and without
    acceleration, on a grid of at least two rows whose cells all have a
    nonzero pulled local density, the total density after one [timestep]
    equals the total density before. *)
Theorem timestep_conserves_total_density p cells tmp obstacles :
  wf_speed p cells -> wf_speed p tmp -> wf_obstacles p obstacles ->
  (2 <= ny p)%Z ->
  (forall ii jj, in_grid p ii jj -> fluid obstacles (idx p ii jj)) ->
  accel p = 0 ->
  (forall ii jj, in_grid p ii jj -> spec_density p cells ii jj <> 0) ->
  exists av cells' tmp' t,
    timestep p cells tmp obstacles = Some (av, cells', tmp')
    /\ total_density p cells = Some t
    /\ total_density p tmp' = Some t.
Proof.
  intros Hc Ht Ho Hny Hfree Ha Hrho.
  destruct (stream_collide_spec p cells tmp obstacles Hc Ht Ho)
    as (tmp' & Hrun & Ht' & Hl).
  eexists _, cells, tmp', _. split; [|split].
  - unfold timestep. rewrite accelerate_flow_zero_accel by done. osimpl.
    rewrite Hrun. reflexivity.
  - by apply total_density_exact.
  - rewrite total_density_exact by done. f_equal.
    rewrite <- (Rsum_rho_pull p cells). apply Rsum_fmap_ext.
    intros [jj ii] Hin. apply elem_of_grid_cells in Hin. cbn [fst snd] in *.
    assert (Hg : in_grid p ii jj) by (unfold in_grid; lia).
    rewrite (cell_at_ext tmp' (collision p (pull p cells ii jj)).1).
    + apply collision_rho. rewrite rho_pull by done. by apply Hrho.
    + intros d. rewrite Hl by done. by rewrite cell_out_fluid by (by apply Hfree).
Qed.

End Conservation.

(** The amended C5 on the example. *)
Lemma timestep_conserves_total_density_witness :
  wf_speed ExR.p12 ExR.ones12 /\ wf_obstacles ExR.p12 ExR.free12
  /\ 2 <= ny ExR.p12
  /\ (forall ii jj, in_grid ExR.p12 ii jj -> fluid ExR.free12 (idx ExR.p12 ii jj))
  /\ accel ExR.p12 = 0%R
  /\ (forall ii jj, in_grid ExR.p12 ii jj ->
                    spec_density ExR.p12 ExR.ones12 ii jj <> 0%R)
  /\ exists av cells' tmp' t,
       timestep ExR.p12 ExR.ones12 ExR.ones12 ExR.free12 = Some (av, cells', tmp')
       /\ total_density ExR.p12 ExR.ones12 = Some t
       /\ total_density ExR.p12 tmp' = Some t.
Proof.
  assert (Hny : 2 <= ny ExR.p12) by (simpl; lia).
  assert (Hrho : forall ii jj, in_grid ExR.p12 ii jj ->
                   spec_density ExR.p12 ExR.ones12 ii jj <> 0%R)
    by (intros ii jj Hin; rewrite ExRFacts.spec_density_ones12 by exact Hin; lra).
  split; [exact ExRFacts.wf_ones12|]. split; [exact ExRFacts.wf_free12|]. split; [exact Hny|].
  split; [exact ExRFacts.fluid_free12|]. split; [reflexivity|]. split; [exact Hrho|].
  exact (timestep_conserves_total_density ExR.p12 ExR.ones12 ExR.ones12 ExR.free12
           ExRFacts.wf_ones12 ExRFacts.wf_ones12 ExRFacts.wf_free12 Hny ExRFacts.fluid_free12
           eq_refl Hrho).
Defined.

(** C5 as stated fails, in binary32, in two ways.  On the 2 x 2 grid
    [Ex.void22] (no obstacle, no acceleration, no negative value) the total
    density is 4 before the timestep and NaN after it, because cell [(0, 0)]
    pulls nine zeros and divides by their sum.  On the 2 x 2 grid
    [ExRound.near22] (no obstacle, no acceleration) every cell pulls the
    nonzero local density [2^-10], and the total density is [2^-8] before
    the timestep and [8912896 * 2^-32], less than two thirds of it, after:
    the collision cancels numbers some million times larger than the
    density. *)
Lemma total_density_lost_counterexample :
  nx Ex.p22 = 2 /\ ny Ex.p22 = 2 /\ accel Ex.p22 = Ex.f 0
  /\ Ex.free22 = [0; 0; 0; 0]
  /\ (exists av cells' tmp' after,
         timestep Ex.p22 Ex.void22 Ex.z22 Ex.free22 = Some (av, cells', tmp')
         /\ total_density Ex.p22 Ex.void22 = Some (Ex.f 4)
         /\ total_density Ex.p22 tmp' = Some after
         /\ B32.is_nan after = true
         /\ SFeqb (Ex.f 4) after = false)
  /\ (Forall (fun x : Z * Z =>
                pulled_density (pull Ex.p22 ExRound.near22 x.2 x.1) = ExRound.tiny)
         [(0, 0); (0, 1); (1, 0); (1, 1)]
       /\ ExRound.tiny = S754_finite false 8388608 (-33)
       /\ exists av cells' tmp' before after,
            timestep Ex.p22 ExRound.near22 Ex.z22 Ex.free22
            = Some (av, cells', tmp')
            /\ total_density Ex.p22 ExRound.near22 = Some before
            /\ total_density Ex.p22 tmp' = Some after
            /\ before = S754_finite false 8388608 (-31)
            /\ after = S754_finite false 8912896 (-32)
            /\ SFltb (SFmul B32.prec B32.emax (Ex.f 3) after)
                     (SFmul B32.prec B32.emax (Ex.f 2) before) = true).
Proof.
  split; [reflexivity|]. split; [reflexivity|]. split; [reflexivity|].
  split; [reflexivity|]. split.
  - eexists _, _, _, _. split; [vm_compute; reflexivity|].
    split; [vm_compute; reflexivity|]. split; [vm_compute; reflexivity|].
    split; vm_compute; reflexivity.
  - split.
    { repeat (apply Forall_cons_2; [vm_compute; reflexivity|]).
      apply Forall_nil_2. }
    split; [vm_compute; reflexivity|].
    eexists _, _, _, _, _. split; [vm_compute; reflexivity|].
    split; [vm_compute; reflexivity|]. split; [vm_compute; reflexivity|].
    split; [reflexivity|]. split; [reflexivity|]. vm_compute. reflexivity.
Qed.

Section Equilibrium.
Local Open Scope R_scope.
Implicit Types (p : t_param R) (c cells tmp : t_speed R) (s : stencil R) (d : dir).
Implicit Types (obstacles : list Z) (ii jj : Z).

(** C6, amended: in exact arithmetic, with a positive density, at least
    one column and at least two rows, the grid [initialise] builds (every
    cell holding [density * 4/9] in direction 0, [density / 9] in
    directions 1 to 4 and [density / 36] in directions 5 to 8, no obstacle)
    is a fixed point of [timestep] when [accel = 0]: the scratch grid comes
    out equal to it, and the mean velocity returned is 0. *)
Theorem equilibrium_is_fixed_point p alloc tmp alloc_obstacles :
  wf_speed p alloc -> wf_speed p tmp -> wf_obstacles p alloc_obstacles ->
  (1 <= nx p)%Z -> (2 <= ny p)%Z -> density p > 0 -> accel p = 0 ->
  exists cells obstacles,
    initialise p alloc alloc_obstacles = Some (cells, obstacles)
    /\ (forall ii jj, in_grid p ii jj ->
          fluid obstacles (idx p ii jj)
          /\ forall d, load d cells (idx p ii jj) = Some (density p * weight d))
    /\ timestep p cells tmp obstacles = Some (0, cells, cells).
Proof.
  intros Ha Ht Hao Hnx Hny Hd Hacc.
  destruct (initialise_spec p alloc alloc_obstacles Ha Hao)
    as (c & o & Hinit & Hc & Ho & Hcells).
  exists c, o. split; [exact Hinit|]. split.
  { intros ii jj Hin. destruct (Hcells ii jj Hin) as [Hf Hl].
    split; [done|]. intros d. by rewrite Hl, init_value_weight. }
  assert (Hpeek : forall d ii jj, in_grid p ii jj ->
            peek d c (idx p ii jj) = init_value p d).
  { intros d ii jj Hin. apply peek_of_load. by apply Hcells. }
  assert (Hpull : forall ii jj, in_grid p ii jj -> pull p c ii jj = eq_stencil p).
  { intros ii jj [Hii Hjj].
    pose proof (x_west_range p ii Hii). pose proof (x_east_range p ii Hii).
    pose proof (y_south_range p jj Hjj). pose proof (y_north_range p jj Hjj).
    unfold pull, eq_stencil. by rewrite !Hpeek by (by split). }
  destruct (stream_collide_spec p c tmp o Hc Ht Ho) as (tmp' & Hrun & Ht' & Hl).
  assert (Hsame : tmp' = c).
  { apply (speed_ext p); [done | done|]. intros d i Hi.
    destruct (idx_surj p i Hi) as (ii & jj & Hin & ->); [lia|].
    rewrite Hl by done. rewrite cell_out_fluid by (by apply Hcells).
    rewrite Hpull, collision_equilibrium by done. cbn [from_option fst].
    destruct (Hcells ii jj Hin) as [_ Hld]. rewrite Hld. by destruct d. }
  assert (Hav : (pass_acc p c o).1 = 0).
  { unfold pass_acc. apply foldl_acc_step_still. intros [jj ii] Hin.
    apply elem_of_grid_cells in Hin. cbn [fst snd] in *.
    rewrite Hpull by (unfold in_grid; lia). by rewrite collision_equilibrium. }
  assert (Hcount : IZR (pass_acc p c o).2 <> 0).
  { apply not_0_IZR. unfold pass_acc.
    enough (0 < (foldl (acc_step p c o) (of_int 0, 0%Z) (grid_cells (nx p) (ny p))).2)%Z by lia.
    apply acc_count_pos with (x := (0%Z, 0%Z)).
    - apply elem_of_grid_cells. simpl. lia.
    - apply (Hcells 0%Z 0%Z). unfold in_grid. lia. }
  unfold timestep. rewrite accelerate_flow_zero_accel by done. osimpl.
  rewrite Hrun. osimpl. rewrite Hav, Hsame. rsimpl.
  do 3 f_equal. field. exact Hcount.
Qed.

End Equilibrium.

(** C6 on the example: the arrays handed to [initialise] hold anything. *)
Lemma equilibrium_is_fixed_point_witness :
  wf_speed ExR.p12 ExR.ones12 /\ wf_obstacles ExR.p12 ExR.free12
  /\ 1 <= nx ExR.p12 /\ 2 <= ny ExR.p12
  /\ (density ExR.p12 > 0)%R /\ accel ExR.p12 = 0%R
  /\ exists cells obstacles,
       initialise ExR.p12 ExR.ones12 ExR.free12 = Some (cells, obstacles)
       /\ timestep ExR.p12 cells ExR.ones12 obstacles = Some (0%R, cells, cells).
Proof.
  assert (Hnx : 1 <= nx ExR.p12) by (simpl; lia).
  assert (Hny : 2 <= ny ExR.p12) by (simpl; lia).
  assert (Hd : (density ExR.p12 > 0)%R) by (simpl; lra).
  split; [exact ExRFacts.wf_ones12|]. split; [exact ExRFacts.wf_free12|].
  split; [exact Hnx|]. split; [exact Hny|]. split; [exact Hd|]. split; [reflexivity|].
  destruct (equilibrium_is_fixed_point ExR.p12 ExR.ones12 ExR.ones12 ExR.free12
              ExRFacts.wf_ones12 ExRFacts.wf_ones12 ExRFacts.wf_free12 Hnx Hny Hd eq_refl)
    as (c & o & Hinit & _ & Hstep).
  by exists c, o.
Defined.

(** C6 as stated fails in binary32: with [density = 3] and [omega = 1] on
    the 2 x 2 grid without obstacles and without acceleration, the grid
    [initialise] builds holds [11184811 * 2^-23] in direction 0 of every
    cell, and the scratch grid, which the loop of [main] takes as the next
    grid, holds [11184809 * 2^-23] there after one [timestep]: the value
    moved by two units in the last place. *)
Lemma equilibrium_drifts_counterexample :
  nx ExRound.p22d3 = 2 /\ ny ExRound.p22d3 = 2
  /\ density ExRound.p22d3 = Ex.f 3 /\ accel ExRound.p22d3 = Ex.f 0
  /\ exists cells obstacles av cells' tmp',
       initialise ExRound.p22d3 Ex.z22 Ex.walls22 = Some (cells, obstacles)
       /\ obstacles = [0; 0; 0; 0]
       /\ timestep ExRound.p22d3 cells Ex.z22 obstacles = Some (av, cells', tmp')
       /\ load D0 cells (idx ExRound.p22d3 0 0)
          = Some (S754_finite false 11184811 (-23))
       /\ load D0 tmp' (idx ExRound.p22d3 0 0)
          = Some (S754_finite false 11184809 (-23))
       /\ SFeqb (S754_finite false 11184811 (-23))
                (S754_finite false 11184809 (-23)) = false.
Proof.
  split; [reflexivity|]. split; [reflexivity|]. split; [reflexivity|].
  split; [reflexivity|].
  eexists _, _, _, _, _. split; [vm_compute; reflexivity|].
  split; [reflexivity|]. split; [vm_compute; reflexivity|].
  split; [vm_compute; reflexivity|]. split; [vm_compute; reflexivity|].
  vm_compute. reflexivity.
Qed.

Section DiagnosticAgreement.
Local Open Scope R_scope.
Implicit Types (p : t_param R) (c cells tmp : t_speed R) (s : stencil R) (d : dir).
Implicit Types (obstacles : list Z) (ii jj : Z).

(** C7, amended: in exact arithmetic, when every fluid cell has a nonzero
    pulled local density (and there is a fluid cell), [av_velocity] on the
    scratch grid produced by a pass returns the very value the pass
    returned. *)
Theorem av_velocity_agrees_with_pass p cells tmp obstacles :
  wf_speed p cells -> wf_speed p tmp -> wf_obstacles p obstacles ->
  (exists ii jj, in_grid p ii jj /\ fluid obstacles (idx p ii jj)) ->
  (forall ii jj, in_grid p ii jj -> fluid obstacles (idx p ii jj) ->
                 spec_density p cells ii jj <> 0) ->
  exists av tmp',
    stream_collide p cells tmp obstacles = Some (av, tmp')
    /\ av_velocity p tmp' obstacles = Some av.
Proof.
  intros Hc Ht Ho _ Hrho.
  destruct (stream_collide_spec p cells tmp obstacles Hc Ht Ho)
    as (tmp' & Hrun & Ht' & Hl).
  eexists _, tmp'. split; [exact Hrun|].
  rewrite av_velocity_spec by done.
  assert (HA : foldl (av_step p tmp' obstacles) (0, 0%Z) (grid_cells (nx p) (ny p))
               = pass_acc p cells obstacles).
  { unfold pass_acc. apply foldl_ext_in. intros uc [jj ii] Hin.
    apply elem_of_grid_cells in Hin. cbn [fst snd] in Hin.
    assert (Hg : in_grid p ii jj) by (unfold in_grid; lia).
    unfold av_step, acc_step. cbn [fst snd].
    destruct (decide (fluid obstacles (idx p ii jj))) as [Hf|Hf]; [|done].
    rewrite (cell_at_ext tmp' (collision p (pull p cells ii jj)).1).
    - rewrite snapshot_speed_collision; [done|].
      rewrite rho_pull by done. by apply Hrho.
    - intros d. rewrite Hl by done. by rewrite cell_out_fluid. }
  change (@of_int R Exact.ops 0%Z) with 0 in *. by rewrite HA.
Qed.

End DiagnosticAgreement.

(** The amended C7 on the example. *)
Lemma av_velocity_agrees_with_pass_witness :
  wf_speed ExR.p12 ExR.ones12 /\ wf_obstacles ExR.p12 ExR.free12
  /\ (exists ii jj, in_grid ExR.p12 ii jj /\ fluid ExR.free12 (idx ExR.p12 ii jj))
  /\ (forall ii jj, in_grid ExR.p12 ii jj -> fluid ExR.free12 (idx ExR.p12 ii jj) ->
                    spec_density ExR.p12 ExR.ones12 ii jj <> 0%R)
  /\ exists av tmp',
       stream_collide ExR.p12 ExR.ones12 ExR.ones12 ExR.free12 = Some (av, tmp')
       /\ av_velocity ExR.p12 tmp' ExR.free12 = Some av.
Proof.
  assert (Hin : in_grid ExR.p12 0 0) by (unfold in_grid; simpl; lia).
  assert (Hfree : exists ii jj, in_grid ExR.p12 ii jj
                                /\ fluid ExR.free12 (idx ExR.p12 ii jj))
    by (exists 0, 0; split; [exact Hin | reflexivity]).
  assert (Hrho : forall ii jj, in_grid ExR.p12 ii jj ->
                   fluid ExR.free12 (idx ExR.p12 ii jj) ->
                   spec_density ExR.p12 ExR.ones12 ii jj <> 0%R)
    by (intros ii jj Hg _; rewrite ExRFacts.spec_density_ones12 by exact Hg; lra).
  split; [exact ExRFacts.wf_ones12|]. split; [exact ExRFacts.wf_free12|].
  split; [exact Hfree|]. split; [exact Hrho|].
  exact (av_velocity_agrees_with_pass ExR.p12 ExR.ones12 ExR.ones12 ExR.free12
           ExRFacts.wf_ones12 ExRFacts.wf_ones12 ExRFacts.wf_free12 Hfree Hrho).
Defined.

(** C7 as stated fails, in binary32.  On [Ex.void22] (no negative value)
    the pass returns NaN and so does [av_velocity] on the scratch grid, and
    NaN equals nothing, itself included, nor is it within any tolerance of
    anything.  On [Ex.shear22] the pass returns plus infinity and
    [av_velocity] on the scratch grid returns NaN.  On [ExRound.near22],
    where every cell pulls the nonzero local density [2^-10], the pass
    returns 2049 and [av_velocity] on the scratch grid returns
    [13428326 * 2^-12], more than 3278. *)
Lemma av_velocity_disagrees_counterexample :
  (exists ii jj, in_grid Ex.p22 ii jj /\ fluid Ex.free22 (idx Ex.p22 ii jj))
  /\ (exists av tmp' av',
         stream_collide Ex.p22 Ex.void22 Ex.z22 Ex.free22 = Some (av, tmp')
         /\ av_velocity Ex.p22 tmp' Ex.free22 = Some av'
         /\ B32.is_nan av = true /\ B32.is_nan av' = true
         /\ SFeqb av av' = false
         /\ forall tol,
              SFleb (SFabs (SFsub B32.prec B32.emax av av')) tol = false)
  /\ (exists tmp',
         stream_collide Ex.p22 Ex.shear22 Ex.z22 Ex.free22
         = Some (S754_infinity false, tmp')
         /\ av_velocity Ex.p22 tmp' Ex.free22 = Some S754_nan)
  /\ (Forall (fun x : Z * Z =>
                pulled_density (pull Ex.p22 ExRound.near22 x.2 x.1) = ExRound.tiny)
         [(0, 0); (0, 1); (1, 0); (1, 1)]
       /\ ExRound.tiny = S754_finite false 8388608 (-33)
       /\ exists tmp' av',
            stream_collide Ex.p22 ExRound.near22 Ex.z22 Ex.free22
            = Some (Ex.f 2049, tmp')
            /\ av_velocity Ex.p22 tmp' Ex.free22 = Some av'
            /\ av' = S754_finite false 13428326 (-12)
            /\ SFltb (Ex.f 3278) av' = true).
Proof.
  split.
  { exists 0, 0. split; [unfold in_grid; simpl; lia | reflexivity]. }
  split.
  { eexists _, _, _. split; [vm_compute; reflexivity|].
    split; [vm_compute; reflexivity|].
    split; [vm_compute; reflexivity|]. split; [vm_compute; reflexivity|].
    split; [vm_compute; reflexivity|]. intros tol. by destruct tol. }
  split.
  { eexists. split; [vm_compute; reflexivity|]. vm_compute. reflexivity. }
  split.
  { repeat (apply Forall_cons_2; [vm_compute; reflexivity|]).
    apply Forall_nil_2. }
  split; [vm_compute; reflexivity|].
  eexists _, _. split; [vm_compute; reflexivity|].
  split; [vm_compute; reflexivity|]. split; [reflexivity|].
  vm_compute. reflexivity.
Qed.

(** C8, amended: when every cell is an obstacle the pass has no case of its
    own for it; it divides [tot_u = 0.0f] by [(float) tot_cells = 0.0f] and
    returns the quotient, which in IEEE arithmetic is NaN. *)
Theorem all_obstacles_average_is_nan
    (p : t_param B32.t) (cells tmp : t_speed B32.t) (obstacles : list Z) :
  wf_speed p cells -> wf_speed p tmp -> wf_obstacles p obstacles ->
  (forall ii jj, in_grid p ii jj -> obstacle obstacles (idx p ii jj)) ->
  exists tmp', stream_collide p cells tmp obstacles = Some (S754_nan, tmp').
Proof.
  intros Hc Ht Ho Hall.
  destruct (stream_collide_spec p cells tmp obstacles Hc Ht Ho)
    as (tmp' & Hrun & _ & _).
  exists tmp'. rewrite Hrun, pass_acc_no_fluid by done. reflexivity.
Qed.

(** The amended C8 on the walled 2 x 2 example. *)
Lemma all_obstacles_average_is_nan_witness :
  wf_speed Ex.p22 Ex.c22 /\ wf_speed Ex.p22 Ex.z22
  /\ wf_obstacles Ex.p22 Ex.walls22
  /\ exists tmp', stream_collide Ex.p22 Ex.c22 Ex.z22 Ex.walls22
                  = Some (S754_nan, tmp').
Proof.
  assert (Hc : wf_speed Ex.p22 Ex.c22) by (intros []; reflexivity).
  assert (Ht : wf_speed Ex.p22 Ex.z22) by (intros []; reflexivity).
  assert (Ho : wf_obstacles Ex.p22 Ex.walls22) by reflexivity.
  split; [exact Hc|]. split; [exact Ht|]. split; [exact Ho|].
  apply (all_obstacles_average_is_nan Ex.p22 Ex.c22 Ex.z22 Ex.walls22 Hc Ht Ho).
  intros ii jj [Hii Hjj]. simpl in Hii, Hjj.
  assert (Hcases : (ii = 0 \/ ii = 1) /\ (jj = 0 \/ jj = 1)) by lia.
  destruct Hcases as [[-> | ->] [-> | ->]];
    (exists 1; split; [reflexivity | lia]).
Defined.

(** C8 as stated fails: on the 2 x 2 grid whose four cells are obstacles
    [timestep] returns NaN, the quotient its pass computes, not a defined
    value. *)
Lemma all_obstacles_counterexample :
  nx Ex.p22 = 2 /\ ny Ex.p22 = 2 /\ Ex.walls22 = [1; 1; 1; 1]
  /\ exists av cells' tmp',
       timestep Ex.p22 Ex.c22 Ex.z22 Ex.walls22 = Some (av, cells', tmp')
       /\ stream_collide Ex.p22 cells' Ex.z22 Ex.walls22 = Some (av, tmp')
       /\ B32.is_nan av = true.
Proof.
  split; [reflexivity|]. split; [reflexivity|]. split; [reflexivity|].
  eexists _, _, _. split; [vm_compute; reflexivity|].
  split; [vm_compute; reflexivity|]. vm_compute. reflexivity.
Qed.

Section RestEntry.
Context {F : Type} `{FloatOps F}.
Implicit Types (p : t_param F) (c cells tmp : t_speed F) (d : dir).
Implicit Types (obstacles : list Z) (s : stencil F) (i j ii jj : Z).
Local Open Scope flt_scope.

(** C9: an obstacle cell gets its scratch directions 1 to 8 from the pulled
    values and keeps in scratch direction 0 whatever was there before the
    pass; a fluid cell gets its scratch direction 0 from the rest value read
    in the current grid, relaxed by the collision. *)
Theorem obstacle_rest_entry_is_stale p cells tmp obstacles :
  wf_speed p cells -> wf_speed p tmp -> wf_obstacles p obstacles ->
  exists av tmp',
    stream_collide p cells tmp obstacles = Some (av, tmp')
    /\ forall ii jj, in_grid p ii jj ->
       exists s,
         propagate p cells jj (y_south p jj) (y_north p jj) ii = Some s
         /\ load D0 cells (idx p ii jj) = Some (s0 s)
         /\ (obstacle obstacles (idx p ii jj) ->
               load D0 tmp' (idx p ii jj) = load D0 tmp (idx p ii jj)
               /\ forall d, d <> D0 -> load d tmp' (idx p ii jj) = mirror s d)
         /\ (fluid obstacles (idx p ii jj) ->
               load D0 tmp' (idx p ii jj) = Some (s0 (collision p s).1)).
Proof.
  intros Hc Ht Ho.
  destruct (stream_collide_spec p cells tmp obstacles Hc Ht Ho)
    as (tmp' & Hrun & _ & Hl).
  eexists _, tmp'. split; [exact Hrun|]. intros ii jj Hin.
  exists (pull p cells ii jj). split; [by apply propagate_pull|].
  split; [apply (load_peek p); [done | by apply idx_range]|].
  split.
  - intros Hob. apply obstacle_not_fluid in Hob. split.
    + rewrite Hl by done. by rewrite cell_out_obstacle.
    + intros d Hd. rewrite Hl by done. rewrite cell_out_obstacle by done.
      by destruct d.
  - intros Hf. rewrite Hl by done. by rewrite cell_out_fluid.
Qed.

End RestEntry.

(** C9 on the walled 2 x 2 example, at its first cell. *)
Lemma obstacle_rest_entry_is_stale_witness :
  wf_speed Ex.p22 Ex.c22 /\ wf_speed Ex.p22 Ex.z22
  /\ wf_obstacles Ex.p22 Ex.walls22
  /\ exists av tmp',
       stream_collide Ex.p22 Ex.c22 Ex.z22 Ex.walls22 = Some (av, tmp')
       /\ load D0 tmp' (idx Ex.p22 0 0) = load D0 Ex.z22 (idx Ex.p22 0 0).
Proof.
  assert (Hc : wf_speed Ex.p22 Ex.c22) by (intros []; reflexivity).
  assert (Ht : wf_speed Ex.p22 Ex.z22) by (intros []; reflexivity).
  assert (Ho : wf_obstacles Ex.p22 Ex.walls22) by reflexivity.
  split; [exact Hc|]. split; [exact Ht|]. split; [exact Ho|].
  destruct (obstacle_rest_entry_is_stale Ex.p22 Ex.c22 Ex.z22 Ex.walls22 Hc Ht Ho)
    as (av & tmp' & Hrun & Hcells).
  exists av, tmp'. split; [exact Hrun|].
  assert (Hin : in_grid Ex.p22 0 0) by (unfold in_grid; simpl; lia).
  destruct (Hcells 0 0 Hin) as (s & _ & _ & Hobst & _).
  apply Hobst. exists 1. split; [reflexivity | lia].
Defined.


Section AccelerateDensity.
Local Open Scope R_scope.
Implicit Types (p : t_param R) (c cells tmp : t_speed R) (s : stencil R) (d : dir).
Implicit Types (obstacles : list Z) (ii jj : Z).

(** C10: [accelerate_flow] leaves the local density of every cell unchanged
    (an updated cell gains [w1 + w2 + w2] on directions 1, 5, 8 and loses as
    much on directions 3, 6, 7; any other cell is untouched), and so also
    the total density of the grid. *)
Theorem accelerate_flow_preserves_density p cells obstacles :
  wf_speed p cells -> wf_obstacles p obstacles -> (2 <= ny p)%Z ->
  exists cells',
    accelerate_flow p cells obstacles = Some cells'
    /\ (forall ii jj, in_grid p ii jj ->
          rho (cell_at cells' (idx p ii jj)) = rho (cell_at cells (idx p ii jj)))
    /\ exists t, total_density p cells = Some t
                 /\ total_density p cells' = Some t.
Proof.
  intros Hc Ho Hny.
  destruct (accelerate_flow_spec p cells obstacles Hc Ho Hny) as (c' & Hrun & Hc' & Hl).
  assert (Hcell : forall ii jj, in_grid p ii jj ->
            rho (cell_at c' (idx p ii jj)) = rho (cell_at cells (idx p ii jj))).
  { intros ii jj Hin. pose proof (idx_range p ii jj Hin) as Hi.
    destruct (decide (jj = (ny p - 2)%Z
                      /\ accel_guard (accel_w1 p) (accel_w2 p) cells obstacles
                           (idx p ii jj) = true)) as [[Hj Hg]|Hn].
    - rewrite (cell_at_ext c'
                 {| s0 := accel_delta (accel_w1 p) (accel_w2 p) D0 (peek D0 cells (idx p ii jj));
                    s1 := accel_delta (accel_w1 p) (accel_w2 p) D1 (peek D1 cells (idx p ii jj));
                    s2 := accel_delta (accel_w1 p) (accel_w2 p) D2 (peek D2 cells (idx p ii jj));
                    s3 := accel_delta (accel_w1 p) (accel_w2 p) D3 (peek D3 cells (idx p ii jj));
                    s4 := accel_delta (accel_w1 p) (accel_w2 p) D4 (peek D4 cells (idx p ii jj));
                    s5 := accel_delta (accel_w1 p) (accel_w2 p) D5 (peek D5 cells (idx p ii jj));
                    s6 := accel_delta (accel_w1 p) (accel_w2 p) D6 (peek D6 cells (idx p ii jj));
                    s7 := accel_delta (accel_w1 p) (accel_w2 p) D7 (peek D7 cells (idx p ii jj));
                    s8 := accel_delta (accel_w1 p) (accel_w2 p) D8 (peek D8 cells (idx p ii jj)) |}).
      + unfold rho at 1. cbn [s0 s1 s2 s3 s4 s5 s6 s7 s8].
        apply (accel_delta_sum _ _ (cell_at cells (idx p ii jj))).
      + intros d. rewrite Hl by done. rewrite decide_True by done. rewrite Hg.
        by destruct d.
    - f_equal. apply cell_at_ext. intros d. rewrite Hl by done.
      assert (Hsame : load d cells (idx p ii jj)
                      = Some (sget d (cell_at cells (idx p ii jj)))).
      { rewrite (load_peek p) by done. by destruct d. }
      destruct (decide (jj = (ny p - 2)%Z)) as [Hj|Hj]; [|done].
      destruct (accel_guard _ _ _ _ _) eqn:Hg; [tauto | done]. }
  exists c'. split; [exact Hrun|]. split; [exact Hcell|].
  eexists. split; [by apply total_density_exact|].
  rewrite total_density_exact by done. f_equal.
  apply Rsum_fmap_ext. intros [jj ii] Hin. apply elem_of_grid_cells in Hin.
  simpl in *. apply Hcell. unfold in_grid. lia.
Qed.

End AccelerateDensity.

(** C10 on the example. *)
Lemma accelerate_flow_preserves_density_witness :
  wf_speed ExR.p12 ExR.ones12 /\ wf_obstacles ExR.p12 ExR.free12
  /\ 2 <= ny ExR.p12
  /\ exists cells' t,
       accelerate_flow ExR.p12 ExR.ones12 ExR.free12 = Some cells'
       /\ total_density ExR.p12 ExR.ones12 = Some t
       /\ total_density ExR.p12 cells' = Some t.
Proof.
  assert (Hny : 2 <= ny ExR.p12) by (simpl; lia).
  split; [exact ExRFacts.wf_ones12|]. split; [exact ExRFacts.wf_free12|]. split; [exact Hny|].
  destruct (accelerate_flow_preserves_density ExR.p12 ExR.ones12 ExR.free12
              ExRFacts.wf_ones12 ExRFacts.wf_free12 Hny) as (c' & Hrun & _ & t & Ht & Ht').
  by exists c', t.
Defined.

(** * The program beyond the kernel *)

(** ** Any arithmetic *)

Section StepProperties.
Context {F : Type} `{FloatOps F}.
Implicit Types (p : t_param F) (c cells tmp : t_speed F) (d : dir).
Implicit Types (obstacles : list Z) (s : stencil F) (i j ii jj : Z).
Implicit Types (avs av_vels : list F).
Local Open Scope flt_scope.

(** X1: on a grid of at least two rows whose arrays all hold [nx * ny]
    values, [timestep] reads and writes inside the arrays only: it returns,
    and the two grids it leaves still hold [nx * ny] values per array. *)
Theorem timestep_stays_in_bounds p cells tmp obstacles :
  wf_speed p cells -> wf_speed p tmp -> wf_obstacles p obstacles ->
  (2 <= ny p)%Z ->
  exists av cells' tmp',
    timestep p cells tmp obstacles = Some (av, cells', tmp')
    /\ wf_speed p cells' /\ wf_speed p tmp'.
Proof.
  intros Hc Ht Ho Hny.
  destruct (timestep_spec p cells tmp obstacles Hc Ht Ho Hny)
    as (c' & tmp' & _ & _ & Hrun & Hc' & Ht').
  by eexists _, c', tmp'.
Qed.

(** X2: on a grid of fewer than two rows (and at least one column)
    [accelerate_flow] addresses row [ny - 2 < 0]: its first access is
    before the start of the obstacle array, and so is [timestep]'s. *)
Theorem timestep_single_row_leaves_arrays p cells tmp obstacles :
  (ny p < 2)%Z -> (1 <= nx p)%Z ->
  accelerate_flow p cells obstacles = None
  /\ timestep p cells tmp obstacles = None.
Proof.
  intros Hny Hnx.
  pose proof (accelerate_flow_out_of_range p cells obstacles Hny Hnx) as Hacc.
  split; [done|]. unfold timestep. by rewrite Hacc.
Qed.

(** X3: the iteration loop of [main] stays inside its arrays, and writes
    every entry of [av_vels]: whatever the array held when it was
    allocated, the loop ends with the same grids and the same recorded
    averages. *)
Theorem main_loop_overwrites_av_vels p cells tmp obstacles avs avs' :
  wf_speed p cells -> wf_speed p tmp -> wf_obstacles p obstacles ->
  (2 <= ny p)%Z ->
  Z.of_nat (length avs) = maxIters p -> Z.of_nat (length avs') = maxIters p ->
  exists cells1 tmp1 avs1,
    main_loop p cells tmp obstacles avs = Some (cells1, tmp1, avs1)
    /\ main_loop p cells tmp obstacles avs' = Some (cells1, tmp1, avs1)
    /\ wf_speed p cells1 /\ wf_speed p tmp1
    /\ Z.of_nat (length avs1) = maxIters p.
Proof.
  intros Hc Ht Ho Hny Hlen Hlen'.
  pose (I := fun (pre : list Z) (st st' : t_speed F * t_speed F * list F) =>
    st.1 = st'.1 /\ wf_speed p st.1.1 /\ wf_speed p st.1.2
    /\ Z.of_nat (length st.2) = maxIters p
    /\ Z.of_nat (length st'.2) = maxIters p
    /\ forall i, i ∈ pre -> rd st.2 i = rd st'.2 i).
  unfold main_loop, for_range. rewrite Z.sub_0_r.
  destruct (for_each_ind2 (main_iteration p obstacles) (main_iteration p obstacles)
              I (seqZ 0 (maxIters p)) (cells, tmp, avs) (cells, tmp, avs'))
    as ([[c1 t1] a1] & [[c1' t1'] a1'] & Hrun & Hrun' & HI).
  - split; [done|]. split; [done|]. split; [done|]. split; [done|].
    split; [done|]. intros i Hi. by apply not_elem_of_nil in Hi.
  - intros pre tt post [[x t] a] [[x' t'] a']
      Hseq (Heq & Hx & Hwt & Hla & Hla' & Hrd).
    cbn [fst snd] in *. injection Heq as <- <-.
    apply elem_of_seqZ_middle in Hseq as [Htt _].
    destruct (timestep_spec p x t obstacles Hx Hwt Ho Hny)
      as (y & u & _ & _ & Hy & Hwy & Hwu).
    eexists (u, y, <[Z.to_nat tt := _]> a), (u, y, <[Z.to_nat tt := _]> a').
    unfold main_iteration. rewrite Hy. osimpl.
    rewrite !wr_in_range by lia. osimpl.
    split; [reflexivity|]. split; [reflexivity|]. unfold I. cbn [fst snd].
    rewrite !length_insert.
    split; [done|]. split; [done|]. split; [done|]. split; [done|].
    split; [done|].
    intros i Hi. rewrite !rd_insert by lia. case_decide; [done|].
    apply Hrd. apply elem_of_app in Hi as [Hi|Hi]; [done|].
    apply list_elem_of_singleton in Hi. done.
  - destruct HI as (Heq & Hw1 & Hwt1 & Hl1 & Hl1' & Hrd).
    cbn [fst snd] in *. injection Heq as <- <-.
    assert (Ha : a1 = a1').
    { apply rd_ext; [lia|]. intros i Hi. apply Hrd. apply elem_of_seqZ. lia. }
    subst a1'. by exists c1, t1, a1.
Qed.

(** X4: the pass never writes the rest entry (direction 0) of an obstacle
    cell and [accelerate_flow] never touches an obstacle cell, so these
    entries only travel with the exchange of the two grids: after the
    [maxIters] iterations the grid [cells] holds there what it held at the
    start if [maxIters] is even, and what the scratch grid held at the start
    if [maxIters] is odd. *)
Theorem main_loop_swaps_obstacle_rest_entries p cells tmp obstacles avs :
  wf_speed p cells -> wf_speed p tmp -> wf_obstacles p obstacles ->
  (2 <= ny p)%Z -> Z.of_nat (length avs) = maxIters p ->
  exists cells1 tmp1 avs1,
    main_loop p cells tmp obstacles avs = Some (cells1, tmp1, avs1)
    /\ forall ii jj, in_grid p ii jj -> obstacle obstacles (idx p ii jj) ->
         load D0 cells1 (idx p ii jj)
         = load D0 (if Nat.even (Z.to_nat (maxIters p)) then cells else tmp)
             (idx p ii jj)
         /\ load D0 tmp1 (idx p ii jj)
            = load D0 (if Nat.even (Z.to_nat (maxIters p)) then tmp else cells)
                (idx p ii jj).
Proof.
  intros Hc Ht Ho Hny Hlen.
  pose (I := fun (pre : list Z) (st : t_speed F * t_speed F * list F) =>
    wf_speed p st.1.1 /\ wf_speed p st.1.2
    /\ Z.of_nat (length st.2) = maxIters p
    /\ forall ii jj, in_grid p ii jj -> obstacle obstacles (idx p ii jj) ->
         load D0 st.1.1 (idx p ii jj)
         = load D0 (if Nat.even (length pre) then cells else tmp) (idx p ii jj)
         /\ load D0 st.1.2 (idx p ii jj)
            = load D0 (if Nat.even (length pre) then tmp else cells) (idx p ii jj)).
  unfold main_loop, for_range. rewrite Z.sub_0_r.
  destruct (for_each_ind (main_iteration p obstacles) I
              (seqZ 0 (maxIters p)) (cells, tmp, avs))
    as ([[c1 t1] a1] & Hrun & HI).
  - split; [done|]. split; [done|]. split; [done|]. done.
  - intros pre tt post [[x t] a] Hseq (Hx & Hwt & Hla & Hrest).
    cbn [fst snd] in *.
    apply elem_of_seqZ_middle in Hseq as [Htt _].
    destruct (timestep_rest_entries p x t obstacles Hx Hwt Ho Hny)
      as (av & y & u & Hy & Hwy & Hwu & Hyu).
    exists (u, y, <[Z.to_nat tt := av]> a).
    unfold main_iteration. rewrite Hy. osimpl.
    rewrite wr_in_range by lia. osimpl.
    split; [done|]. unfold I. cbn [fst snd]. rewrite length_insert.
    split; [done|]. split; [done|]. split; [done|].
    intros ii jj Hin Hob.
    destruct (Hyu ii jj Hin Hob) as [Hy0 Hu0].
    destruct (Hrest ii jj Hin Hob) as [Hx0 Ht0].
    rewrite Hy0, Hu0, Hx0, Ht0.
    rewrite length_app. cbn [length]. rewrite Nat.add_1_r, Nat.even_succ.
    rewrite <- Nat.negb_even. by destruct (Nat.even (length pre)).
  - destruct HI as (_ & _ & _ & Hrest). cbn [fst snd] in *.
    exists c1, t1, a1. split; [done|].
    rewrite length_seqZ in Hrest. exact Hrest.
Qed.

(** X5: the pass overwrites the scratch grid: the average it returns and
    every value of the scratch grid after it, except the rest entries of the
    obstacle cells, are the same whatever the scratch grid held before. *)
Theorem stream_collide_overwrites_scratch p cells tmp tmp' obstacles :
  wf_speed p cells -> wf_speed p tmp -> wf_speed p tmp' ->
  wf_obstacles p obstacles ->
  exists av t t',
    stream_collide p cells tmp obstacles = Some (av, t)
    /\ stream_collide p cells tmp' obstacles = Some (av, t')
    /\ forall d ii jj, in_grid p ii jj ->
         d <> D0 \/ fluid obstacles (idx p ii jj) ->
         load d t (idx p ii jj) = load d t' (idx p ii jj).
Proof.
  intros Hc Ht Ht' Ho.
  destruct (stream_collide_same p obstacles cells cells tmp tmp' Hc Hc Ht Ht' Ho
              (same_flow_refl p obstacles cells))
    as (av & t & t' & Hrun & Hrun' & _ & _ & Hs).
  by exists av, t, t'.
Qed.

(** X6: [accelerate_flow] leaves no west-side value (directions 3, 6, 7)
    that it changes at or below zero: after it, each such value of each cell
    is either what it was, or greater than zero. *)
Theorem accelerate_flow_keeps_west_positive p cells obstacles :
  wf_speed p cells -> wf_obstacles p obstacles -> (2 <= ny p)%Z ->
  exists cells',
    accelerate_flow p cells obstacles = Some cells'
    /\ forall d ii jj, in_grid p ii jj -> d = D3 \/ d = D6 \/ d = D7 ->
         load d cells' (idx p ii jj) = load d cells (idx p ii jj)
         \/ exists v, load d cells' (idx p ii jj) = Some v /\ fgt v #0 = true.
Proof.
  intros Hc Ho Hny.
  destruct (accelerate_flow_spec p cells obstacles Hc Ho Hny) as (c' & Hrun & _ & Hl).
  exists c'. split; [done|]. intros d ii jj Hin Hd. rewrite Hl by done.
  case_decide as Hj; [|by left].
  destruct (accel_guard _ _ _ _ _) eqn:Hg; [|by left].
  right. eexists. split; [reflexivity|].
  unfold accel_guard in Hg.
  apply andb_prop in Hg as [Hg H7]. apply andb_prop in Hg as [Hg H6].
  apply andb_prop in Hg as [_ H3].
  by destruct Hd as [-> | [-> | ->]].
Qed.

(** X7: the fill loop of [initialise] overwrites all it is given: the grid
    and the obstacle array it leaves are the same whatever the allocated
    arrays held. *)
Theorem initialise_ignores_allocated_contents p a a' o o' :
  wf_speed p a -> wf_speed p a' -> wf_obstacles p o -> wf_obstacles p o' ->
  (0 <= nx p)%Z ->
  exists cells obstacles,
    initialise p a o = Some (cells, obstacles)
    /\ initialise p a' o' = Some (cells, obstacles).
Proof.
  intros Ha Ha' Ho Ho' Hnx.
  destruct (initialise_same p a a' o o' Ha Ha' Ho Ho' Hnx)
    as (c & b & Hrun & Hrun' & _).
  by exists c, b.
Qed.

(** X8: [write_values] stays inside the arrays and writes one line per
    cell, row by row.  The line of an obstacle cell has velocity 0 and
    pressure [density * c_sq]; the line of a fluid cell has the speed
    [av_velocity] computes for the cell and pressure [local_density * c_sq];
    the last column is the cell's flag.  The lines of the second file pair
    each iteration number with its entry of [av_vels]. *)
Theorem write_values_lines p cells obstacles av_vels :
  wf_speed p cells -> wf_obstacles p obstacles ->
  Z.of_nat (length av_vels) = maxIters p ->
  exists final_state av_lines,
    write_values p cells obstacles av_vels = Some (final_state, av_lines)
    /\ (fun l => (line_jj l, line_ii l)) <$> final_state
       = grid_cells (nx p) (ny p)
    /\ (forall l, l ∈ final_state ->
          let i := idx p (line_ii l) (line_jj l) in
          rd obstacles i = Some (line_obstacle l)
          /\ (line_obstacle l <> 0%Z ->
                line_u_x l = #0 /\ line_u_y l = #0 /\ line_u l = #0
                /\ line_pressure l = density p * (#1 / #3))
          /\ (line_obstacle l = 0%Z ->
                line_u l = snapshot_speed (cell_at cells i)
                /\ line_pressure l = add_cell #0 (cell_at cells i) * (#1 / #3)))
    /\ av_lines = zip (seqZ 0 (maxIters p)) av_vels.
Proof.
  intros Hc Ho Hlen. eexists _, _.
  split; [by apply write_values_spec|]. split; [|split; [|done]].
  - rewrite <- list_fmap_compose. rewrite <- (list_fmap_id (grid_cells _ _)) at 2.
    apply list_fmap_ext. intros k [jj ii] _. unfold line_of. cbv zeta.
    cbn [compose fst snd]. by case_decide.
  - intros l Hl. apply list_elem_of_fmap in Hl as ([jj ii] & -> & Hin).
    apply elem_of_grid_cells in Hin. cbn [fst snd] in Hin.
    assert (Hi : (0 <= idx p ii jj < nx p * ny p)%Z)
      by (apply idx_range; unfold in_grid; lia).
    destruct (rd_obstacles p obstacles _ Ho Hi) as [ob Hob].
    unfold line_of. cbv zeta. cbn [fst snd]. rewrite Hob.
    cbn [from_option]; unfold Datatypes.id.
    case_decide as Hne; cbn [line_ii line_jj line_obstacle line_u_x line_u_y
                              line_u line_pressure]; rewrite Hob.
    + split; [done|]. split; [done|]. intros Hz. done.
    + split; [done|]. split; [intros Hz; done|]. intros _. done.
Qed.

(** X9: the value [av_velocity] returns for a grid is the mean of the speed
    column of the lines [write_values] writes for it, taken over the lines
    of the fluid cells (flag 0). *)
Theorem av_velocity_is_mean_of_written_speeds p cells obstacles av_vels :
  wf_speed p cells -> wf_obstacles p obstacles ->
  Z.of_nat (length av_vels) = maxIters p ->
  exists final_state av_lines,
    write_values p cells obstacles av_vels = Some (final_state, av_lines)
    /\ av_velocity p cells obstacles
       = Some ((foldl mean_step (#0, 0%Z) final_state).1
               / of_int (foldl mean_step (#0, 0%Z) final_state).2).
Proof.
  intros Hc Ho Hlen. eexists _, _.
  split; [by apply write_values_spec|].
  rewrite av_velocity_spec by done. rewrite foldl_fmap.
  assert (Hfold : foldl (av_step p cells obstacles) (#0, 0%Z) (grid_cells (nx p) (ny p))
                  = foldl (fun a b => mean_step a (line_of p cells obstacles b))
                      (#0, 0%Z) (grid_cells (nx p) (ny p))).
  { apply foldl_ext_in. intros uc [jj ii] Hin.
    apply elem_of_grid_cells in Hin. cbn [fst snd] in Hin.
    assert (Hi : (0 <= idx p ii jj < nx p * ny p)%Z)
      by (apply idx_range; unfold in_grid; lia).
    destruct (rd_obstacles p obstacles _ Ho Hi) as [ob Hob].
    unfold av_step, mean_step. cbn [fst snd].
    destruct (decide (fluid obstacles (idx p ii jj))) as [Hf|Hf].
    - rewrite (line_of_fluid p cells obstacles ii jj Hf).
      cbn [line_obstacle line_u]. by rewrite decide_True by done.
    - assert (Hne : ob <> 0%Z) by (intros ->; by apply Hf).
      rewrite (line_of_obstacle p cells obstacles ii jj ob Hob Hne).
      cbn [line_obstacle]. by rewrite decide_False by done. }
  by rewrite Hfold.
Qed.

(** X16: the loop that reads the obstacle file checks every line before it
    writes: on an obstacle array of [nx * ny] entries it never writes
    outside the array; it ends normally exactly when every line read has
    three values, names a cell of the grid and has the flag 1, and in [die]
    otherwise. *)
Theorem load_obstacles_checks_every_line p (file : list scan) obstacles :
  wf_obstacles p obstacles ->
  (Forall (good_line p) (read_lines file)
   /\ exists obstacles',
        load_obstacles p file obstacles = Done obstacles'
        /\ wf_obstacles p obstacles')
  \/ (~ Forall (good_line p) (read_lines file)
      /\ exists message, load_obstacles p file obstacles = Died message).
Proof.
  intros Ho.
  destruct (load_obstacles_spec p file obstacles Ho)
    as [(Hall & o' & Hrun & Ho' & _) | (Hbad & m & Hrun)].
  - left. split; [done|]. by exists o'.
  - right. split; [done|]. by exists m.
Qed.

(** X17: after the fill loop of [initialise] and the obstacle file, the
    obstacle array holds 1 at the cells the file names and 0 at every other
    cell of the grid, whatever the allocated arrays held. *)
Theorem initialise_marks_named_cells p (file : list scan) a o :
  wf_speed p a -> wf_obstacles p o ->
  exists cells obstacles,
    initialise p a o = Some (cells, obstacles)
    /\ forall obstacles',
         load_obstacles p file obstacles = Done obstacles' ->
         forall ii jj, in_grid p ii jj ->
           rd obstacles' (idx p ii jj)
           = Some (if decide (Exists (names_cell ii jj) (read_lines file))
                   then 1%Z else 0%Z).
Proof.
  intros Ha Ho.
  destruct (initialise_spec p a o Ha Ho) as (c & b & Hrun & _ & Hb & Hl).
  exists c, b. split; [done|]. intros o' Hload ii jj Hin.
  destruct (load_obstacles_spec p file b Hb)
    as [(_ & o1 & Hrun1 & _ & Hrd) | (_ & m & Hrun1)];
    rewrite Hrun1 in Hload; [|done].
  injection Hload as <-. rewrite Hrd by done.
  case_decide; [done|]. by destruct (Hl ii jj Hin) as [Hf _].
Qed.

(** X18: with arrays of the sizes [initialise] allocates and a grid of at
    least two rows, the whole run stays inside its arrays: it ends in [die]
    when the obstacle file has a bad line, and otherwise it ends normally,
    with a Reynolds number and the lines of its two files. *)
Theorem main_stays_in_bounds p (file : list scan) cells tmp obstacles av_vels :
  wf_speed p cells -> wf_speed p tmp -> wf_obstacles p obstacles ->
  Z.of_nat (length av_vels) = maxIters p -> (2 <= ny p)%Z ->
  (Forall (good_line p) (read_lines file)
   /\ exists out, main p file cells tmp obstacles av_vels = Done out)
  \/ (~ Forall (good_line p) (read_lines file)
      /\ exists message, main p file cells tmp obstacles av_vels = Died message).
Proof.
  intros Hc Ht Ho Hlen Hny.
  by destruct (main_same p file cells cells tmp tmp obstacles obstacles av_vels av_vels
                 Hc Hc Ht Ht Ho Ho Hlen Hlen Hny) as [_ Hout].
Qed.

(** X19: nothing the run reports depends on what the allocated arrays
    held.  [initialise] never fills the scratch grid, and the rest entries
    of its obstacle cells stay as allocated throughout; but the Reynolds
    number and the lines of both files come out the same for any contents
    of the four arrays. *)
Theorem main_ignores_allocated_contents p (file : list scan)
    cells cells' tmp tmp' obstacles obstacles' av_vels av_vels' :
  wf_speed p cells -> wf_speed p cells' -> wf_speed p tmp -> wf_speed p tmp' ->
  wf_obstacles p obstacles -> wf_obstacles p obstacles' ->
  Z.of_nat (length av_vels) = maxIters p ->
  Z.of_nat (length av_vels') = maxIters p ->
  (2 <= ny p)%Z ->
  main p file cells tmp obstacles av_vels
  = main p file cells' tmp' obstacles' av_vels'.
Proof.
  intros Hc Hc' Ht Ht' Ho Ho' Hlen Hlen' Hny.
  by destruct (main_same p file cells cells' tmp tmp' obstacles obstacles'
                 av_vels av_vels' Hc Hc' Ht Ht' Ho Ho' Hlen Hlen' Hny) as [Heq _].
Qed.

End StepProperties.

(** ** Exact arithmetic *)

Section ExactProperties.
Local Open Scope R_scope.
Implicit Types (p : t_param R) (c cells tmp : t_speed R) (s : stencil R) (d : dir).
Implicit Types (obstacles : list Z) (ii jj : Z).

(** X10: in exact arithmetic the collision conserves mass and momentum
    cell by cell: at a fluid cell whose pulled values have a nonzero sum,
    the nine values the pass stores have the same sum, the same x momentum
    and the same y momentum as the nine values it pulled. *)
Theorem stream_collide_conserves_cell_momentum p cells tmp obstacles :
  wf_speed p cells -> wf_speed p tmp -> wf_obstacles p obstacles ->
  exists av tmp',
    stream_collide p cells tmp obstacles = Some (av, tmp')
    /\ forall ii jj s,
         in_grid p ii jj -> fluid obstacles (idx p ii jj) ->
         propagate p cells jj (y_south p jj) (y_north p jj) ii = Some s ->
         rho s <> 0 ->
         rho (cell_at tmp' (idx p ii jj)) = rho s
         /\ mom_x (cell_at tmp' (idx p ii jj)) = mom_x s
         /\ mom_y (cell_at tmp' (idx p ii jj)) = mom_y s.
Proof.
  intros Hc Ht Ho.
  destruct (stream_collide_spec p cells tmp obstacles Hc Ht Ho)
    as (tmp' & Hrun & _ & Hl).
  eexists _, tmp'. split; [exact Hrun|]. intros ii jj s Hin Hf Hs Hrho.
  rewrite propagate_pull in Hs by done. injection Hs as <-.
  rewrite (cell_at_ext tmp' (collision p (pull p cells ii jj)).1).
  - split; [by apply collision_rho|].
    split; [by apply collision_mom_x | by apply collision_mom_y].
  - intros d. rewrite Hl by done. by rewrite cell_out_fluid.
Qed.

(** X11: in exact arithmetic the rebound reverses the momentum: at an
    obstacle cell the values the pass stores in directions 1 to 8 have the
    opposite x and y momentum of the values it pulled. *)
Theorem rebound_reverses_momentum p cells tmp obstacles :
  wf_speed p cells -> wf_speed p tmp -> wf_obstacles p obstacles ->
  exists av tmp',
    stream_collide p cells tmp obstacles = Some (av, tmp')
    /\ forall ii jj s,
         in_grid p ii jj -> obstacle obstacles (idx p ii jj) ->
         propagate p cells jj (y_south p jj) (y_north p jj) ii = Some s ->
         mom_x (cell_at tmp' (idx p ii jj)) = - mom_x s
         /\ mom_y (cell_at tmp' (idx p ii jj)) = - mom_y s.
Proof.
  intros Hc Ht Ho.
  destruct (stream_collide_spec p cells tmp obstacles Hc Ht Ho)
    as (tmp' & Hrun & _ & Hl).
  eexists _, tmp'. split; [exact Hrun|]. intros ii jj s Hin Hob Hs.
  rewrite propagate_pull in Hs by done. injection Hs as <-.
  apply obstacle_not_fluid in Hob.
  assert (Hm : forall d v, mirror (pull p cells ii jj) d = Some v ->
                           peek d tmp' (idx p ii jj) = v).
  { intros d v Hv. apply peek_of_load. rewrite Hl by done.
    rewrite cell_out_obstacle by done. by rewrite Hv. }
  unfold mom_x, mom_y, cell_at. cbn [s1 s2 s3 s4 s5 s6 s7 s8].
  rewrite (Hm D1 _ eq_refl), (Hm D2 _ eq_refl), (Hm D3 _ eq_refl),
    (Hm D4 _ eq_refl), (Hm D5 _ eq_refl), (Hm D6 _ eq_refl),
    (Hm D7 _ eq_refl), (Hm D8 _ eq_refl).
  split; lra.
Qed.

(** X12: in exact arithmetic [accelerate_flow] adds [density * accel / 3]
    to the x momentum of every cell it updates (the fluid cells of row
    [ny - 2] that pass its test) and nothing to its y momentum, and leaves
    both momenta of every other cell as they were. *)
Theorem accelerate_flow_adds_x_momentum p cells obstacles :
  wf_speed p cells -> wf_obstacles p obstacles -> (2 <= ny p)%Z ->
  exists cells',
    accelerate_flow p cells obstacles = Some cells'
    /\ forall ii jj, in_grid p ii jj ->
         mom_x (cell_at cells' (idx p ii jj))
         = mom_x (cell_at cells (idx p ii jj))
           + (if decide (jj = (ny p - 2)%Z)
              then if accel_guard (accel_w1 p) (accel_w2 p) cells obstacles
                        (idx p ii jj)
                   then density p * accel p / 3 else 0
              else 0)
         /\ mom_y (cell_at cells' (idx p ii jj))
            = mom_y (cell_at cells (idx p ii jj)).
Proof.
  intros Hc Ho Hny.
  destruct (accelerate_flow_spec p cells obstacles Hc Ho Hny) as (c' & Hrun & Hc' & Hl).
  exists c'. split; [exact Hrun|]. intros ii jj Hin.
  pose proof (idx_range p ii jj Hin) as Hi.
  assert (Hsame : forall d, load d cells (idx p ii jj)
                            = Some (sget d (cell_at cells (idx p ii jj)))).
  { intros d. rewrite (load_peek p) by done. by destruct d. }
  destruct (decide (jj = (ny p - 2)%Z)) as [Hj|Hj].
  - destruct (accel_guard _ _ _ _ _) eqn:Hg.
    + set (S := cell_at cells (idx p ii jj)).
      set (w1 := accel_w1 p). set (w2 := accel_w2 p).
      rewrite (cell_at_ext c'
                 {| s0 := accel_delta w1 w2 D0 (s0 S);
                    s1 := accel_delta w1 w2 D1 (s1 S);
                    s2 := accel_delta w1 w2 D2 (s2 S);
                    s3 := accel_delta w1 w2 D3 (s3 S);
                    s4 := accel_delta w1 w2 D4 (s4 S);
                    s5 := accel_delta w1 w2 D5 (s5 S);
                    s6 := accel_delta w1 w2 D6 (s6 S);
                    s7 := accel_delta w1 w2 D7 (s7 S);
                    s8 := accel_delta w1 w2 D8 (s8 S) |}).
      * split.
        -- unfold mom_x at 1. cbn [s1 s2 s3 s4 s5 s6 s7 s8].
           rewrite accel_delta_mom_x. unfold w1, w2. by rewrite accel_weights.
        -- unfold mom_y at 1. cbn [s1 s2 s3 s4 s5 s6 s7 s8].
           apply accel_delta_mom_y.
      * intros d. rewrite Hl by done. rewrite decide_True by done.
        rewrite Hg. by destruct d.
    + rewrite (cell_at_ext c' (cell_at cells (idx p ii jj))).
      * split; [lra | done].
      * intros d. rewrite Hl by done. rewrite decide_True by done.
        by rewrite Hg.
  - rewrite (cell_at_ext c' (cell_at cells (idx p ii jj))).
    + split; [lra | done].
    + intros d. rewrite Hl by done. by rewrite decide_False by done.
Qed.

(** X13: in exact arithmetic the grid [initialise] builds has total
    density [nx * ny * density]: every cell holds the reference density,
    whatever the allocated arrays held. *)
Theorem initialise_total_density p a o :
  wf_speed p a -> wf_obstacles p o -> (0 <= nx p)%Z -> (0 <= ny p)%Z ->
  exists cells obstacles,
    initialise p a o = Some (cells, obstacles)
    /\ total_density p cells = Some (IZR (nx p * ny p) * density p).
Proof.
  intros Ha Ho Hnx Hny.
  destruct (initialise_spec p a o Ha Ho) as (c & b & Hrun & Hc & _ & Hl).
  exists c, b. split; [exact Hrun|].
  rewrite total_density_exact by done. f_equal.
  rewrite (Rsum_fmap_const _ (density p)).
  - by rewrite length_grid_cells.
  - intros [jj ii] Hin. apply elem_of_grid_cells in Hin. cbn [fst snd] in *.
    rewrite (cell_at_ext c (eq_stencil p)); [apply rho_eq_stencil|].
    intros d. destruct (Hl ii jj) as [_ Hd]; [unfold in_grid; lia|].
    rewrite Hd. by destruct d.
Qed.

(** X14: in exact arithmetic the average the pass returns is not negative:
    it is the mean of the speeds (the norms of the velocities) of the fluid
    cells.  The grid has a fluid cell and every fluid cell pulls values of
    nonzero sum, so that no division is by zero. *)
Theorem stream_collide_average_nonnegative p cells tmp obstacles :
  wf_speed p cells -> wf_speed p tmp -> wf_obstacles p obstacles ->
  (exists ii jj, in_grid p ii jj /\ fluid obstacles (idx p ii jj)) ->
  (forall ii jj, in_grid p ii jj -> fluid obstacles (idx p ii jj) ->
                 spec_density p cells ii jj <> 0) ->
  exists av tmp',
    stream_collide p cells tmp obstacles = Some (av, tmp') /\ 0 <= av.
Proof.
  intros Hc Ht Ho (ii & jj & Hin & Hf) _.
  destruct (stream_collide_spec p cells tmp obstacles Hc Ht Ho)
    as (tmp' & Hrun & _ & _).
  eexists _, tmp'. split; [exact Hrun|]. rsimpl.
  apply Rle_mult_inv_pos.
  - unfold pass_acc. apply foldl_acc_step_nonneg. rsimpl. lra.
  - apply IZR_lt. unfold pass_acc.
    apply acc_count_pos with (x := (jj, ii)); [|done].
    apply elem_of_grid_cells. destruct Hin. cbn [fst snd]. lia.
Qed.

End ExactProperties.

(** ** Binary32 *)

(** X15: in binary32, with [omega = 2] the viscosity [calc_reynolds]
    computes, [1/6 * (2/omega - 1)], is exactly zero, and the function
    divides by it: the Reynolds number it returns is an infinity or a NaN,
    never a number. *)
Theorem calc_reynolds_omega_two_is_not_finite
    (p : t_param B32.t) (cells : t_speed B32.t) (obstacles : list Z) :
  wf_speed p cells -> wf_obstacles p obstacles -> omega p = Ex.f 2 ->
  exists re,
    calc_reynolds p cells obstacles = Some re /\ is_finite32 re = false.
Proof.
  intros Hc Ho Hom.
  destruct (calc_reynolds_spec p cells obstacles Hc Ho) as (av & _ & Hre).
  eexists. split; [exact Hre|]. rewrite Hom.
  change (fdiv (of_int 1) (of_int 6) * (fdiv (of_int 2) (Ex.f 2) - of_int 1))%flt
    with (S754_zero false).
  cbn [fdiv fmul B32.ops].
  match goal with
  | |- context [SFdiv _ _ ?x _] => by destruct x as [[]|[]| |[] ? ?]
  end.
Qed.

(** X20: in binary32, on a grid without a fluid cell [av_velocity] divides
    [tot_u = 0.0f] by [(float) tot_cells = 0.0f]: it returns NaN, and so
    does [calc_reynolds], which multiplies and divides that value. *)
Theorem av_velocity_all_obstacles_is_nan
    (p : t_param B32.t) (cells : t_speed B32.t) (obstacles : list Z) :
  wf_speed p cells -> wf_obstacles p obstacles ->
  (forall ii jj, in_grid p ii jj -> obstacle obstacles (idx p ii jj)) ->
  av_velocity p cells obstacles = Some S754_nan
  /\ calc_reynolds p cells obstacles = Some S754_nan.
Proof.
  intros Hc Ho Hall.
  assert (Hav : av_velocity p cells obstacles = Some S754_nan).
  { rewrite av_velocity_spec by done.
    rewrite foldl_av_step_no_fluid; [reflexivity|].
    intros [jj ii] Hin. apply elem_of_grid_cells in Hin. cbn [fst snd] in *.
    apply obstacle_not_fluid, Hall. unfold in_grid. lia. }
  split; [exact Hav|].
  unfold calc_reynolds. cbv zeta. rewrite Hav. osimpl. reflexivity.
Qed.

(** ** The properties on the examples *)

(** X1 on the walled 2 x 2 example. *)
Lemma timestep_stays_in_bounds_witness :
  wf_speed Ex.p22 Ex.c22 /\ wf_speed Ex.p22 Ex.z22
  /\ wf_obstacles Ex.p22 Ex.walls22 /\ 2 <= ny Ex.p22
  /\ exists av cells' tmp',
       timestep Ex.p22 Ex.c22 Ex.z22 Ex.walls22 = Some (av, cells', tmp')
       /\ wf_speed Ex.p22 cells' /\ wf_speed Ex.p22 tmp'.
Proof.
  split; [exact ExFacts.wf_c22|]. split; [exact ExFacts.wf_z22|].
  split; [exact ExFacts.wf_walls22|]. split; [exact ExFacts.ny_p22|].
  exact (timestep_stays_in_bounds Ex.p22 Ex.c22 Ex.z22 Ex.walls22
           ExFacts.wf_c22 ExFacts.wf_z22 ExFacts.wf_walls22 ExFacts.ny_p22).
Defined.

(** X2 on the 1 x 1 example. *)
Lemma timestep_single_row_leaves_arrays_witness :
  ny Ex.p11 < 2 /\ 1 <= nx Ex.p11
  /\ accelerate_flow Ex.p11 Ex.c11 [1] = None
  /\ timestep Ex.p11 Ex.c11 Ex.z11 [1] = None.
Proof.
  assert (Hny : ny Ex.p11 < 2) by (simpl; lia).
  assert (Hnx : 1 <= nx Ex.p11) by (simpl; lia).
  split; [exact Hny|]. split; [exact Hnx|].
  exact (timestep_single_row_leaves_arrays Ex.p11 Ex.c11 Ex.z11 [1] Hny Hnx).
Defined.

(** X3 on the walled 2 x 2 example, one iteration, two allocations of
    [av_vels]. *)
Lemma main_loop_overwrites_av_vels_witness :
  wf_speed Ex.p22 Ex.c22 /\ wf_speed Ex.p22 Ex.z22
  /\ wf_obstacles Ex.p22 Ex.walls22 /\ 2 <= ny Ex.p22
  /\ Z.of_nat (length ExRun.avs1) = maxIters Ex.p22
  /\ Z.of_nat (length ExRun.avs1') = maxIters Ex.p22
  /\ exists cells1 tmp1 avs1,
       main_loop Ex.p22 Ex.c22 Ex.z22 Ex.walls22 ExRun.avs1
       = Some (cells1, tmp1, avs1)
       /\ main_loop Ex.p22 Ex.c22 Ex.z22 Ex.walls22 ExRun.avs1'
          = Some (cells1, tmp1, avs1).
Proof.
  split; [exact ExFacts.wf_c22|]. split; [exact ExFacts.wf_z22|].
  split; [exact ExFacts.wf_walls22|]. split; [exact ExFacts.ny_p22|].
  split; [reflexivity|]. split; [reflexivity|].
  destruct (main_loop_overwrites_av_vels Ex.p22 Ex.c22 Ex.z22 Ex.walls22
              ExRun.avs1 ExRun.avs1' ExFacts.wf_c22 ExFacts.wf_z22
              ExFacts.wf_walls22 ExFacts.ny_p22 eq_refl eq_refl)
    as (c1 & t1 & a1 & Hrun & Hrun' & _).
  exists c1, t1, a1. split; [exact Hrun | exact Hrun'].
Defined.

(** X4 on the walled 2 x 2 example: after its one iteration, the rest entry
    of the first cell of the grid is the one the scratch grid started
    with. *)
Lemma main_loop_swaps_obstacle_rest_entries_witness :
  wf_speed Ex.p22 Ex.c22 /\ wf_speed Ex.p22 Ex.z22
  /\ wf_obstacles Ex.p22 Ex.walls22 /\ 2 <= ny Ex.p22
  /\ Z.of_nat (length ExRun.avs1) = maxIters Ex.p22
  /\ exists cells1 tmp1 avs1,
       main_loop Ex.p22 Ex.c22 Ex.z22 Ex.walls22 ExRun.avs1
       = Some (cells1, tmp1, avs1)
       /\ load D0 cells1 (idx Ex.p22 0 0) = load D0 Ex.z22 (idx Ex.p22 0 0).
Proof.
  split; [exact ExFacts.wf_c22|]. split; [exact ExFacts.wf_z22|].
  split; [exact ExFacts.wf_walls22|]. split; [exact ExFacts.ny_p22|].
  split; [reflexivity|].
  destruct (main_loop_swaps_obstacle_rest_entries Ex.p22 Ex.c22 Ex.z22 Ex.walls22
              ExRun.avs1 ExFacts.wf_c22 ExFacts.wf_z22
              ExFacts.wf_walls22 ExFacts.ny_p22 eq_refl)
    as (c1 & t1 & a1 & Hrun & Hrest).
  exists c1, t1, a1. split; [exact Hrun|].
  assert (Hin : in_grid Ex.p22 0 0) by (unfold in_grid; simpl; lia).
  assert (Hob : obstacle Ex.walls22 (idx Ex.p22 0 0))
    by (exists 1; split; [reflexivity | lia]).
  exact (proj1 (Hrest 0 0 Hin Hob)).
Defined.

(** X5 on the walled 2 x 2 example, with two scratch grids. *)
Lemma stream_collide_overwrites_scratch_witness :
  wf_speed Ex.p22 Ex.c22 /\ wf_speed Ex.p22 Ex.z22 /\ wf_speed Ex.p22 Ex.void22
  /\ wf_obstacles Ex.p22 Ex.walls22
  /\ exists av t t',
       stream_collide Ex.p22 Ex.c22 Ex.z22 Ex.walls22 = Some (av, t)
       /\ stream_collide Ex.p22 Ex.c22 Ex.void22 Ex.walls22 = Some (av, t')
       /\ load D1 t (idx Ex.p22 0 0) = load D1 t' (idx Ex.p22 0 0).
Proof.
  split; [exact ExFacts.wf_c22|]. split; [exact ExFacts.wf_z22|].
  split; [exact ExFacts.wf_void22|]. split; [exact ExFacts.wf_walls22|].
  destruct (stream_collide_overwrites_scratch Ex.p22 Ex.c22 Ex.z22 Ex.void22
              Ex.walls22 ExFacts.wf_c22 ExFacts.wf_z22 ExFacts.wf_void22
              ExFacts.wf_walls22)
    as (av & t & t' & Hrun & Hrun' & Hsame).
  exists av, t, t'. split; [exact Hrun|]. split; [exact Hrun'|].
  apply Hsame; [unfold in_grid; simpl; lia | by left].
Defined.

(** X6 on the free 2 x 2 example. *)
Lemma accelerate_flow_keeps_west_positive_witness :
  wf_speed Ex.p22 Ex.c22 /\ wf_obstacles Ex.p22 Ex.free22 /\ 2 <= ny Ex.p22
  /\ exists cells',
       accelerate_flow Ex.p22 Ex.c22 Ex.free22 = Some cells'
       /\ (load D3 cells' (idx Ex.p22 0 0) = load D3 Ex.c22 (idx Ex.p22 0 0)
           \/ exists v, load D3 cells' (idx Ex.p22 0 0) = Some v
                        /\ fgt v (of_int 0) = true).
Proof.
  split; [exact ExFacts.wf_c22|]. split; [exact ExFacts.wf_free22|].
  split; [exact ExFacts.ny_p22|].
  destruct (accelerate_flow_keeps_west_positive Ex.p22 Ex.c22 Ex.free22
              ExFacts.wf_c22 ExFacts.wf_free22 ExFacts.ny_p22)
    as (c' & Hrun & Hwest).
  exists c'. split; [exact Hrun|].
  apply Hwest; [unfold in_grid; simpl; lia | by left].
Defined.

(** X7 on the 2 x 2 example, with two allocations. *)
Lemma initialise_ignores_allocated_contents_witness :
  wf_speed Ex.p22 Ex.c22 /\ wf_speed Ex.p22 Ex.z22
  /\ wf_obstacles Ex.p22 Ex.walls22 /\ wf_obstacles Ex.p22 Ex.free22
  /\ 0 <= nx Ex.p22
  /\ exists cells obstacles,
       initialise Ex.p22 Ex.c22 Ex.walls22 = Some (cells, obstacles)
       /\ initialise Ex.p22 Ex.z22 Ex.free22 = Some (cells, obstacles).
Proof.
  split; [exact ExFacts.wf_c22|]. split; [exact ExFacts.wf_z22|].
  split; [exact ExFacts.wf_walls22|]. split; [exact ExFacts.wf_free22|].
  split; [exact ExFacts.nx_p22|].
  exact (initialise_ignores_allocated_contents Ex.p22 Ex.c22 Ex.z22
           Ex.walls22 Ex.free22 ExFacts.wf_c22 ExFacts.wf_z22
           ExFacts.wf_walls22 ExFacts.wf_free22 ExFacts.nx_p22).
Defined.

(** X8 on the walled 2 x 2 example. *)
Lemma write_values_lines_witness :
  wf_speed Ex.p22 Ex.c22 /\ wf_obstacles Ex.p22 Ex.walls22
  /\ Z.of_nat (length ExRun.avs1) = maxIters Ex.p22
  /\ exists final_state av_lines,
       write_values Ex.p22 Ex.c22 Ex.walls22 ExRun.avs1
       = Some (final_state, av_lines)
       /\ (fun l => (line_jj l, line_ii l)) <$> final_state
          = grid_cells (nx Ex.p22) (ny Ex.p22)
       /\ av_lines = zip (seqZ 0 (maxIters Ex.p22)) ExRun.avs1.
Proof.
  split; [exact ExFacts.wf_c22|]. split; [exact ExFacts.wf_walls22|].
  split; [reflexivity|].
  destruct (write_values_lines Ex.p22 Ex.c22 Ex.walls22 ExRun.avs1
              ExFacts.wf_c22 ExFacts.wf_walls22 eq_refl)
    as (fs & avl & Hrun & Hcells & _ & Havl).
  exists fs, avl. split; [exact Hrun|]. split; [exact Hcells | exact Havl].
Defined.

(** X9 on the free 2 x 2 example. *)
Lemma av_velocity_is_mean_of_written_speeds_witness :
  wf_speed Ex.p22 Ex.c22 /\ wf_obstacles Ex.p22 Ex.free22
  /\ Z.of_nat (length ExRun.avs1) = maxIters Ex.p22
  /\ exists final_state av_lines,
       write_values Ex.p22 Ex.c22 Ex.free22 ExRun.avs1
       = Some (final_state, av_lines)
       /\ av_velocity Ex.p22 Ex.c22 Ex.free22
          = Some (fdiv (foldl mean_step (of_int 0, 0) final_state).1
                    (of_int (foldl mean_step (of_int 0, 0) final_state).2)).
Proof.
  split; [exact ExFacts.wf_c22|]. split; [exact ExFacts.wf_free22|].
  split; [reflexivity|].
  exact (av_velocity_is_mean_of_written_speeds Ex.p22 Ex.c22 Ex.free22 ExRun.avs1
           ExFacts.wf_c22 ExFacts.wf_free22 eq_refl).
Defined.

(** X10 on the example over the reals, at its first cell. *)
Lemma stream_collide_conserves_cell_momentum_witness :
  wf_speed ExR.p12 ExR.ones12 /\ wf_obstacles ExR.p12 ExR.free12
  /\ exists av tmp' s,
       stream_collide ExR.p12 ExR.ones12 ExR.ones12 ExR.free12 = Some (av, tmp')
       /\ propagate ExR.p12 ExR.ones12 0 (y_south ExR.p12 0) (y_north ExR.p12 0) 0
          = Some s
       /\ rho s <> 0%R
       /\ rho (cell_at tmp' (idx ExR.p12 0 0)) = rho s
       /\ mom_x (cell_at tmp' (idx ExR.p12 0 0)) = mom_x s
       /\ mom_y (cell_at tmp' (idx ExR.p12 0 0)) = mom_y s.
Proof.
  assert (Hin : in_grid ExR.p12 0 0) by (unfold in_grid; simpl; lia).
  assert (Hs : propagate ExR.p12 ExR.ones12 0 (y_south ExR.p12 0) (y_north ExR.p12 0) 0
               = Some (pull ExR.p12 ExR.ones12 0 0))
    by (apply propagate_pull; [exact ExRFacts.wf_ones12 | exact Hin]).
  assert (Hrho : rho (pull ExR.p12 ExR.ones12 0 0) <> 0%R).
  { rewrite rho_pull by exact Hin.
    rewrite ExRFacts.spec_density_ones12 by exact Hin. lra. }
  split; [exact ExRFacts.wf_ones12|]. split; [exact ExRFacts.wf_free12|].
  destruct (stream_collide_conserves_cell_momentum ExR.p12 ExR.ones12 ExR.ones12
              ExR.free12 ExRFacts.wf_ones12 ExRFacts.wf_ones12 ExRFacts.wf_free12)
    as (av & tmp' & Hrun & Hcell).
  exists av, tmp', (pull ExR.p12 ExR.ones12 0 0).
  split; [exact Hrun|]. split; [exact Hs|]. split; [exact Hrho|].
  exact (Hcell 0 0 _ Hin eq_refl Hs Hrho).
Defined.

(** X11 on the example over the reals with both cells walled. *)
Lemma rebound_reverses_momentum_witness :
  wf_speed ExR.p12 ExR.ones12 /\ wf_obstacles ExR.p12 ExRun.walls12
  /\ exists av tmp' s,
       stream_collide ExR.p12 ExR.ones12 ExR.ones12 ExRun.walls12 = Some (av, tmp')
       /\ propagate ExR.p12 ExR.ones12 0 (y_south ExR.p12 0) (y_north ExR.p12 0) 0
          = Some s
       /\ mom_x (cell_at tmp' (idx ExR.p12 0 0)) = (- mom_x s)%R
       /\ mom_y (cell_at tmp' (idx ExR.p12 0 0)) = (- mom_y s)%R.
Proof.
  assert (Ho : wf_obstacles ExR.p12 ExRun.walls12) by reflexivity.
  assert (Hin : in_grid ExR.p12 0 0) by (unfold in_grid; simpl; lia).
  assert (Hob : obstacle ExRun.walls12 (idx ExR.p12 0 0))
    by (exists 1; split; [reflexivity | lia]).
  assert (Hs : propagate ExR.p12 ExR.ones12 0 (y_south ExR.p12 0) (y_north ExR.p12 0) 0
               = Some (pull ExR.p12 ExR.ones12 0 0))
    by (apply propagate_pull; [exact ExRFacts.wf_ones12 | exact Hin]).
  split; [exact ExRFacts.wf_ones12|]. split; [exact Ho|].
  destruct (rebound_reverses_momentum ExR.p12 ExR.ones12 ExR.ones12
              ExRun.walls12 ExRFacts.wf_ones12 ExRFacts.wf_ones12 Ho)
    as (av & tmp' & Hrun & Hcell).
  exists av, tmp', (pull ExR.p12 ExR.ones12 0 0).
  split; [exact Hrun|]. split; [exact Hs|].
  exact (Hcell 0 0 _ Hin Hob Hs).
Defined.

(** X12 on the example over the reals. *)
Lemma accelerate_flow_adds_x_momentum_witness :
  wf_speed ExR.p12 ExR.ones12 /\ wf_obstacles ExR.p12 ExR.free12
  /\ 2 <= ny ExR.p12
  /\ exists cells',
       accelerate_flow ExR.p12 ExR.ones12 ExR.free12 = Some cells'
       /\ mom_y (cell_at cells' (idx ExR.p12 0 0))
          = mom_y (cell_at ExR.ones12 (idx ExR.p12 0 0)).
Proof.
  assert (Hny : 2 <= ny ExR.p12) by (simpl; lia).
  assert (Hin : in_grid ExR.p12 0 0) by (unfold in_grid; simpl; lia).
  split; [exact ExRFacts.wf_ones12|]. split; [exact ExRFacts.wf_free12|].
  split; [exact Hny|].
  destruct (accelerate_flow_adds_x_momentum ExR.p12 ExR.ones12 ExR.free12
              ExRFacts.wf_ones12 ExRFacts.wf_free12 Hny) as (c' & Hrun & Hcell).
  exists c'. split; [exact Hrun|]. exact (proj2 (Hcell 0 0 Hin)).
Defined.

(** X13 on the example over the reals. *)
Lemma initialise_total_density_witness :
  wf_speed ExR.p12 ExR.ones12 /\ wf_obstacles ExR.p12 ExR.free12
  /\ 0 <= nx ExR.p12 /\ 0 <= ny ExR.p12
  /\ exists cells obstacles,
       initialise ExR.p12 ExR.ones12 ExR.free12 = Some (cells, obstacles)
       /\ total_density ExR.p12 cells
          = Some (IZR (nx ExR.p12 * ny ExR.p12) * density ExR.p12)%R.
Proof.
  assert (Hnx : 0 <= nx ExR.p12) by (simpl; lia).
  assert (Hny : 0 <= ny ExR.p12) by (simpl; lia).
  split; [exact ExRFacts.wf_ones12|]. split; [exact ExRFacts.wf_free12|].
  split; [exact Hnx|]. split; [exact Hny|].
  exact (initialise_total_density ExR.p12 ExR.ones12 ExR.free12
           ExRFacts.wf_ones12 ExRFacts.wf_free12 Hnx Hny).
Defined.

(** X14 on the example over the reals. *)
Lemma stream_collide_average_nonnegative_witness :
  wf_speed ExR.p12 ExR.ones12 /\ wf_obstacles ExR.p12 ExR.free12
  /\ (exists ii jj, in_grid ExR.p12 ii jj /\ fluid ExR.free12 (idx ExR.p12 ii jj))
  /\ (forall ii jj, in_grid ExR.p12 ii jj -> fluid ExR.free12 (idx ExR.p12 ii jj) ->
                    spec_density ExR.p12 ExR.ones12 ii jj <> 0%R)
  /\ exists av tmp',
       stream_collide ExR.p12 ExR.ones12 ExR.ones12 ExR.free12 = Some (av, tmp')
       /\ (0 <= av)%R.
Proof.
  assert (Hin : in_grid ExR.p12 0 0) by (unfold in_grid; simpl; lia).
  assert (Hex : exists ii jj, in_grid ExR.p12 ii jj
                              /\ fluid ExR.free12 (idx ExR.p12 ii jj))
    by (exists 0, 0; split; [exact Hin | reflexivity]).
  assert (Hrho : forall ii jj, in_grid ExR.p12 ii jj ->
                   fluid ExR.free12 (idx ExR.p12 ii jj) ->
                   spec_density ExR.p12 ExR.ones12 ii jj <> 0%R)
    by (intros ii jj Hi _; rewrite ExRFacts.spec_density_ones12 by exact Hi; lra).
  split; [exact ExRFacts.wf_ones12|]. split; [exact ExRFacts.wf_free12|].
  split; [exact Hex|]. split; [exact Hrho|].
  exact (stream_collide_average_nonnegative ExR.p12 ExR.ones12 ExR.ones12 ExR.free12
           ExRFacts.wf_ones12 ExRFacts.wf_ones12 ExRFacts.wf_free12 Hex Hrho).
Defined.

(** X15 on the free 2 x 2 example with [omega = 2]. *)
Lemma calc_reynolds_omega_two_is_not_finite_witness :
  wf_speed ExRun.p22w Ex.c22 /\ wf_obstacles ExRun.p22w Ex.free22
  /\ omega ExRun.p22w = Ex.f 2
  /\ exists re,
       calc_reynolds ExRun.p22w Ex.c22 Ex.free22 = Some re
       /\ is_finite32 re = false.
Proof.
  assert (Hc : wf_speed ExRun.p22w Ex.c22) by (intros []; reflexivity).
  assert (Ho : wf_obstacles ExRun.p22w Ex.free22) by reflexivity.
  split; [exact Hc|]. split; [exact Ho|]. split; [reflexivity|].
  exact (calc_reynolds_omega_two_is_not_finite ExRun.p22w Ex.c22 Ex.free22
           Hc Ho eq_refl).
Defined.

(** X16 on the 2 x 2 example and the one-line file. *)
Lemma load_obstacles_checks_every_line_witness :
  wf_obstacles Ex.p22 Ex.free22
  /\ ((Forall (good_line Ex.p22) (read_lines ExRun.file22)
       /\ exists obstacles',
            load_obstacles Ex.p22 ExRun.file22 Ex.free22 = Done obstacles'
            /\ wf_obstacles Ex.p22 obstacles')
      \/ (~ Forall (good_line Ex.p22) (read_lines ExRun.file22)
          /\ exists message,
               load_obstacles Ex.p22 ExRun.file22 Ex.free22 = Died message)).
Proof.
  split; [exact ExFacts.wf_free22|].
  exact (load_obstacles_checks_every_line Ex.p22 ExRun.file22 Ex.free22
           ExFacts.wf_free22).
Defined.

(** X17 on the 2 x 2 example and the one-line file: the arrays handed to
    [initialise] hold anything. *)
Lemma initialise_marks_named_cells_witness :
  wf_speed Ex.p22 Ex.c22 /\ wf_obstacles Ex.p22 Ex.walls22
  /\ exists cells obstacles,
       initialise Ex.p22 Ex.c22 Ex.walls22 = Some (cells, obstacles)
       /\ forall obstacles',
            load_obstacles Ex.p22 ExRun.file22 obstacles = Done obstacles' ->
            rd obstacles' (idx Ex.p22 1 0) = Some 1
            /\ rd obstacles' (idx Ex.p22 0 0) = Some 0.
Proof.
  split; [exact ExFacts.wf_c22|]. split; [exact ExFacts.wf_walls22|].
  destruct (initialise_marks_named_cells Ex.p22 ExRun.file22 Ex.c22 Ex.walls22
              ExFacts.wf_c22 ExFacts.wf_walls22) as (c & o & Hrun & Hmark).
  exists c, o. split; [exact Hrun|]. intros o' Hload. split.
  - apply (Hmark o' Hload 1 0). unfold in_grid. simpl. lia.
  - apply (Hmark o' Hload 0 0). unfold in_grid. simpl. lia.
Defined.

(** X18 on the 2 x 2 example and the one-line file. *)
Lemma main_stays_in_bounds_witness :
  wf_speed Ex.p22 Ex.c22 /\ wf_speed Ex.p22 Ex.z22
  /\ wf_obstacles Ex.p22 Ex.walls22
  /\ Z.of_nat (length ExRun.avs1) = maxIters Ex.p22 /\ 2 <= ny Ex.p22
  /\ ((Forall (good_line Ex.p22) (read_lines ExRun.file22)
       /\ exists out,
            main Ex.p22 ExRun.file22 Ex.c22 Ex.z22 Ex.walls22 ExRun.avs1
            = Done out)
      \/ (~ Forall (good_line Ex.p22) (read_lines ExRun.file22)
          /\ exists message,
               main Ex.p22 ExRun.file22 Ex.c22 Ex.z22 Ex.walls22 ExRun.avs1
               = Died message)).
Proof.
  split; [exact ExFacts.wf_c22|]. split; [exact ExFacts.wf_z22|].
  split; [exact ExFacts.wf_walls22|]. split; [reflexivity|].
  split; [exact ExFacts.ny_p22|].
  exact (main_stays_in_bounds Ex.p22 ExRun.file22 Ex.c22 Ex.z22 Ex.walls22
           ExRun.avs1 ExFacts.wf_c22 ExFacts.wf_z22 ExFacts.wf_walls22
           eq_refl ExFacts.ny_p22).
Defined.

(** X19 on the 2 x 2 example and the one-line file, with two allocations of
    each array. *)
Lemma main_ignores_allocated_contents_witness :
  wf_speed Ex.p22 Ex.c22 /\ wf_speed Ex.p22 Ex.void22
  /\ wf_speed Ex.p22 Ex.z22 /\ wf_speed Ex.p22 Ex.c22
  /\ wf_obstacles Ex.p22 Ex.walls22 /\ wf_obstacles Ex.p22 Ex.free22
  /\ Z.of_nat (length ExRun.avs1) = maxIters Ex.p22
  /\ Z.of_nat (length ExRun.avs1') = maxIters Ex.p22
  /\ 2 <= ny Ex.p22
  /\ main Ex.p22 ExRun.file22 Ex.c22 Ex.z22 Ex.walls22 ExRun.avs1
     = main Ex.p22 ExRun.file22 Ex.void22 Ex.c22 Ex.free22 ExRun.avs1'.
Proof.
  split; [exact ExFacts.wf_c22|]. split; [exact ExFacts.wf_void22|].
  split; [exact ExFacts.wf_z22|]. split; [exact ExFacts.wf_c22|].
  split; [exact ExFacts.wf_walls22|]. split; [exact ExFacts.wf_free22|].
  split; [reflexivity|]. split; [reflexivity|]. split; [exact ExFacts.ny_p22|].
  exact (main_ignores_allocated_contents Ex.p22 ExRun.file22
           Ex.c22 Ex.void22 Ex.z22 Ex.c22 Ex.walls22 Ex.free22
           ExRun.avs1 ExRun.avs1'
           ExFacts.wf_c22 ExFacts.wf_void22 ExFacts.wf_z22 ExFacts.wf_c22
           ExFacts.wf_walls22 ExFacts.wf_free22 eq_refl eq_refl ExFacts.ny_p22).
Defined.

(** X20 on the walled 2 x 2 example. *)
Lemma av_velocity_all_obstacles_is_nan_witness :
  wf_speed Ex.p22 Ex.c22 /\ wf_obstacles Ex.p22 Ex.walls22
  /\ av_velocity Ex.p22 Ex.c22 Ex.walls22 = Some S754_nan
  /\ calc_reynolds Ex.p22 Ex.c22 Ex.walls22 = Some S754_nan.
Proof.
  split; [exact ExFacts.wf_c22|]. split; [exact ExFacts.wf_walls22|].
  apply (av_velocity_all_obstacles_is_nan Ex.p22 Ex.c22 Ex.walls22
           ExFacts.wf_c22 ExFacts.wf_walls22).
  intros ii jj [Hii Hjj]. simpl in Hii, Hjj.
  assert (Hcases : (ii = 0 \/ ii = 1) /\ (jj = 0 \/ jj = 1)) by lia.
  destruct Hcases as [[-> | ->] [-> | ->]];
    (exists 1; split; [reflexivity | lia]).
Defined.
